(** * Order creation, inventory ledger and order-status updates

    A shallow embedding of [routes/order.routes.js] together with the parts
    of the Mongoose models [Product.model.js] and [Order.model.js] that the
    two mutating order routes depend on:

    - [POST /api/orders]            is [createOrder];
    - [PUT  /api/orders/:id/status] is [updateStatus];
    - [orderSchema.pre('save')]     is [Order_preSave] / [generateOrderNumber];
    - the schema validators that can reject a write made by these routes
      ([stock.quantity] has [min: 0], [items.quantity] has [min: 1], the
      [unique] index on [orderNumber]) are part of [Product_save] and
      [Order_create].

    Beside them, the two read routes of the orders ([listOrders],
    [getOrder]), the routes [PUT] and [DELETE /api/products/:id]
    ([updateProduct], [deleteProduct]), the slug hooks of
    the product and category models with the slug repair script
    ([Product_slugHook], [Category_slugHook], [generateSlug],
    [uniqueSlug]) and the tag list of a new product ([productTags]).

    Modelling conventions.
    - JavaScript numbers that the routes compute with (prices, quantities,
      counters) are whole numbers, [Z]; binary64 arithmetic is exact on
      them below [2^53]. Prices with a fraction, whose sums round, and
      item quantities sent as JSON strings, which [+=] on line 210 would
      concatenate, are outside the model.
    - A field that may be absent from a JSON body is an [option].
    - The two collections are explicit state: products are a finite map
      keyed by their id, orders are the list of stored documents, an order
      id being its position (the routes never delete an order).
    - [new Date()], [Date.now()] and [Math.random()] are read from a
      [Clock] passed to every operation.
    - Authentication ([protect], [authorize]) and the read-only population
      of the response are outside the model. *)

From Stdlib Require Import ZArith String Ascii List Bool Lia DecimalString DecimalN.
From stdpp Require Import gmap list fin_maps.
Import ListNotations.

Local Open Scope Z_scope.

Notation "a +:+ b" := (String.append a b)
  (at level 60, right associativity) : string_scope.

(** ** JavaScript helpers *)

Module JS.

(** [x || d] where [x] is a number or absent: [undefined], [null] and
    [0] are falsy. *)
Definition num_or (x : option Z) (d : Z) : Z :=
  match x with
  | Some v => if v =? 0 then d else v
  | None => d
  end.

(** Truthiness of an optional string: absent and [''] are falsy. *)
Definition truthy (x : option string) : bool :=
  match x with
  | Some s => negb (String.eqb s EmptyString)
  | None => false
  end.

(** [x || d] on optional strings. *)
Definition str_or (x : option string) (d : string) : string :=
  if truthy x then default d x else d.

(** [String(n)] for a non-negative integer. *)
Definition String_ (n : N) : string :=
  NilEmpty.string_of_uint (N.to_uint n).

Fixpoint repeat_char (c : ascii) (n : nat) : string :=
  match n with
  | O => EmptyString
  | S n' => String c (repeat_char c n')
  end.

(** [s.padStart(n, c)] for a one-character pad. *)
Definition padStart (n : nat) (c : ascii) (s : string) : string :=
  (repeat_char c (n - String.length s) +:+ s)%string.

Definition is_space (c : ascii) : bool :=
  let n := nat_of_ascii c in
  ((9 <=? n) && (n <=? 13) || (n =? 32))%nat.

Fixpoint all_space (s : string) : bool :=
  match s with
  | EmptyString => true
  | String c s' => is_space c && all_space s'
  end.

(** Truthiness of an optional object (a [Date]): only absence is falsy. *)
Definition defined {A} (x : option A) : bool :=
  match x with
  | Some _ => true
  | None => false
  end.

(** [!s || s.trim() === ''] *)
Definition blank (x : option string) : bool :=
  match x with
  | Some s => all_space s
  | None => true
  end.

End JS.

(** ** Data model *)

(** Document ids ([ObjectId]) are numbers. *)
Abbreviation ProductId := N (only parsing).
Abbreviation UserId := N (only parsing).

(** The fields of [productSchema] read or written by the order routes. *)
Record Product := mkProduct {
  p_name : string;
  p_price : Z;
  p_images : list string;          (* images[i].url *)
  stock_quantity : Z;              (* stock.quantity, min: 0 *)
  stock_trackInventory : bool;     (* stock.trackInventory *)
  sales_count : Z;                 (* sales.count *)
  sales_revenue : Z;               (* sales.revenue *)
  p_isActive : bool
}.

Inductive Status :=
  | pending | confirmed | processing | shipped | delivered | cancelled.

Inductive PaymentMethod := cash | card | bank_transfer | stripe.

Inductive PaymentStatus := pay_pending | pay_paid | pay_failed | pay_refunded.

#[global] Instance Status_eq_dec : EqDecision Status.
Proof. solve_decision. Defined.

#[global] Instance PaymentMethod_eq_dec : EqDecision PaymentMethod.
Proof. solve_decision. Defined.

(** [items.variant] of the order schema: a nested object of two strings. *)
Record Variant := mkVariant {
  v_name : option string;
  v_value : option string
}.

(** The [variant] of a request item: an object, or a string. *)
Inductive VariantField :=
  | VariantObject (v : Variant)
  | VariantText (t : string).

Record OrderItem := mkOrderItem {
  oi_product : ProductId;
  oi_name : string;
  oi_price : Z;
  oi_quantity : Z;
  oi_image : string;
  oi_variant : option Variant
}.

Record Pricing := mkPricing {
  subtotal : Z;
  shipping : Z;
  tax : Z;
  discount : Z;
  total : Z
}.

Record Payment := mkPayment {
  pay_method : PaymentMethod;
  pay_status : PaymentStatus;
  pay_transactionId : option string;
  pay_accountNumber : option string
}.

Record Shipping := mkShipping {
  trackingNumber : option string;
  estimatedDelivery : option string;
  shippedAt : option N;
  deliveredAt : option N
}.

Record Order := mkOrder {
  orderNumber : option string;
  o_user : UserId;
  o_items : list OrderItem;
  o_shippingAddress : string;
  o_billingAddress : string;
  o_pricing : Pricing;
  o_payment : Payment;
  o_status : Status;
  o_shipping : Shipping;
  o_notes : option string;
  cancelledAt : option N;
  o_isTest : bool
}.

(** The durable store: the two collections. *)
Record Store := mkStore {
  products : gmap N Product;
  orders : list Order
}.

(** What an operation reads from the outside world. *)
Record Clock := mkClock {
  year : N;            (* date.getFullYear() *)
  month : N;           (* date.getMonth() + 1 *)
  day : N;             (* date.getDate() *)
  now : N;             (* Date.now() *)
  random36 : string    (* Math.random().toString(36).substring(2, 8) *)
}.

(** ** Request bodies *)

Record ItemReq := mkItemReq {
  product : option ProductId;
  quantity : Z;
  variant : option VariantField
}.

Record PricingReq := mkPricingReq {
  rq_subtotal : option Z;
  rq_shipping : option Z;
  rq_tax : option Z;
  rq_discount : option Z;
  rq_total : option Z
}.

Record PaymentReq := mkPaymentReq {
  rq_method : option string;
  rq_status : option string;        (* ignored by the route *)
  rq_transactionId : option string;
  rq_accountNumber : option string
}.

Record CreateReq := mkCreateReq {
  items : list ItemReq;
  shippingAddress : option string;
  billingAddress : option string;
  pricing : option PricingReq;
  payment : option PaymentReq;
  notes : option string;
  isTest : bool
}.

Record StatusReq := mkStatusReq {
  rq_newStatus : option string;
  rq_trackingNumber : option string;
  rq_estimatedDelivery : option string
}.

(** ** Pricing (lines 171-178 of the order routes) *)

Definition finalPricing (pr : PricingReq) (computed : Z) : Pricing :=
  {| subtotal := JS.num_or (rq_subtotal pr) computed;
     shipping := JS.num_or (rq_shipping pr) 0;
     tax := JS.num_or (rq_tax pr) 0;
     discount := JS.num_or (rq_discount pr) 0;
     total := JS.num_or (rq_total pr)
                (computed + JS.num_or (rq_shipping pr) 0
                          + JS.num_or (rq_tax pr) 0
                          - JS.num_or (rq_discount pr) 0) |}.

(** ** Order numbers ([orderSchema.pre('save')], Order model) *)

(** The two queries the hook sends to the orders collection. A query
    that rejects (the store is unreachable) is [None]; [findOne] already
    carries the [_id: { $ne: this._id }] filter. *)
Record OrderQueries := mkOrderQueries {
  countDocuments : option nat;
  findOne : string -> option bool
}.

Definition prefix (isTest : bool) : string :=
  if isTest then "TEST"%string else "ORD"%string.

(** [`${year}${month}${day}`] with month and day padded to two digits. *)
Definition datePart (clk : Clock) : string :=
  (JS.String_ (year clk)
   +:+ JS.padStart 2 "0" (JS.String_ (month clk))
   +:+ JS.padStart 2 "0" (JS.String_ (day clk)))%string.

(** [`${prefix}-${year}${month}${day}-${String(n).padStart(5, '0')}`] *)
Definition numbered (clk : Clock) (isTest : bool) (n : nat) : string :=
  (prefix isTest +:+ "-" +:+ datePart clk +:+ "-"
   +:+ JS.padStart 5 "0" (JS.String_ (N.of_nat n)))%string.

(** [`${prefix}-${year}${month}${day}-${Date.now()}`], the value taken
    when the safety limit of the loop is hit. *)
Definition limitFallback (clk : Clock) (isTest : bool) : string :=
  (prefix isTest +:+ "-" +:+ datePart clk +:+ "-" +:+ JS.String_ (now clk))%string.

(** [`${prefix}-${Date.now()}-${random}`], the value of the [catch] block. *)
Definition errorFallback (clk : Clock) (isTest : bool) : string :=
  (prefix isTest +:+ "-" +:+ JS.String_ (now clk) +:+ "-" +:+ random36 clk)%string.

Inductive Loop (A : Type) :=
  | Done (a : A)      (* the loop was left with this value *)
  | Threw             (* a query rejected *)
  | OutOfFuel.
Arguments Done {A} a.
Arguments Threw {A}.
Arguments OutOfFuel {A}.

(** The [while (await Order.findOne(...))] loop. [counter] and
    [orderNumber] are the two loop variables. *)
Fixpoint probe (q : OrderQueries) (clk : Clock) (isTest : bool) (count : nat)
    (fuel : nat) (counter : nat) (orderNumber : string) : Loop string :=
  match fuel with
  | O => OutOfFuel
  | S fuel' =>
      match findOne q orderNumber with
      | None => Threw
      | Some false => Done orderNumber
      | Some true =>
          let orderNumber := numbered clk isTest (count + 1 + counter) in
          let counter := (counter + 1)%nat in
          if (100 <? counter)%nat then Done (limitFallback clk isTest)
          else probe q clk isTest count fuel' counter orderNumber
      end
  end.

(** The body of the [try] block; 100 iterations are always enough, see
    [probe_fuel]. *)
Definition tryGenerate (q : OrderQueries) (clk : Clock) (isTest : bool) : Loop string :=
  match countDocuments q with
  | None => Threw
  | Some count =>
      probe q clk isTest count 100 1 (numbered clk isTest (count + 1))
  end.

Definition generateOrderNumber (q : OrderQueries) (clk : Clock) (isTest : bool) : string :=
  match tryGenerate q clk isTest with
  | Done n => n
  | Threw => errorFallback clk isTest
  | OutOfFuel => errorFallback clk isTest
  end.

(** Field updates on an order document. *)
Definition with_orderNumber (n : option string) (o : Order) : Order :=
  {| orderNumber := n;
     o_user := o_user o; o_items := o_items o;
     o_shippingAddress := o_shippingAddress o;
     o_billingAddress := o_billingAddress o;
     o_pricing := o_pricing o; o_payment := o_payment o;
     o_status := o_status o; o_shipping := o_shipping o;
     o_notes := o_notes o; cancelledAt := cancelledAt o;
     o_isTest := o_isTest o |}.

Definition with_status (st : Status) (o : Order) : Order :=
  {| orderNumber := orderNumber o;
     o_user := o_user o; o_items := o_items o;
     o_shippingAddress := o_shippingAddress o;
     o_billingAddress := o_billingAddress o;
     o_pricing := o_pricing o; o_payment := o_payment o;
     o_status := st; o_shipping := o_shipping o;
     o_notes := o_notes o; cancelledAt := cancelledAt o;
     o_isTest := o_isTest o |}.

Definition with_shipping (sh : Shipping) (o : Order) : Order :=
  {| orderNumber := orderNumber o;
     o_user := o_user o; o_items := o_items o;
     o_shippingAddress := o_shippingAddress o;
     o_billingAddress := o_billingAddress o;
     o_pricing := o_pricing o; o_payment := o_payment o;
     o_status := o_status o; o_shipping := sh;
     o_notes := o_notes o; cancelledAt := cancelledAt o;
     o_isTest := o_isTest o |}.

Definition with_cancelledAt (t : option N) (o : Order) : Order :=
  {| orderNumber := orderNumber o;
     o_user := o_user o; o_items := o_items o;
     o_shippingAddress := o_shippingAddress o;
     o_billingAddress := o_billingAddress o;
     o_pricing := o_pricing o; o_payment := o_payment o;
     o_status := o_status o; o_shipping := o_shipping o;
     o_notes := o_notes o; cancelledAt := t;
     o_isTest := o_isTest o |}.

(** The hook: a number is generated only when the document has none. *)
Definition Order_preSave (q : OrderQueries) (clk : Clock) (doc : Order) : Order :=
  if JS.blank (orderNumber doc) then
    with_orderNumber (Some (generateOrderNumber q clk (o_isTest doc))) doc
  else doc.

(** The queries answered by a stored collection [os]; [self] is the
    position of the document being saved, if it is already stored. *)
Fixpoint numberTaken (num : string) (self : option nat) (i : nat) (os : list Order) : bool :=
  match os with
  | [] => false
  | o :: os' =>
      (bool_decide (orderNumber o = Some num) && negb (bool_decide (self = Some i)))
      || numberTaken num self (S i) os'
  end.

Definition queriesOf (os : list Order) (self : option nat) : OrderQueries :=
  {| countDocuments := Some (length os);
     findOne := fun num => Some (numberTaken num self 0 os) |}.

(** ** The models' writes *)

(** [product.save()]: the write is rejected when the modified path
    [stock.quantity] violates [min: 0]. [sales.count] and [sales.revenue]
    carry no validator. *)
Definition Product_save (id : ProductId) (p : Product) (ps : gmap N Product)
    : option (gmap N Product) :=
  if stock_quantity p <? 0 then None else Some (<[id := p]> ps).

(** The validators of [orderSchema] that a document built by the create
    route can fail: every item's [quantity] has [min: 1]. *)
Definition Order_validate (doc : Order) : bool :=
  forallb (fun it => 1 <=? oi_quantity it) (o_items doc).

(** The [unique] index on [orderNumber]: a write is refused when another
    stored document holds the same value. *)
Fixpoint indexConflict (n : option string) (self : option nat) (i : nat) (os : list Order) : bool :=
  match os with
  | [] => false
  | o :: os' =>
      (bool_decide (orderNumber o = n) && negb (bool_decide (self = Some i)))
      || indexConflict n self (S i) os'
  end.

(** [Order.create(doc)]: validation, then the pre-save hook, then the
    insert. [None] is a rejected promise. *)
Definition Order_create (clk : Clock) (doc : Order) (os : list Order)
    : option (Order * list Order) :=
  if Order_validate doc then
    let doc' := Order_preSave (queriesOf os None) clk doc in
    if indexConflict (orderNumber doc') None 0 os then None
    else Some (doc', os ++ [doc'])
  else None.

(** [order.save()] on the stored document at position [idx]. The paths
    written by the status route carry no validator that can fail; the
    index is consulted only when the hook changed [orderNumber]. *)
Definition Order_save (clk : Clock) (idx : nat) (doc : Order) (os : list Order)
    : option (Order * list Order) :=
  let doc' := Order_preSave (queriesOf os (Some idx)) clk doc in
  if JS.blank (orderNumber doc) && indexConflict (orderNumber doc') (Some idx) 0 os
  then None
  else Some (doc', <[idx := doc']> os).

(** ** POST /api/orders *)

Inductive CreateResult :=
  | Created (o : Order)                 (* 201 *)
  | ValidationFailed                    (* 400, express-validator errors *)
  | InvalidPaymentMethod                (* 400 *)
  | MissingTransactionId                (* 400 *)
  | MissingProductId                    (* 400 *)
  | ProductNotFound (id : ProductId)    (* 400 *)
  | ProductUnavailable (name : string)  (* 400, product not active *)
  | InsufficientStock (name : string)   (* 400 *)
  | ServerError.                        (* 500, the catch block *)

(** The three [body(...)] validators of the route. *)
Definition checkCreateBody (req : CreateReq) : bool :=
  negb (bool_decide (items req = []))
  && JS.truthy (shippingAddress req)
  && match pricing req ≫= rq_total with
     | Some t => 0 <=? t
     | None => false
     end.

Definition validPaymentMethods : list string :=
  ["cash"; "card"; "bank_transfer"; "stripe"]%string.

Definition includes (l : list string) (s : string) : bool :=
  existsb (String.eqb s) l.

Definition paymentMethodOf (s : string) : PaymentMethod :=
  if String.eqb s "card" then card
  else if String.eqb s "bank_transfer" then bank_transfer
  else if String.eqb s "stripe" then stripe
  else cash.

(** The entry pushed on [orderItems], as the order schema stores it: the
    nested path [variant] takes an object and drops a string. *)
Definition snapshot (id : ProductId) (p : Product) (item : ItemReq) : OrderItem :=
  {| oi_product := id;
     oi_name := p_name p;
     oi_price := p_price p;
     oi_quantity := quantity item;
     oi_image := JS.str_or (head (p_images p)) EmptyString;
     oi_variant :=
       match variant item with
       | Some (VariantObject v) => Some v
       | Some (VariantText _) | None => None
       end |}.

(** The first loop over [items] (lines 124-169): every early [return]
    is an [inl]; a completed loop yields [subtotal] and [orderItems]. *)
Fixpoint validateItems (isTest : bool) (ps : gmap N Product) (its : list ItemReq)
    (subtotal : Z) (orderItems : list OrderItem)
    : CreateResult + (Z * list OrderItem) :=
  match its with
  | [] => inr (subtotal, orderItems)
  | item :: rest =>
      match product item with
      | None => inl MissingProductId
      | Some id =>
          match ps !! id with
          | None => inl (ProductNotFound id)
          | Some p =>
              if negb (p_isActive p) then inl (ProductUnavailable (p_name p))
              else if negb isTest && stock_trackInventory p
                      && (stock_quantity p <? quantity item)
              then inl (InsufficientStock (p_name p))
              else validateItems isTest ps rest
                     (subtotal + p_price p * quantity item)
                     (orderItems ++ [snapshot id p item])
          end
      end
  end.

(** The mutation of lines 209-211. *)
Definition sold (p : Product) (q : Z) : Product :=
  {| p_name := p_name p; p_price := p_price p; p_images := p_images p;
     stock_quantity := stock_quantity p - q;
     stock_trackInventory := stock_trackInventory p;
     sales_count := sales_count p + q;
     sales_revenue := sales_revenue p + p_price p * q;
     p_isActive := p_isActive p |}.

(** The second loop over [items] (lines 206-214). The flag is [false]
    when a [product.save()] rejected; the map is then the collection as
    the earlier iterations left it. *)
Fixpoint decrementStock (its : list ItemReq) (ps : gmap N Product)
    : gmap N Product * bool :=
  match its with
  | [] => (ps, true)
  | item :: rest =>
      match product item with
      | None => decrementStock rest ps
      | Some id =>
          match ps !! id with
          | Some p =>
              if stock_trackInventory p then
                match Product_save id (sold p (quantity item)) ps with
                | Some ps' => decrementStock rest ps'
                | None => (ps, false)
                end
              else decrementStock rest ps
          | None => decrementStock rest ps
          end
      end
  end.

Definition noPricing : PricingReq :=
  {| rq_subtotal := None; rq_shipping := None; rq_tax := None;
     rq_discount := None; rq_total := None |}.

Definition noShipping : Shipping :=
  {| trackingNumber := None; estimatedDelivery := None;
     shippedAt := None; deliveredAt := None |}.

(** The document handed to [Order.create] (lines 187-201); [status] and
    the absent fields take their schema defaults. *)
Definition newOrder (user : UserId) (req : CreateReq)
    (orderItems : list OrderItem) (fp : Pricing) : Order :=
  let method := payment req ≫= rq_method in
  let ship := default EmptyString (shippingAddress req) in
  {| orderNumber := None;
     o_user := user;
     o_items := orderItems;
     o_shippingAddress := ship;
     o_billingAddress := JS.str_or (billingAddress req) ship;
     o_pricing := fp;
     o_payment :=
       {| pay_method := paymentMethodOf (JS.str_or method "cash");
          pay_status := pay_pending;
          pay_transactionId :=
            (let t := payment req ≫= rq_transactionId in
             if JS.truthy t then t else None);
          pay_accountNumber :=
            (let a := payment req ≫= rq_accountNumber in
             if JS.truthy a then a else None) |};
     o_status := pending;
     o_shipping := noShipping;
     o_notes := notes req;
     cancelledAt := None;
     o_isTest := isTest req |}.

Definition createOrder (clk : Clock) (user : UserId) (req : CreateReq) (s : Store)
    : CreateResult * Store :=
  if negb (checkCreateBody req) then (ValidationFailed, s) else
  let method := payment req ≫= rq_method in
  if JS.truthy method && negb (includes validPaymentMethods (default EmptyString method))
  then (InvalidPaymentMethod, s) else
  if bool_decide (method = Some "bank_transfer"%string)
     && negb (JS.truthy (payment req ≫= rq_transactionId))
  then (MissingTransactionId, s) else
  match validateItems (isTest req) (products s) (items req) 0 [] with
  | inl err => (err, s)
  | inr (subtotal, orderItems) =>
      (* checkCreateBody: pricing.total is a number, so pricing is an object *)
      let fp := finalPricing (default noPricing (pricing req)) subtotal in
      match Order_create clk (newOrder user req orderItems fp) (orders s) with
      | None => (ServerError, s)
      | Some (order, os) =>
          match decrementStock (items req) (products s) with
          | (ps, true) => (Created order, {| products := ps; orders := os |})
          | (ps, false) => (ServerError, {| products := ps; orders := os |})
          end
      end
  end.

(** ** PUT /api/orders/:id/status *)

Inductive UpdateResult :=
  | Updated (o : Order)      (* 200 *)
  | InvalidStatus            (* 400, express-validator errors *)
  | OrderNotFound            (* 404 *)
  | UpdateServerError.       (* 500, the catch block *)

Definition validStatuses : list string :=
  ["pending"; "confirmed"; "processing"; "shipped"; "delivered"; "cancelled"]%string.

(** [body('status').isIn([...])]; an absent field is validated as ['']. *)
Definition checkStatusBody (req : StatusReq) : bool :=
  includes validStatuses (default EmptyString (rq_newStatus req)).

Definition statusOf (s : string) : Status :=
  if String.eqb s "confirmed" then confirmed
  else if String.eqb s "processing" then processing
  else if String.eqb s "shipped" then shipped
  else if String.eqb s "delivered" then delivered
  else if String.eqb s "cancelled" then cancelled
  else pending.

(** [new Date(estimatedDelivery)]: a time, or an Invalid Date, which the
    [Date] path of the schema refuses to cast, so that the following
    [order.save()] rejects. *)
Inductive DateValue :=
  | ValidDate (t : string)
  | InvalidDate.

(** The mutation of lines 287-289. *)
Definition restored (p : Product) (item : OrderItem) : Product :=
  {| p_name := p_name p; p_price := p_price p; p_images := p_images p;
     stock_quantity := stock_quantity p + oi_quantity item;
     stock_trackInventory := stock_trackInventory p;
     sales_count := sales_count p - oi_quantity item;
     sales_revenue := sales_revenue p - oi_price item * oi_quantity item;
     p_isActive := p_isActive p |}.

(** The loop over [order.items] (lines 284-292), with the same result
    convention as [decrementStock]. *)
Fixpoint restoreStock (its : list OrderItem) (ps : gmap N Product)
    : gmap N Product * bool :=
  match its with
  | [] => (ps, true)
  | item :: rest =>
      match ps !! oi_product item with
      | Some p =>
          if stock_trackInventory p then
            match Product_save (oi_product item) (restored p item) ps with
            | Some ps' => restoreStock rest ps'
            | None => (ps, false)
            end
          else restoreStock rest ps
      | None => restoreStock rest ps
      end
  end.

Definition setShippedAt (t : N) (o : Order) : Order :=
  with_shipping
    {| trackingNumber := trackingNumber (o_shipping o);
       estimatedDelivery := estimatedDelivery (o_shipping o);
       shippedAt := Some t;
       deliveredAt := deliveredAt (o_shipping o) |} o.

Definition setDeliveredAt (t : N) (o : Order) : Order :=
  with_shipping
    {| trackingNumber := trackingNumber (o_shipping o);
       estimatedDelivery := estimatedDelivery (o_shipping o);
       shippedAt := shippedAt (o_shipping o);
       deliveredAt := Some t |} o.

Definition setTrackingNumber (n : string) (o : Order) : Order :=
  with_shipping
    {| trackingNumber := Some n;
       estimatedDelivery := estimatedDelivery (o_shipping o);
       shippedAt := shippedAt (o_shipping o);
       deliveredAt := deliveredAt (o_shipping o) |} o.

Definition setEstimatedDelivery (d : string) (o : Order) : Order :=
  with_shipping
    {| trackingNumber := trackingNumber (o_shipping o);
       estimatedDelivery := Some d;
       shippedAt := shippedAt (o_shipping o);
       deliveredAt := deliveredAt (o_shipping o) |} o.

(** Lines 273-279: the two timestamps that are set once. *)
Definition stampShipping (clk : Clock) (status : Status) (order : Order) : Order :=
  let order :=
    if bool_decide (status = shipped) && negb (JS.defined (shippedAt (o_shipping order)))
    then setShippedAt (now clk) order else order in
  if bool_decide (status = delivered) && negb (JS.defined (deliveredAt (o_shipping order)))
  then setDeliveredAt (now clk) order else order.

(** Lines 295-296. The flag is [false] when the date did not cast. *)
Definition applyTracking (req : StatusReq) (parsed : DateValue) (order : Order)
    : Order * bool :=
  let order :=
    if JS.truthy (rq_trackingNumber req)
    then setTrackingNumber (default EmptyString (rq_trackingNumber req)) order
    else order in
  if JS.truthy (rq_estimatedDelivery req) then
    match parsed with
    | ValidDate d => (setEstimatedDelivery d order, true)
    | InvalidDate => (order, false)
    end
  else (order, true).

(** [parsed] is the value of [new Date(estimatedDelivery)], read only
    when [estimatedDelivery] is given. Products saved by the restore loop
    stay saved when a later step rejects. *)
Definition updateStatus (clk : Clock) (id : nat) (req : StatusReq)
    (parsed : DateValue) (s : Store) : UpdateResult * Store :=
  if negb (checkStatusBody req) then (InvalidStatus, s) else
  match orders s !! id with
  | None => (OrderNotFound, s)
  | Some order =>
      let status := statusOf (default EmptyString (rq_newStatus req)) in
      let order := with_status status order in
      let order := stampShipping clk status order in
      let '(order, (ps, ok)) :=
        if bool_decide (status = cancelled) && negb (JS.defined (cancelledAt order))
        then (with_cancelledAt (Some (now clk)) order,
              restoreStock (o_items order) (products s))
        else (order, (products s, true)) in
      if negb ok then (UpdateServerError, {| products := ps; orders := orders s |})
      else
        let '(order, castOk) := applyTracking req parsed order in
        if negb castOk
        then (UpdateServerError, {| products := ps; orders := orders s |})
        else
          match Order_save clk id order (orders s) with
          | None => (UpdateServerError, {| products := ps; orders := orders s |})
          | Some (saved, os) => (Updated saved, {| products := ps; orders := os |})
          end
  end.

(** ** Vocabulary of the statements *)

(** Total quantity requested for product [id] in a request's items. *)
Fixpoint qtyFor (id : ProductId) (its : list ItemReq) : Z :=
  match its with
  | [] => 0
  | it :: rest =>
      if bool_decide (product it = Some id) then quantity it + qtyFor id rest
      else qtyFor id rest
  end.

(** Total quantity, and total of [price * quantity], recorded for product
    [id] in an order's items. *)
Fixpoint qtyOf (id : ProductId) (its : list OrderItem) : Z :=
  match its with
  | [] => 0
  | it :: rest =>
      if bool_decide (oi_product it = id) then oi_quantity it + qtyOf id rest
      else qtyOf id rest
  end.

Fixpoint revenueOf (id : ProductId) (its : list OrderItem) : Z :=
  match its with
  | [] => 0
  | it :: rest =>
      if bool_decide (oi_product it = id)
      then oi_price it * oi_quantity it + revenueOf id rest
      else revenueOf id rest
  end.

(** The counters of a product after [q] units were sold: untouched when
    inventory is not tracked. *)
Definition afterSale (q : Z) (p : Product) : Product :=
  if stock_trackInventory p then sold p q else p.

(** The counters of a product after [q] units worth [r] were given back. *)
Definition afterRestore (q r : Z) (p : Product) : Product :=
  if stock_trackInventory p then
    {| p_name := p_name p; p_price := p_price p; p_images := p_images p;
       stock_quantity := stock_quantity p + q;
       stock_trackInventory := stock_trackInventory p;
       sales_count := sales_count p - q;
       sales_revenue := sales_revenue p - r;
       p_isActive := p_isActive p |}
  else p.

(** An order item is the snapshot of a request item bound to a stored,
    active product. *)
Definition snapshotOf (ps : gmap N Product) (it : ItemReq) (oi : OrderItem) : Prop :=
  ∃ id p, product it = Some id ∧ ps !! id = Some p
          ∧ p_isActive p = true ∧ oi = snapshot id p it.

(** The business rules of order creation, as failures of a request
    against a store. *)
Definition itemFails (isTest : bool) (ps : gmap N Product) (it : ItemReq) : Prop :=
  match product it with
  | None => True                                        (* missing reference *)
  | Some id =>
      match ps !! id with
      | None => True                                    (* unknown product *)
      | Some p =>
          p_isActive p = false                          (* inactive product *)
          ∨ (isTest = false ∧ stock_trackInventory p = true
             ∧ stock_quantity p < quantity it)          (* insufficient stock *)
      end
  end.

Definition bankTransferWithoutId (req : CreateReq) : Prop :=
  payment req ≫= rq_method = Some "bank_transfer"%string
  ∧ JS.truthy (payment req ≫= rq_transactionId) = false.

Definition failsBusinessRule (req : CreateReq) (s : Store) : Prop :=
  bankTransferWithoutId req
  ∨ Exists (itemFails (isTest req) (products s)) (items req).

(** The answers by which the route reports a failed check: all of them
    are 400 responses. *)
Definition isRejection (r : CreateResult) : Prop :=
  match r with
  | Created _ | ServerError => False
  | _ => True
  end.

(** No tracked product has a negative stock. *)
Definition stockNonneg (ps : gmap N Product) : Prop :=
  ∀ id p, ps !! id = Some p → stock_trackInventory p = true → 0 <= stock_quantity p.

(** One request served by either mutating route, whatever the answer. *)
Inductive step (s s' : Store) : Prop :=
  | step_create clk user req r :
      createOrder clk user req s = (r, s') → step s s'
  | step_update clk id req parsed r :
      updateStatus clk id req parsed s = (r, s') → step s s'.

(** The date of a status request casts: none is given, or it is valid. *)
Definition dateCasts (req : StatusReq) (parsed : DateValue) : Prop :=
  JS.truthy (rq_estimatedDelivery req) = false ∨ parsed ≠ InvalidDate.

Definition requestedStatus (req : StatusReq) : Status :=
  statusOf (default EmptyString (rq_newStatus req)).

(** The stock of product [id], if tracked, is not negative. *)
Definition nonnegAt (id : ProductId) (ps : gmap N Product) : Prop :=
  ∀ p, ps !! id = Some p → stock_trackInventory p = true → 0 <= stock_quantity p.

(** The sum of [price * quantity] over an order's items. *)
Fixpoint itemsTotal (ois : list OrderItem) : Z :=
  match ois with
  | [] => 0
  | oi :: rest => oi_price oi * oi_quantity oi + itemsTotal rest
  end.

(** An order number that starts with the prefix of its kind. *)
Definition hasPrefix (isTest : bool) (n : string) : Prop :=
  ∃ rest, n = (prefix isTest +:+ "-" +:+ rest)%string.

(** Whether a status request runs the restore loop on [order]. *)
Definition restores (req : StatusReq) (order : Order) : bool :=
  bool_decide (requestedStatus req = cancelled) && negb (JS.defined (cancelledAt order)).

(** A supplied [0] read as an absent component. *)
Definition zeroAsAbsent (x : option Z) : option Z :=
  match x with
  | Some 0 => None
  | _ => x
  end.

Definition dropZeros (pr : PricingReq) : PricingReq :=
  {| rq_subtotal := zeroAsAbsent (rq_subtotal pr);
     rq_shipping := zeroAsAbsent (rq_shipping pr);
     rq_tax := zeroAsAbsent (rq_tax pr);
     rq_discount := zeroAsAbsent (rq_discount pr);
     rq_total := zeroAsAbsent (rq_total pr) |}.

(** ** A small shop, for the concrete scenarios *)

Module Scenario.

Definition clk0 : Clock :=
  {| year := 2026; month := 3; day := 9; now := 1773052800000;
     random36 := "k3x9qz"%string |}.

(** A later instant of the same day. *)
Definition clk1 : Clock :=
  {| year := 2026; month := 3; day := 9; now := 1773056400000;
     random36 := "p07fma"%string |}.

Definition pen (stock : Z) : Product :=
  {| p_name := "pen"%string; p_price := 7; p_images := ["pen.png"%string];
     stock_quantity := stock; stock_trackInventory := true;
     sales_count := 0; sales_revenue := 0; p_isActive := true |}.

(** One tracked product, id 1, and no order yet. *)
Definition shop (stock : Z) : Store :=
  {| products := <[1%N := pen stock]> ∅; orders := [] |}.

Definition line (id : ProductId) (q : Z) : ItemReq :=
  {| product := Some id; quantity := q; variant := None |}.

Definition onlyTotal (t : Z) : PricingReq :=
  {| rq_subtotal := None; rq_shipping := None; rq_tax := None;
     rq_discount := None; rq_total := Some t |}.

Definition cart (lines : list ItemReq) (t : Z) (test : bool) : CreateReq :=
  {| items := lines; shippingAddress := Some "12 Nile St"%string;
     billingAddress := None; pricing := Some (onlyTotal t);
     payment := None; notes := None; isTest := test |}.

Definition bankCart : CreateReq :=
  {| items := [line 1%N 3]; shippingAddress := Some "12 Nile St"%string;
     billingAddress := None; pricing := Some (onlyTotal 21);
     payment := Some {| rq_method := Some "bank_transfer"%string;
                        rq_status := Some "paid"%string;
                        rq_transactionId := None;
                        rq_accountNumber := None |};
     notes := None; isTest := false |}.

(** A card payment that the caller declares as already paid. *)
Definition cardCart : CreateReq :=
  {| items := [line 1%N 3]; shippingAddress := Some "12 Nile St"%string;
     billingAddress := None; pricing := Some (onlyTotal 21);
     payment := Some {| rq_method := Some "card"%string;
                        rq_status := Some "paid"%string;
                        rq_transactionId := None;
                        rq_accountNumber := None |};
     notes := None; isTest := false |}.

Definition setTo (st : string) : StatusReq :=
  {| rq_newStatus := Some st; rq_trackingNumber := None;
     rq_estimatedDelivery := None |}.

(** A stored order that holds the number [n]. *)
Definition holding (n : string) : Order :=
  with_orderNumber (Some n)
    (newOrder 7%N (cart [line 1%N 1] 7 false) [snapshot 1%N (pen 5) (line 1%N 1)]
       (finalPricing (onlyTotal 7) 7)).

(** 101 stored orders: the hundred numbers that follow the count are
    taken, and so is the number made of the clock value of [clk0]. *)
Definition crowded : list Order :=
  ((λ k, holding (numbered clk0 false (102 + k))) <$> seq 0 100)
  ++ [holding (limitFallback clk0 false)].

(** The shop after an order for 3 of its 5 pens, and after that order
    was cancelled. *)
Definition ordered : Store :=
  snd (createOrder clk0 7%N (cart [line 1%N 3] 21 false) (shop 5)).

Definition withCancelled : Store :=
  snd (updateStatus clk1 0 (setTo "cancelled") InvalidDate ordered).

End Scenario.

(** ** Vocabulary of the ledger and order-collection statements *)

(** What the order routes may do to a product: nothing but move units
    between [stock.quantity] and [sales.count]. *)
Definition moved (p p' : Product) : Prop :=
  p_name p' = p_name p ∧ p_price p' = p_price p ∧ p_images p' = p_images p
  ∧ stock_trackInventory p' = stock_trackInventory p
  ∧ p_isActive p' = p_isActive p
  ∧ stock_quantity p' + sales_count p' = stock_quantity p + sales_count p.

(** The same, with [sales.revenue] following [sales.count] at the
    product's price. *)
Definition movedAtPrice (p p' : Product) : Prop :=
  moved p p'
  ∧ sales_revenue p' - p_price p' * sales_count p'
    = sales_revenue p - p_price p * sales_count p.

(** A relation between the documents two collections hold under every id:
    the same ids are present, and the documents are related. *)
Definition idwise (R : Product → Product → Prop) (ps ps' : gmap N Product) : Prop :=
  ∀ id, option_Forall2 R (ps !! id) (ps' !! id).

(** Every stored order item carries the price its product has now. *)
Definition pricesAgreeOn (ps : gmap N Product) (its : list OrderItem) : Prop :=
  Forall (λ oi, ∀ p, ps !! oi_product oi = Some p → oi_price oi = p_price p) its.

Definition pricesAgree (s : Store) : Prop :=
  Forall (λ o, pricesAgreeOn (products s) (o_items o)) (orders s).

(** No two stored orders hold the same order number. *)
Definition numbersDistinct (os : list Order) : Prop :=
  NoDup (orderNumber <$> os).

(** What a status update leaves alone in the order it saves. *)
Definition sameCore (o o' : Order) : Prop :=
  o_user o' = o_user o ∧ o_items o' = o_items o
  ∧ o_shippingAddress o' = o_shippingAddress o
  ∧ o_billingAddress o' = o_billingAddress o
  ∧ o_pricing o' = o_pricing o ∧ o_payment o' = o_payment o
  ∧ o_notes o' = o_notes o ∧ o_isTest o' = o_isTest o
  ∧ (JS.blank (orderNumber o) = false → orderNumber o' = orderNumber o).

(** A value that, once set, is kept. *)
Definition kept {A} (old new : option A) : Prop :=
  ∀ t, old = Some t → new = Some t.

Definition stampsKept (o o' : Order) : Prop :=
  kept (shippedAt (o_shipping o)) (shippedAt (o_shipping o'))
  ∧ kept (deliveredAt (o_shipping o)) (deliveredAt (o_shipping o'))
  ∧ kept (cancelledAt o) (cancelledAt o').

(** The stock loop can complete: every tracked product named by the items
    holds at least the total the items ask of it. *)
Definition totalsFit (ps : gmap N Product) (its : list ItemReq) : Prop :=
  ∀ id p, ps !! id = Some p → stock_trackInventory p = true →
          0 < qtyFor id its → qtyFor id its <= stock_quantity p.

(** Two documents that differ at most in status, shipping data and
    [cancelledAt]. *)
Definition coreEq (o o' : Order) : Prop :=
  orderNumber o' = orderNumber o
  ∧ o_user o' = o_user o ∧ o_items o' = o_items o
  ∧ o_shippingAddress o' = o_shippingAddress o
  ∧ o_billingAddress o' = o_billingAddress o
  ∧ o_pricing o' = o_pricing o ∧ o_payment o' = o_payment o
  ∧ o_notes o' = o_notes o ∧ o_isTest o' = o_isTest o.

(** The reference data a status request did not supply stays. *)
Definition trackingKept (req : StatusReq) (o o' : Order) : Prop :=
  (JS.truthy (rq_trackingNumber req) = false →
     trackingNumber (o_shipping o') = trackingNumber (o_shipping o))
  ∧ (JS.truthy (rq_estimatedDelivery req) = false →
       estimatedDelivery (o_shipping o') = estimatedDelivery (o_shipping o)).

(** What a sale of [q] units makes of a product: the three counters
    move, nothing else does. *)
Definition debited (q : Z) (p p' : Product) : Prop :=
  p_name p' = p_name p ∧ p_price p' = p_price p ∧ p_images p' = p_images p
  ∧ stock_trackInventory p' = stock_trackInventory p
  ∧ p_isActive p' = p_isActive p
  ∧ stock_quantity p' = stock_quantity p - q
  ∧ sales_count p' = sales_count p + q
  ∧ sales_revenue p' = sales_revenue p + p_price p * q.

(** The units a request takes from product [id]: the quantities of the
    lines that name it when its inventory is tracked, none otherwise. *)
Definition unitsTaken (id : ProductId) (its : list ItemReq) (p : Product) : Z :=
  if stock_trackInventory p then qtyFor id its else 0.

(** An order item records a line of the request: the product the line
    names, stored and active, with its name, its price and the first of
    its images (the empty string when it has none), the quantity of the
    line, and the variant when the line gives one as an object. *)
Definition recordsLine (ps : gmap N Product) (it : ItemReq) (oi : OrderItem) : Prop :=
  ∃ p, product it = Some (oi_product oi) ∧ ps !! oi_product oi = Some p
       ∧ p_isActive p = true
       ∧ oi_name oi = p_name p ∧ oi_price oi = p_price p
       ∧ oi_quantity oi = quantity it
       ∧ oi_image oi = default EmptyString (head (p_images p))
       ∧ (∀ v, variant it = Some (VariantObject v) → oi_variant oi = Some v)
       ∧ ((∀ v, variant it ≠ Some (VariantObject v)) → oi_variant oi = None).

(** ** GET /api/orders and GET /api/orders/:id *)

(** [Math.ceil(a / b)] for [b] other than 0. *)
Definition ceilDiv (a b : Z) : Z := - (- a / b).

Record OrderList := mkOrderList {
  ol_count : nat;
  ol_total : nat;
  ol_page : Z;
  ol_pages : Z;
  ol_orders : list Order
}.

Inductive ListResult :=
  | Listed (l : OrderList)   (* 200 *)
  | ListServerError.         (* 500, the catch block *)

(** The documents matched by the route's filter. *)
Definition visibleTo (requester : UserId) (isAdmin : bool) (os : list Order)
    : list Order :=
  if isAdmin then os else filter (λ o, o_user o = requester) os.

(** The list route. [page] and [limit] are what [parseInt] makes of the
    query strings, [None] for [NaN]; no validator keeps them from being
    negative. [query skip limit matching] is the store's answer to
    [.sort({ createdAt: -1 }).skip(skip).limit(limit)] on the matching
    documents, [None] when the store rejects the query: the model has no
    [createdAt], and what the store does with a negative [skip] or
    [limit] is not in the code, so the query is taken from outside. *)
Definition listOrders (query : Z → Z → list Order → option (list Order))
    (requester : UserId) (isAdmin : bool) (page limit : option Z) (s : Store)
    : ListResult :=
  let page := JS.num_or page 1 in
  let limit := JS.num_or limit 10 in
  let skip := (page - 1) * limit in
  let matching := visibleTo requester isAdmin (orders s) in
  match query skip limit matching with
  | None => ListServerError
  | Some found =>
      Listed {| ol_count := length found;
                ol_total := length matching;
                ol_page := page;
                ol_pages := ceilDiv (Z.of_nat (length matching)) limit;
                ol_orders := found |}
  end.

(** What the store answers when [skip] is not negative and [limit] is
    positive: the documents in the order of [newestFirst], without the
    first [skip] of them, and [limit] of them at most. *)
Definition pagedBy (newestFirst : list Order → list Order)
    (query : Z → Z → list Order → option (list Order)) : Prop :=
  ∀ skip limit l, 0 <= skip → 0 < limit →
    query skip limit l
    = Some (take (Z.to_nat limit) (drop (Z.to_nat skip) (newestFirst l))).

(** A query value that is not negative, if there is one. *)
Definition notNegative (x : option Z) : Prop :=
  ∀ v, x = Some v → 0 <= v.

(** The orders of an answer; none when the answer is an error. *)
Definition listed (r : ListResult) : list Order :=
  match r with
  | Listed l => ol_orders l
  | ListServerError => []
  end.

Inductive GetResult :=
  | Found (o : Order)     (* 200 *)
  | GetNotFound           (* 404 *)
  | Forbidden.            (* 403 *)

(** The single-order route; [isAdmin] is [req.user.role === 'admin']. *)
Definition getOrder (requester : UserId) (isAdmin : bool) (id : nat) (s : Store)
    : GetResult :=
  match orders s !! id with
  | None => GetNotFound
  | Some order =>
      if negb (bool_decide (o_user order = requester)) && negb isAdmin
      then Forbidden
      else Found order
  end.

(** The page numbers [1 .. n]. *)
Definition pageNumbers (n : Z) : list Z :=
  Z.of_nat <$> seq 1 (Z.to_nat n).

(** ** The product routes: PUT and DELETE /api/products/:id *)

Inductive DeleteResult :=
  | ProductDeleted    (* 200 *)
  | DeleteMissing.    (* 404 *)

Definition deleteProduct (id : ProductId) (s : Store) : DeleteResult * Store :=
  match products s !! id with
  | None => (DeleteMissing, s)
  | Some _ =>
      (ProductDeleted, {| products := delete id (products s); orders := orders s |})
  end.

(** A value of an update body. The route sits behind the multipart
    middleware, so a number or a boolean arrives as a JSON value or as a
    text (a JSON string, or any field of a multipart form); a text comes
    with what the code or the schema makes of it ([parseFloat] for the
    price, the schema's cast for the others), [None] when that is [NaN]
    or the cast fails. *)
Inductive Field (A : Type) :=
  | Json (v : A)
  | FormText (text : string) (value : option A).

Arguments Json {A} v.
Arguments FormText {A} text value.

(** The value a field is stored with, if it casts. *)
Definition cast {A} (x : Field A) : option A :=
  match x with
  | Json v => Some v
  | FormText _ value => value
  end.

(** Truthiness of a number field: [0] is falsy, and so is [''], but the
    text ['0'] is not. *)
Definition truthyNumber (x : option (Field Z)) : bool :=
  match x with
  | Some (Json v) => negb (v =? 0)
  | Some (FormText text _) => negb (String.eqb text EmptyString)
  | None => false
  end.

(** The [stock] object of an update body; a [stock] that is a text has
    neither field. *)
Record StockReq := mkStockReq {
  sq_quantity : option (Field Z);
  sq_trackInventory : option (Field bool)
}.

(** The body of an update, restricted to the fields of [Product].
    [pq_files] are the names of the uploaded files. [pq_restAccepted]
    says whether the rest of the body goes through:
    [JSON.parse(attributes)] returns, [tags] is an array or a string, and
    [category], [comparePrice], [description], [stock.lowStockThreshold]
    and [isFeatured] cast; when it does not, the handler ends in its
    catch block, at that statement or at [product.save()]. *)
Record ProductReq := mkProductReq {
  pq_name : option string;
  pq_price : option (Field Z);
  pq_stock : option StockReq;
  pq_isActive : option (Field bool);
  pq_files : list string;
  pq_restAccepted : bool
}.

Inductive ProductUpdateResult :=
  | ProductUpdated (p : Product)   (* 200 *)
  | UpdateMissing                  (* 404 *)
  | ProductServerError.            (* 500 *)

(** [s.trim()], on the white space of the ASCII range. *)
Fixpoint trimStart (s : string) : string :=
  match s with
  | EmptyString => EmptyString
  | String c s' => if JS.is_space c then trimStart s' else s
  end.

Fixpoint trimEnd (s : string) : string :=
  match s with
  | EmptyString => EmptyString
  | String c s' =>
      match trimEnd s' with
      | EmptyString => if JS.is_space c then EmptyString else String c EmptyString
      | rest => String c rest
      end
  end.

Definition trimString (s : string) : string := trimEnd (trimStart s).

(** The validators of [productSchema] on the paths of [Product]: [name]
    is required, [price] and [stock.quantity] have [min: 0]. *)
Definition Product_validate (p : Product) : bool :=
  negb (String.eqb (p_name p) EmptyString)
  && (0 <=? p_price p) && (0 <=? stock_quantity p).

(** An assignment [product.path = value] guarded by [given]: the stored
    value stays when the guard is false, and the assignment fails when
    the value does not cast. *)
Definition assign {A} (given : bool) (value : option (Field A)) (stored : A)
    : option A :=
  if given then value ≫= cast else Some stored.

(** Lines 258-285: the assignments to the loaded document, [None] when
    one of them does not cast. The schema trims the name it is given. *)
Definition applyProductReq (body : ProductReq) (product : Product)
    : option Product :=
  let stock := default (mkStockReq None None) (pq_stock body) in
  price ← assign (truthyNumber (pq_price body)) (pq_price body) (p_price product);
  quantity ← assign (truthyNumber (sq_quantity stock)) (sq_quantity stock)
                (stock_quantity product);
  trackInventory ← assign (JS.defined (sq_trackInventory stock))
                      (sq_trackInventory stock) (stock_trackInventory product);
  isActive ← assign (JS.defined (pq_isActive body)) (pq_isActive body)
                (p_isActive product);
  Some {| p_name :=
            if JS.truthy (pq_name body)
            then trimString (default EmptyString (pq_name body))
            else p_name product;
          p_price := price;
          p_images :=
            p_images product
            ++ ((λ f, ("/uploads/products/" +:+ f)%string) <$> pq_files body);
          stock_quantity := quantity;
          stock_trackInventory := trackInventory;
          sales_count := sales_count product;
          sales_revenue := sales_revenue product;
          p_isActive := isActive |}.

Definition updateProduct (id : ProductId) (body : ProductReq) (s : Store)
    : ProductUpdateResult * Store :=
  match products s !! id with
  | None => (UpdateMissing, s)
  | Some product =>
      match applyProductReq body product with
      | Some product =>
          if pq_restAccepted body && Product_validate product
          then (ProductUpdated product,
                {| products := <[id := product]> (products s); orders := orders s |})
          else (ProductServerError, s)
      | None => (ProductServerError, s)
      end
  end.

(** One request served by any of the modelled routes that write. *)
Inductive anyStep (s s' : Store) : Prop :=
  | any_order : step s s' → anyStep s s'
  | any_update id body r : updateProduct id body s = (r, s') → anyStep s s'
  | any_delete id r : deleteProduct id s = (r, s') → anyStep s s'.

(** A price or quantity the schema refuses: a negative number, as a JSON
    number or as a text, or a text that is no number. *)
Definition refusedNumber (x : Field Z) : Prop :=
  match x with
  | Json v => v < 0
  | FormText text value =>
      text ≠ EmptyString ∧ (value = None ∨ ∃ v, value = Some v ∧ v < 0)
  end.

(** The three counters of a product. *)
Definition counters (p : Product) : Z * Z * Z :=
  (stock_quantity p, sales_count p, sales_revenue p).

(** A product that cannot be ordered: it is not stored, or not active. *)
Definition unavailable (id : ProductId) (s : Store) : Prop :=
  match products s !! id with
  | None => True
  | Some p => p_isActive p = false
  end.

(** ** Slugs and tags: the pre-save hooks of the product and category
    models, the slug repair script, and the tag list of a new product

    These functions look at single characters (the Arabic block, [\s]),
    so their strings are lists of UTF-16 code units. [toLowerCase] needs
    the Unicode case tables, which are not part of the code: it is a
    parameter [lower] of every function that calls it. *)

Abbreviation CodeUnits := (list N) (only parsing).

(** The code units of a string of one-byte characters. *)
Definition units (s : string) : CodeUnits :=
  N_of_ascii <$> list_ascii_of_string s.

Definition hyphen : N := 45.
Definition comma : N := 44.

(** [\s], which is also what [trim] removes. *)
Definition isWhite (c : N) : bool :=
  ((9 <=? c) && (c <=? 13) || (c =? 32) || (c =? 160) || (c =? 5760)
   || (8192 <=? c) && (c <=? 8202) || (c =? 8232) || (c =? 8233)
   || (c =? 8239) || (c =? 8287) || (c =? 12288) || (c =? 65279))%N.

Fixpoint dropWhite (s : CodeUnits) : CodeUnits :=
  match s with
  | [] => []
  | c :: r => if isWhite c then dropWhite r else s
  end.

(** [s.trim()] *)
Definition trim (s : CodeUnits) : CodeUnits :=
  reverse (dropWhite (reverse (dropWhite s))).

(** [!s || s.trim() === ''] *)
Definition blankUnits (x : option CodeUnits) : bool :=
  match x with
  | Some s => forallb isWhite s
  | None => true
  end.

(** [s.replace(/\s+/g, '-')]; [inRun] says that the previous unit was
    white. *)
Fixpoint whiteRuns (inRun : bool) (s : CodeUnits) : CodeUnits :=
  match s with
  | [] => []
  | c :: r =>
      if isWhite c then
        if inRun then whiteRuns true r else hyphen :: whiteRuns true r
      else c :: whiteRuns false r
  end.

(** [[ء-يa-z0-9-]] *)
Definition slugUnit (c : N) : bool :=
  ((1569 <=? c) && (c <=? 1610) || (97 <=? c) && (c <=? 122)
   || (48 <=? c) && (c <=? 57) || (c =? hyphen))%N.

(** [[ء-ي0-9-]], the class of the category hook. *)
Definition categoryUnit (c : N) : bool :=
  ((1569 <=? c) && (c <=? 1610) || (48 <=? c) && (c <=? 57) || (c =? hyphen))%N.

(** [s.replace(/-+/g, '-')] *)
Fixpoint hyphenRuns (inRun : bool) (s : CodeUnits) : CodeUnits :=
  match s with
  | [] => []
  | c :: r =>
      if (c =? hyphen)%N then
        if inRun then hyphenRuns true r else hyphen :: hyphenRuns true r
      else c :: hyphenRuns false r
  end.

Definition stripLead (s : CodeUnits) : CodeUnits :=
  match s with
  | c :: r => if (c =? hyphen)%N then r else s
  | [] => []
  end.

Fixpoint stripTrail (s : CodeUnits) : CodeUnits :=
  match s with
  | [] => []
  | [c] => if (c =? hyphen)%N then [] else [c]
  | c :: r => c :: stripTrail r
  end.

(** [s.replace(/^-|-$/g, '')]: the match at the start is taken first. *)
Definition stripEdges (s : CodeUnits) : CodeUnits :=
  stripTrail (stripLead s).

(** The chain of lines 652-658 of the product model, and 343-349 of the
    repair script. *)
Definition slugOf (lower : CodeUnits → CodeUnits) (name : CodeUnits) : CodeUnits :=
  stripEdges (hyphenRuns false (filter (λ c, slugUnit c = true)
    (whiteRuns false (trim (lower name))))).

(** [`product-${Date.now()}-${Math.random().toString(36).substring(2, 8)}`] *)
Definition fallbackSlug (clk : Clock) : CodeUnits :=
  units ("product-" +:+ JS.String_ (now clk) +:+ "-" +:+ random36 clk)%string.

(** [generateSlug] of the repair script. *)
Definition generateSlug (lower : CodeUnits → CodeUnits) (clk : Clock)
    (name : option CodeUnits) : CodeUnits :=
  if blankUnits name then fallbackSlug clk
  else
    let slug := slugOf lower (default [] name) in
    if blankUnits (Some slug) then fallbackSlug clk else slug.

(** [`${slug}-${counter}`] *)
Definition numberedSlug (slug : CodeUnits) (counter : nat) : CodeUnits :=
  slug ++ [hyphen] ++ units (JS.String_ (N.of_nat counter)).

(** The loop [while (await Product.findOne({ slug: finalSlug, ... }))]
    of the hook and of the script; [taken] answers the query, [counter]
    and [finalSlug] are the loop variables. *)
Fixpoint slugLoop (taken : CodeUnits → bool) (slug : CodeUnits)
    (fuel counter : nat) (finalSlug : CodeUnits) : option CodeUnits :=
  match fuel with
  | O => None
  | S fuel' =>
      if taken finalSlug then
        slugLoop taken slug fuel' (S counter) (numberedSlug slug counter)
      else Some finalSlug
  end.

(** The loop against the slugs held by the other products; it is left
    within as many rounds as there are such slugs, plus one. *)
Definition uniqueSlug (others : list CodeUnits) (slug : CodeUnits)
    : option CodeUnits :=
  slugLoop (λ x, bool_decide (x ∈ others)) slug (S (length others)) 1 slug.

(** The slug hook of the product model (lines 647-688): the slug the
    document has after it. *)
Definition Product_slugHook (lower : CodeUnits → CodeUnits) (clk : Clock)
    (others : list CodeUnits) (slug name : option CodeUnits)
    : option CodeUnits :=
  let slug :=
    if blankUnits slug then
      if negb (blankUnits name) then
        let slug := slugOf lower (default [] name) in
        let slug := if blankUnits (Some slug) then fallbackSlug clk else slug in
        uniqueSlug others slug
      else Some (fallbackSlug clk)
    else slug in
  match slug with
  | Some s => Some (if blankUnits (Some s) then fallbackSlug clk else s)
  | None => None
  end.

(** The chain of the category hook (line 922). *)
Definition categorySlugOf (lower : CodeUnits → CodeUnits) (name : CodeUnits)
    : CodeUnits :=
  filter (λ c, categoryUnit c = true) (whiteRuns false (lower name)).

(** The category hook: [isModified('name') && !this.slug]. *)
Definition Category_slugHook (lower : CodeUnits → CodeUnits)
    (nameModified : bool) (slug : option CodeUnits) (name : CodeUnits)
    : option CodeUnits :=
  if nameModified && bool_decide (default [] slug = [])
  then Some (categorySlugOf lower name)
  else slug.

(** [s.split(',')] *)
Fixpoint splitComma (s : CodeUnits) : list CodeUnits :=
  match s with
  | [] => [[]]
  | c :: r =>
      if (c =? comma)%N then [] :: splitComma r
      else match splitComma r with
           | piece :: pieces => (c :: piece) :: pieces
           | [] => [[c]]
           end
  end.

(** The [tags] field of a body: an array of strings or a string. *)
Inductive TagsField :=
  | TagArray (tags : list CodeUnits)
  | TagText (tags : CodeUnits).

(** Line 224 of the product routes: the tags of a new product. *)
Definition productTags (tags : option TagsField) : list CodeUnits :=
  match tags with
  | Some (TagArray tags) => tags
  | Some (TagText tags) =>
      if bool_decide (tags ≠ []) && negb (bool_decide (trim tags = []))
      then filter (λ t, t ≠ []) (trim <$> splitComma tags)
      else []
  | None => []
  end.

(** No two hyphens in a row. *)
Fixpoint noDoubleHyphen (s : CodeUnits) : Prop :=
  match s with
  | [] => True
  | c :: r =>
      match r with
      | [] => True
      | d :: _ => ¬ (c = hyphen ∧ d = hyphen) ∧ noDoubleHyphen r
      end
  end.

(** A string made for a URL: slug characters only, hyphens only single
    and only inside. *)
Definition wellFormedSlug (s : CodeUnits) : Prop :=
  Forall (λ c, slugUnit c = true) s ∧ noDoubleHyphen s
  ∧ head s ≠ Some hyphen ∧ last s ≠ Some hyphen.

Definition latinLetter (c : N) : bool :=
  ((65 <=? c) && (c <=? 90) || (97 <=? c) && (c <=? 122))%N.

(** A tag as the route stores it: not empty, without a comma, without
    white space at either end. *)
Definition cleanTag (t : CodeUnits) : Prop :=
  t ≠ [] ∧ (comma ∉ t)
  ∧ (∀ c, head t = Some c → isWhite c = false)
  ∧ (∀ c, last t = Some c → isWhite c = false).

(** The strings the slug loop tries, in turn: the slug itself, then the
    slug with [-1], [-2], ... *)
Definition slugCandidate (slug : CodeUnits) (k : nat) : CodeUnits :=
  match k with
  | O => slug
  | S _ => numberedSlug slug k
  end.

(** [pieces.join(',')] *)
Fixpoint joinComma (pieces : list CodeUnits) : CodeUnits :=
  match pieces with
  | [] => []
  | piece :: rest =>
      match rest with
      | [] => piece
      | _ :: _ => piece ++ comma :: joinComma rest
      end
  end.

(** ** Sample requests and stores for the read routes, the product
    routes and the hooks *)

Module Catalogue.

(** [toLowerCase] on the ASCII range. *)
Definition lowerAscii (s : CodeUnits) : CodeUnits :=
  (λ c, if ((65 <=? c) && (c <=? 90))%N then (c + 32)%N else c) <$> s.

(** Orders are stored in the order of their creation. *)
Definition newestFirst (os : list Order) : list Order := reverse os.

(** An order paid by a method the route does not know. *)
Definition paypalCart : CreateReq :=
  {| items := [Scenario.line 1%N 3]; shippingAddress := Some "12 Nile St"%string;
     billingAddress := None; pricing := Some (Scenario.onlyTotal 21);
     payment := Some {| rq_method := Some "paypal"%string;
                        rq_status := None;
                        rq_transactionId := None;
                        rq_accountNumber := None |};
     notes := None; isTest := false |}.

(** An order whose payment method is the empty string. *)
Definition blankMethodCart : CreateReq :=
  {| items := [Scenario.line 1%N 3]; shippingAddress := Some "12 Nile St"%string;
     billingAddress := None; pricing := Some (Scenario.onlyTotal 21);
     payment := Some {| rq_method := Some EmptyString;
                        rq_status := None;
                        rq_transactionId := None;
                        rq_accountNumber := None |};
     notes := None; isTest := false |}.

(** A bank transfer with its transaction id. *)
Definition transferCart : CreateReq :=
  {| items := [Scenario.line 1%N 3]; shippingAddress := Some "12 Nile St"%string;
     billingAddress := None; pricing := Some (Scenario.onlyTotal 21);
     payment := Some {| rq_method := Some "bank_transfer"%string;
                        rq_status := None;
                        rq_transactionId := Some "TX-4471"%string;
                        rq_accountNumber := None |};
     notes := None; isTest := false |}.

(** A cancellation that comes with a delivery date. *)
Definition cancelOn (date : string) : StatusReq :=
  {| rq_newStatus := Some "cancelled"%string; rq_trackingNumber := None;
     rq_estimatedDelivery := Some date |}.

(** An update body that names a price only, as a JSON number and as the
    text of a form field. *)
Definition reprice (v : Z) : ProductReq :=
  {| pq_name := None; pq_price := Some (Json v); pq_stock := None;
     pq_isActive := None; pq_files := []; pq_restAccepted := true |}.

Definition repriceForm (text : string) (v : option Z) : ProductReq :=
  {| pq_name := None; pq_price := Some (FormText text v); pq_stock := None;
     pq_isActive := None; pq_files := []; pq_restAccepted := true |}.

Definition deactivate : ProductReq :=
  {| pq_name := None; pq_price := None; pq_stock := None;
     pq_isActive := Some (Json false); pq_files := []; pq_restAccepted := true |}.

(** The shop after the order of [Scenario.ordered] and a new price for
    the pen, and after that order was then cancelled. *)
Definition repriced : Store :=
  snd (updateProduct 1%N (reprice 9) Scenario.ordered).

Definition repricedCancelled : Store :=
  snd (updateStatus Scenario.clk1 0 (Scenario.setTo "cancelled") InvalidDate repriced).

(** The shop after its pen was deleted, and after it was deactivated. *)
Definition withoutPen : Store := snd (deleteProduct 1%N (Scenario.shop 5)).

Definition penOff : Store := snd (updateProduct 1%N deactivate (Scenario.shop 5)).

(** The shop after a test order for 3 pens while it held none. *)
Definition oversold : Store :=
  snd (createOrder Scenario.clk0 7%N
         (Scenario.cart [Scenario.line 1%N 3] 21 true) (Scenario.shop 0)).

(** A store of 101 orders, all of user 7. *)
Definition archive : Store := {| products := ∅; orders := Scenario.crowded |}.

(** The shop with these 101 orders, and after a test order was added. *)
Definition busy : Store :=
  {| products := products (Scenario.shop 5); orders := Scenario.crowded |}.

Definition busyAfter : Store :=
  snd (createOrder Scenario.clk0 7%N
         (Scenario.cart [Scenario.line 1%N 3] 21 true) busy).

(** The shop after user 7 ordered 3 pens and user 8 ordered 1. *)
Definition twoUsers : Store :=
  snd (createOrder Scenario.clk1 8%N
         (Scenario.cart [Scenario.line 1%N 1] 7 false) Scenario.ordered).

(** A store that answers a query with a window of the orders, newest
    first, and rejects a negative skip. *)
Definition window (skip limit : Z) (os : list Order) : option (list Order) :=
  if skip <? 0 then None
  else Some (take (Z.to_nat (Z.abs limit)) (drop (Z.to_nat skip) (newestFirst os))).

End Catalogue.

(** * Proofs *)

(** ** The inventory loops *)

Section Inventory.

Implicit Types (ps : gmap N Product) (p : Product) (id : ProductId).

Lemma Product_save_Some id p ps ps' :
  Product_save id p ps = Some ps' ↔ 0 <= stock_quantity p ∧ ps' = <[id := p]> ps.
Proof.
  unfold Product_save. destruct (Z.ltb_spec (stock_quantity p) 0); split.
  - discriminate.
  - intros [? _]; lia.
  - intros [= <-]; split; [lia | reflexivity].
  - intros [_ ->]; reflexivity.
Qed.

Lemma Product_save_None id p ps :
  Product_save id p ps = None ↔ stock_quantity p < 0.
Proof.
  unfold Product_save. destruct (Z.ltb_spec (stock_quantity p) 0); split;
    try discriminate; try lia; reflexivity.
Qed.

Lemma sold_zero p : sold p 0 = p.
Proof.
  destruct p; unfold sold; simpl. f_equal; lia.
Qed.

Lemma sold_sold p q1 q2 : sold (sold p q1) q2 = sold p (q1 + q2).
Proof.
  destruct p; unfold sold; simpl. f_equal; lia.
Qed.

Lemma afterSale_zero p : afterSale 0 p = p.
Proof. unfold afterSale. destruct (stock_trackInventory p); auto using sold_zero. Qed.

Lemma afterRestore_zero p : afterRestore 0 0 p = p.
Proof.
  unfold afterRestore. destruct p as [? ? ? ? [] ? ? ?]; simpl; f_equal; lia.
Qed.

(** A completed stock loop has sold, of every product, the total
    quantity the items ask of it. *)
Lemma decrementStock_done its : ∀ ps ps',
  decrementStock its ps = (ps', true) →
  ∀ id, ps' !! id = afterSale (qtyFor id its) <$> ps !! id.
Proof.
  induction its as [|it rest IH]; intros ps ps' H id; simpl in *.
  - injection H as <-. destruct (ps !! id); simpl; [|done].
    by rewrite afterSale_zero.
  - destruct (product it) as [id0|] eqn:Hp.
    2: { rewrite bool_decide_eq_false_2 by done. by apply IH. }
    destruct (ps !! id0) as [p|] eqn:Hl.
    2: { rewrite (IH _ _ H id). case_bool_decide as Hd; [|done].
         injection Hd as ->. by rewrite Hl. }
    destruct (stock_trackInventory p) eqn:Ht.
    2: { rewrite (IH _ _ H id). case_bool_decide as Hd; [|done].
         injection Hd as ->. rewrite Hl. simpl. unfold afterSale. by rewrite Ht. }
    destruct (Product_save id0 (sold p (quantity it)) ps) as [ps1|] eqn:Hs; [|done].
    apply Product_save_Some in Hs as [_ ->].
    rewrite (IH _ _ H id). case_bool_decide as Hd.
    + injection Hd as ->. rewrite lookup_insert_eq, Hl. simpl.
      unfold afterSale. simpl. rewrite Ht. by rewrite sold_sold.
    + rewrite lookup_insert_ne; [done|congruence].
Qed.

(** Neither loop can make a tracked stock negative, whether it completes
    or stops at a rejected save. *)
Lemma decrementStock_nonnegAt id its : ∀ ps ps' b,
  decrementStock its ps = (ps', b) → nonnegAt id ps → nonnegAt id ps'.
Proof.
  induction its as [|it rest IH]; intros ps ps' b H Hinv; simpl in *.
  - by injection H as <- _.
  - destruct (product it) as [id0|]; [|by eapply IH].
    destruct (ps !! id0) as [p|] eqn:Hl; [|by eapply IH].
    destruct (stock_trackInventory p) eqn:Ht; [|by eapply IH].
    destruct (Product_save id0 (sold p (quantity it)) ps) as [ps1|] eqn:Hs.
    + apply Product_save_Some in Hs as [Hq ->]. eapply IH; [done|].
      intros p' Hl' Ht'. destruct (decide (id0 = id)) as [->|Hne].
      * rewrite lookup_insert_eq in Hl'. by injection Hl' as <-.
      * rewrite lookup_insert_ne in Hl' by done. by eapply Hinv.
    + by injection H as <- _.
Qed.

Lemma restoreStock_nonnegAt id its : ∀ ps ps' b,
  restoreStock its ps = (ps', b) → nonnegAt id ps → nonnegAt id ps'.
Proof.
  induction its as [|it rest IH]; intros ps ps' b H Hinv; simpl in *.
  - by injection H as <- _.
  - destruct (ps !! oi_product it) as [p|] eqn:Hl; [|by eapply IH].
    destruct (stock_trackInventory p) eqn:Ht; [|by eapply IH].
    destruct (Product_save (oi_product it) (restored p it) ps) as [ps1|] eqn:Hs.
    + apply Product_save_Some in Hs as [Hq ->]. eapply IH; [done|].
      intros p' Hl' Ht'. destruct (decide (oi_product it = id)) as [<-|Hne].
      * rewrite lookup_insert_eq in Hl'. by injection Hl' as <-.
      * rewrite lookup_insert_ne in Hl' by done. by eapply Hinv.
    + by injection H as <- _.
Qed.

Lemma stockNonneg_at ps : stockNonneg ps ↔ ∀ id, nonnegAt id ps.
Proof. unfold stockNonneg, nonnegAt. naive_solver. Qed.

(** After a completed stock loop, the products the items name have
    passed the [min: 0] validator. *)
Lemma decrementStock_touched its : ∀ ps ps',
  decrementStock its ps = (ps', true) →
  Forall (λ it, ∀ id, product it = Some id → nonnegAt id ps') its.
Proof.
  induction its as [|it rest IH]; intros ps ps' H; [constructor|].
  pose proof (decrementStock_done _ _ _ H) as Hdone.
  simpl in H. constructor.
  - intros id Hp p' Hl' Ht'. rewrite Hp in H.
    destruct (ps !! id) as [p|] eqn:Hl.
    2: { rewrite Hdone, Hl in Hl'. done. }
    destruct (stock_trackInventory p) eqn:Ht.
    2: { rewrite Hdone, Hl in Hl'. simpl in Hl'. injection Hl' as <-.
         unfold afterSale in Ht'. rewrite Ht in Ht'. congruence. }
    destruct (Product_save id (sold p (quantity it)) ps) as [ps1|] eqn:Hs; [|done].
    apply Product_save_Some in Hs as [Hq ->].
    eapply (decrementStock_nonnegAt id); [exact H| |exact Hl'|exact Ht'].
    intros p1 Hl1 _. rewrite lookup_insert_eq in Hl1. by injection Hl1 as <-.
  - destruct (product it) as [id0|]; [|by eapply IH].
    destruct (ps !! id0) as [p|]; [|by eapply IH].
    destruct (stock_trackInventory p); [|by eapply IH].
    destruct (Product_save id0 (sold p (quantity it)) ps) as [ps1|]; [|done].
    by eapply IH.
Qed.

Lemma afterRestore_restored p it q r :
  stock_trackInventory p = true →
  afterRestore q r (restored p it)
  = afterRestore (oi_quantity it + q) (oi_price it * oi_quantity it + r) p.
Proof.
  intros Ht. unfold afterRestore, restored. simpl. rewrite Ht. f_equal; lia.
Qed.

(** A completed restore loop has given back, to every product, the
    totals recorded on the order's items. *)
Lemma restoreStock_done its : ∀ ps ps',
  restoreStock its ps = (ps', true) →
  ∀ id, ps' !! id = afterRestore (qtyOf id its) (revenueOf id its) <$> ps !! id.
Proof.
  induction its as [|it rest IH]; intros ps ps' H id; simpl in *.
  - injection H as <-. destruct (ps !! id); simpl; [|done].
    by rewrite afterRestore_zero.
  - destruct (ps !! oi_product it) as [p|] eqn:Hl.
    2: { rewrite (IH _ _ H id). case_bool_decide as Hd; [|done].
         subst id. by rewrite Hl. }
    destruct (stock_trackInventory p) eqn:Ht.
    2: { rewrite (IH _ _ H id). case_bool_decide as Hd; [|done].
         subst id. rewrite Hl. simpl. unfold afterRestore. by rewrite Ht. }
    destruct (Product_save _ (restored p it) ps) as [ps1|] eqn:Hs; [|done].
    apply Product_save_Some in Hs as [_ ->].
    rewrite (IH _ _ H id). case_bool_decide as Hd.
    + subst id. rewrite lookup_insert_eq, Hl. simpl.
      by rewrite afterRestore_restored.
    + by rewrite lookup_insert_ne.
Qed.

(** The restore loop completes when it only adds to stocks that are not
    negative. *)
Lemma restoreStock_completes its : ∀ ps,
  Forall (λ oi, 0 <= oi_quantity oi ∧ nonnegAt (oi_product oi) ps) its →
  ∃ ps', restoreStock its ps = (ps', true).
Proof.
  induction its as [|it rest IH]; intros ps Hall; simpl; [by eexists|].
  apply Forall_cons in Hall as [[Hq Hn] Hrest].
  destruct (ps !! oi_product it) as [p|] eqn:Hl; [|by apply IH].
  destruct (stock_trackInventory p) eqn:Ht; [|by apply IH].
  specialize (Hn p Hl Ht).
  destruct (Product_save _ (restored p it) ps) as [ps1|] eqn:Hs.
  - apply Product_save_Some in Hs as [_ ->]. apply IH.
    eapply Forall_impl; [exact Hrest|]. intros oi [Hq' Hn']. split; [done|].
    intros p' Hl' Ht'. destruct (decide (oi_product it = oi_product oi)) as [He|Hne].
    + rewrite He, lookup_insert_eq in Hl'. injection Hl' as <-. simpl. lia.
    + rewrite lookup_insert_ne in Hl' by done. by eapply Hn'.
  - apply Product_save_None in Hs. simpl in Hs. lia.
Qed.

End Inventory.

(** ** The validation loop *)

Section Validation.

Implicit Types (ps : gmap N Product) (its : list ItemReq).

(** A completed validation loop extends [orderItems] by one snapshot per
    request item, in order. *)
Lemma validateItems_inr t ps its : ∀ st acc st' ois,
  validateItems t ps its st acc = inr (st', ois) →
  ∃ new, ois = acc ++ new ∧ Forall2 (snapshotOf ps) its new
         ∧ st' = st + itemsTotal new.
Proof.
  induction its as [|it rest IH]; intros st acc st' ois H; simpl in H.
  - injection H as <- <-. exists []. rewrite app_nil_r. simpl.
    split; [done|]. split; [constructor|lia].
  - destruct (product it) as [id|] eqn:Hp; [|done].
    destruct (ps !! id) as [p|] eqn:Hl; [|done].
    destruct (p_isActive p) eqn:Ha; simpl in H; [|done].
    destruct (negb t && stock_trackInventory p && (stock_quantity p <? quantity it));
      [done|].
    apply IH in H as (new & -> & Hnew & ->).
    exists (snapshot id p it :: new). split; [|split].
    + by rewrite <- app_assoc.
    + constructor; [|done]. by exists id, p.
    + simpl. lia.
Qed.

(** The loop stops at the first item that fails a rule. *)
Lemma validateItems_inl t ps its : ∀ st acc,
  Exists (itemFails t ps) its →
  ∃ e, validateItems t ps its st acc = inl e ∧ isRejection e.
Proof.
  induction its as [|it rest IH]; intros st acc Hex; [by inversion Hex|].
  simpl. unfold itemFails in Hex.
  destruct (product it) as [id|] eqn:Hp; [|by eexists].
  destruct (ps !! id) as [p|] eqn:Hl; [|by eexists].
  destruct (p_isActive p) eqn:Ha; simpl; [|by eexists].
  destruct (negb t && stock_trackInventory p && (stock_quantity p <? quantity it))
    eqn:Hs; [by eexists|].
  apply IH. apply Exists_cons in Hex as [Hhd|Htl]; [|done].
  rewrite Hp, Hl in Hhd. destruct Hhd as [Hhd|(-> & Ht & Hq)]; [congruence|].
  rewrite Ht in Hs. simpl in Hs. apply Z.ltb_ge in Hs. lia.
Qed.

(** Whatever stops the loop is a rejection. *)
Lemma validateItems_rejects t ps its : ∀ st acc e,
  validateItems t ps its st acc = inl e → isRejection e.
Proof.
  induction its as [|it rest IH]; intros st acc e H; simpl in H; [done|].
  destruct (product it) as [id|]; [|by injection H as <-].
  destruct (ps !! id) as [p|]; [|by injection H as <-].
  destruct (negb (p_isActive p)); [by injection H as <-|].
  destruct (negb t && stock_trackInventory p && (stock_quantity p <? quantity it));
    [by injection H as <-|].
  by eapply IH.
Qed.

(** A test order is never refused for lack of stock. *)
Lemma validateItems_test ps its : ∀ st acc name,
  validateItems true ps its st acc ≠ inl (InsufficientStock name).
Proof.
  induction its as [|it rest IH]; intros st acc name; simpl; [done|].
  destruct (product it) as [id|]; [|done].
  destruct (ps !! id) as [p|]; [|done].
  destruct (negb (p_isActive p)); [done|]. simpl. apply IH.
Qed.

Lemma snapshots_qty ps its ois id :
  Forall2 (snapshotOf ps) its ois → qtyOf id ois = qtyFor id its.
Proof.
  induction 1 as [|it oi its ois (id0 & p & Hp & Hl & _ & ->) _ IH]; simpl; [done|].
  rewrite Hp, IH. repeat case_bool_decide; congruence.
Qed.

Lemma snapshots_revenue ps its ois id p :
  Forall2 (snapshotOf ps) its ois → ps !! id = Some p →
  revenueOf id ois = p_price p * qtyFor id its.
Proof.
  intros Hall Hl.
  induction Hall as [|it oi its ois (id0 & p0 & Hp & Hl0 & _ & ->) _ IH]; simpl; [lia|].
  rewrite Hp, IH. simpl. repeat case_bool_decide; try congruence; try lia.
  all: assert (id0 = id) as -> by congruence.
  all: assert (p0 = p) as -> by congruence.
  all: lia.
Qed.

Lemma snapshots_quantities ps its ois :
  Forall2 (snapshotOf ps) its ois → oi_quantity <$> ois = quantity <$> its.
Proof.
  induction 1 as [|it oi its ois (id0 & p & _ & _ & _ & ->) _ IH]; [done|].
  rewrite !fmap_cons, IH. done.
Qed.

Lemma snapshots_products ps its ois :
  Forall2 (snapshotOf ps) its ois → Some <$> (oi_product <$> ois) = product <$> its.
Proof.
  induction 1 as [|it oi its ois (id0 & p & Hp & _ & _ & ->) _ IH]; [done|].
  rewrite !fmap_cons, IH, Hp. done.
Qed.

End Validation.

(** ** The order-number hook *)

Section Generator.

Variables (q : OrderQueries) (clk : Clock) (t : bool).

Lemma numbered_hasPrefix n : hasPrefix t (numbered clk t n).
Proof. by eexists. Qed.

Lemma probe_hasPrefix count fuel : ∀ counter n r,
  hasPrefix t n → probe q clk t count fuel counter n = Done r → hasPrefix t r.
Proof.
  induction fuel as [|fuel IH]; intros counter n r Hn H; simpl in H; [done|].
  destruct (findOne q n) as [[]|]; [|by injection H as <-|done].
  destruct (100 <? counter + 1)%nat.
  - injection H as <-. by eexists.
  - eapply IH; [|exact H]. apply numbered_hasPrefix.
Qed.

Lemma generateOrderNumber_hasPrefix : hasPrefix t (generateOrderNumber q clk t).
Proof.
  unfold generateOrderNumber, tryGenerate.
  destruct (countDocuments q) as [count|]; [|by eexists].
  destruct (probe _ _ _ _ _ _ _) eqn:H; [|by eexists..].
  eapply probe_hasPrefix; [|exact H]. apply numbered_hasPrefix.
Qed.

Lemma hasPrefix_not_blank n : hasPrefix t n → JS.blank (Some n) = false.
Proof. intros [rest ->]. by destruct t. Qed.

(** The loop is left within the fuel it is given. *)
Lemma probe_fuel count fuel : ∀ counter n,
  (counter <= 100)%nat → (101 <= fuel + counter)%nat →
  probe q clk t count fuel counter n ≠ OutOfFuel.
Proof.
  induction fuel as [|fuel IH]; intros counter n Hc Hf; simpl; [lia|].
  destruct (findOne q n) as [[]|]; [|done..].
  destruct (Nat.ltb_spec 100 (counter + 1)); [done|]. apply IH; lia.
Qed.

Lemma tryGenerate_fuel : tryGenerate q clk t ≠ OutOfFuel.
Proof.
  unfold tryGenerate. destruct (countDocuments q); [|done].
  apply probe_fuel; lia.
Qed.

Section Answers.

Variables (count : nat) (taken : string → bool).
Hypothesis Hfind : ∀ n, findOne q n = Some (taken n).

(** The loop returns the first candidate that is not taken ... *)
Lemma probe_free : ∀ n fuel c,
  (n < fuel)%nat → (c + n <= 100)%nat →
  (∀ j, (c <= j < c + n)%nat → taken (numbered clk t (count + j)) = true) →
  taken (numbered clk t (count + (c + n))) = false →
  probe q clk t count fuel c (numbered clk t (count + c))
  = Done (numbered clk t (count + (c + n))).
Proof.
  induction n as [|n IH]; intros fuel c Hf Hc Htaken Hfree;
    (destruct fuel as [|fuel]; [lia|]); simpl; rewrite Hfind.
  - rewrite Nat.add_0_r in Hfree |- *. by rewrite Hfree.
  - rewrite Htaken by lia.
    destruct (Nat.ltb_spec 100 (c + 1)); [lia|].
    replace (count + 1 + c)%nat with (count + (c + 1))%nat by lia.
    replace (c + S n)%nat with (c + 1 + n)%nat by lia.
    apply IH; [lia..| |].
    + intros j Hj. apply Htaken. lia.
    + by replace (c + 1 + n)%nat with (c + S n)%nat by lia.
Qed.

(** ... and the clock value once [counter] passes 100. *)
Lemma probe_exhausted : ∀ n fuel c,
  (S n <= fuel)%nat → (c + S n = 101)%nat →
  (∀ j, (c <= j <= 100)%nat → taken (numbered clk t (count + j)) = true) →
  probe q clk t count fuel c (numbered clk t (count + c))
  = Done (limitFallback clk t).
Proof.
  induction n as [|n IH]; intros fuel c Hf Hc Htaken;
    (destruct fuel as [|fuel]; [lia|]); simpl; rewrite Hfind, Htaken by lia.
  - destruct (Nat.ltb_spec 100 (c + 1)); [done|lia].
  - destruct (Nat.ltb_spec 100 (c + 1)); [lia|].
    replace (count + 1 + c)%nat with (count + (c + 1))%nat by lia.
    apply IH; [lia..|]. intros j Hj. apply Htaken. lia.
Qed.

End Answers.

End Generator.

(** ** The create route *)

Section Create.

Lemma Order_preSave_fields q clk doc :
  let doc' := Order_preSave q clk doc in
  o_items doc' = o_items doc ∧ o_status doc' = o_status doc
  ∧ o_payment doc' = o_payment doc ∧ o_pricing doc' = o_pricing doc
  ∧ cancelledAt doc' = cancelledAt doc ∧ o_shipping doc' = o_shipping doc
  ∧ o_isTest doc' = o_isTest doc.
Proof. unfold Order_preSave. by destruct (JS.blank (orderNumber doc)). Qed.

Lemma Order_preSave_not_blank q clk doc :
  JS.blank (orderNumber (Order_preSave q clk doc)) = false.
Proof.
  unfold Order_preSave. destruct (JS.blank (orderNumber doc)) eqn:Hb; [|done].
  simpl orderNumber. apply (hasPrefix_not_blank (o_isTest doc)).
  apply generateOrderNumber_hasPrefix.
Qed.

Lemma Order_preSave_numbered q clk doc :
  JS.blank (orderNumber doc) = false → Order_preSave q clk doc = doc.
Proof. unfold Order_preSave. by intros ->. Qed.

Lemma Order_create_Some clk doc os o os' :
  Order_create clk doc os = Some (o, os') →
  Order_validate doc = true
  ∧ o = Order_preSave (queriesOf os None) clk doc ∧ os' = os ++ [o].
Proof.
  unfold Order_create. destruct (Order_validate doc); [|done].
  destruct (indexConflict _ _ _ _); [done|]. by intros [= <- <-].
Qed.

(** The three ways the route can end: a 400 or early 500 with the store
    untouched, or a stored order followed by the stock loop, which
    decides between 201 and 500. *)
Lemma createOrder_cases clk user req s r s' :
  createOrder clk user req s = (r, s') →
  ((isRejection r ∨ r = ServerError) ∧ s' = s)
  ∨ ∃ st ois o b,
      validateItems (isTest req) (products s) (items req) 0 [] = inr (st, ois)
      ∧ Order_create clk
          (newOrder user req ois (finalPricing (default noPricing (pricing req)) st))
          (orders s) = Some (o, orders s')
      ∧ decrementStock (items req) (products s) = (products s', b)
      ∧ r = if b then Created o else ServerError.
Proof.
  unfold createOrder.
  destruct (negb (checkCreateBody req));
    [intros [= <- <-]; left; split; [left; exact I|done]|].
  destruct (_ && negb (includes _ _));
    [intros [= <- <-]; left; split; [left; exact I|done]|].
  destruct (_ && negb (JS.truthy _));
    [intros [= <- <-]; left; split; [left; exact I|done]|].
  destruct (validateItems _ _ _ _ _) as [e|[st ois]] eqn:Hv.
  { intros [= <- <-]. left. split; [|done]. left. by eapply validateItems_rejects. }
  destruct (Order_create _ _ _) as [[o os]|] eqn:Hc;
    [|intros [= <- <-]; left; split; [by right|done]].
  destruct (decrementStock _ _) as [ps b] eqn:Hd.
  intros H. right. exists st, ois, o, b.
  destruct b; injection H as <- <-; done.
Qed.

Lemma createOrder_Created clk user req s o s' :
  createOrder clk user req s = (Created o, s') →
  ∃ st ois,
    validateItems (isTest req) (products s) (items req) 0 [] = inr (st, ois)
    ∧ Order_create clk
        (newOrder user req ois (finalPricing (default noPricing (pricing req)) st))
        (orders s) = Some (o, orders s')
    ∧ decrementStock (items req) (products s) = (products s', true).
Proof.
  intros H. apply createOrder_cases in H as [[[Hr|Hr] _]|(st & ois & o' & b & Hv & Hc & Hd & Hr)];
    [done..|].
  destruct b; [|done]. injection Hr as ->. by exists st, ois.
Qed.

(** The quantities of a stored order are those of the request. *)
Lemma created_quantities clk user req ps os ois fp o os' :
  Forall2 (snapshotOf ps) (items req) ois →
  Order_create clk (newOrder user req ois fp) os = Some (o, os') →
  o_items o = ois ∧ Forall (λ it, 1 <= quantity it) (items req)
  ∧ Forall (λ oi, 1 <= oi_quantity oi) ois.
Proof.
  intros Hsnap Hc. apply Order_create_Some in Hc as (Hval & -> & _).
  split; [apply Order_preSave_fields|].
  unfold Order_validate in Hval. simpl in Hval.
  rewrite forallb_forall in Hval.
  assert (Forall (λ oi, 1 <= oi_quantity oi) ois) as Hq.
  { apply Forall_forall. intros oi Hin. apply Z.leb_le, Hval.
    by apply list_elem_of_In. }
  split; [|done].
  apply (Forall_fmap quantity (λ q, 1 <= q)).
  rewrite <- (snapshots_quantities _ _ _ Hsnap). by apply Forall_fmap.
Qed.

Lemma qtyFor_nonneg id its :
  Forall (λ it, 1 <= quantity it) its → 0 <= qtyFor id its.
Proof.
  induction 1 as [|it its Hq _ IH]; simpl; [done|]. case_bool_decide; lia.
Qed.

Lemma qtyFor_pos id its it :
  Forall (λ it, 1 <= quantity it) its → it ∈ its → product it = Some id →
  0 < qtyFor id its.
Proof.
  induction 1 as [|it' its Hq Hall IH]; intros Hin Hp; [by inversion Hin|].
  pose proof (qtyFor_nonneg id its Hall). simpl.
  apply elem_of_cons in Hin as [->|Hin].
  - rewrite bool_decide_eq_true_2 by done. lia.
  - specialize (IH Hin Hp). case_bool_decide; lia.
Qed.

End Create.

(** C1. The route misses the all-or-nothing the claim states where two
    lines name one product. The stock check of line 150 compares each line
    with the whole stock, so two lines of 3 pens pass it against a stock
    of 5 although 6 are asked for. The order is then stored, the first
    line takes 3 pens, the save of the second is refused by [min: 0]
    ([2 - 3 < 0]) and the answer is 500: a request with insufficient stock
    has left an order behind and has changed the three counters. *)
Theorem createOrder_leaves_partial_state :
  let req := Scenario.cart [Scenario.line 1%N 3; Scenario.line 1%N 3] 42 false in
  stock_quantity (Scenario.pen 5) < qtyFor 1%N (items req)
  ∧ ∃ o s',
      createOrder Scenario.clk0 7%N req (Scenario.shop 5) = (ServerError, s')
      ∧ orders (Scenario.shop 5) = [] ∧ orders s' = [o]
      ∧ o_user o = 7%N ∧ oi_quantity <$> o_items o = [3; 3]
      ∧ stock_quantity <$> products (Scenario.shop 5) !! 1%N = Some 5
      ∧ stock_quantity <$> products s' !! 1%N = Some 2
      ∧ sales_count <$> products s' !! 1%N = Some 3
      ∧ sales_revenue <$> products s' !! 1%N = Some 21.
Proof.
  cbv zeta. split; [reflexivity|]. eexists _, _. split; [reflexivity|].
  repeat split; reflexivity.
Qed.

(** C9. An order answered 201 is in the store with status [pending] and
    payment status [pending], whatever payment status the request
    carried. *)
Theorem created_order_is_pending clk user req s o s' :
  createOrder clk user req s = (Created o, s') →
  orders s' !! length (orders s) = Some o
  ∧ o_status o = pending
  ∧ pay_status (o_payment o) = pay_pending.
Proof.
  intros H. apply createOrder_Created in H as (st & ois & _ & Hc & _).
  apply Order_create_Some in Hc as (_ & -> & ->).
  split.
  - rewrite lookup_app_r by done. by rewrite Nat.sub_diag.
  - destruct (Order_preSave_fields (queriesOf (orders s) None) clk
                (newOrder user req ois
                   (finalPricing (default noPricing (pricing req)) st)))
      as (_ & -> & -> & _). done.
Qed.

(** ** The status route *)

Section Update.

Lemma includes_In l s : includes l s = true ↔ In s l.
Proof.
  unfold includes. rewrite existsb_exists. split.
  - intros (x & Hin & He). apply String.eqb_eq in He. by subst.
  - intros Hin. exists s. split; [done|]. apply String.eqb_refl.
Qed.

Lemma stampShipping_fields clk st o :
  let o' := stampShipping clk st o in
  o_status o' = o_status o ∧ cancelledAt o' = cancelledAt o
  ∧ o_items o' = o_items o ∧ orderNumber o' = orderNumber o.
Proof.
  unfold stampShipping.
  destruct (_ && negb (JS.defined (shippedAt _)));
    destruct (_ && negb (JS.defined (deliveredAt _))); done.
Qed.

Lemma applyTracking_fields req parsed o o' b :
  applyTracking req parsed o = (o', b) →
  o_status o' = o_status o ∧ cancelledAt o' = cancelledAt o
  ∧ o_items o' = o_items o ∧ orderNumber o' = orderNumber o.
Proof.
  unfold applyTracking.
  destruct (JS.truthy (rq_trackingNumber req));
    destruct (JS.truthy (rq_estimatedDelivery req)); [destruct parsed| |destruct parsed|];
    by intros [= <- <-].
Qed.

Lemma applyTracking_casts req parsed o :
  dateCasts req parsed → ∃ o', applyTracking req parsed o = (o', true).
Proof.
  unfold applyTracking. intros [->|Hp]; [by eexists|].
  destruct (JS.truthy (rq_estimatedDelivery req)); [|by eexists].
  destruct parsed; [by eexists|done].
Qed.

Lemma Order_save_Some clk idx doc os saved os' :
  Order_save clk idx doc os = Some (saved, os') →
  saved = Order_preSave (queriesOf os (Some idx)) clk doc ∧ os' = <[idx := saved]> os.
Proof.
  unfold Order_save. destruct (_ && _); [done|]. by intros [= <- <-].
Qed.

Lemma Order_save_numbered clk idx doc os :
  JS.blank (orderNumber doc) = false →
  Order_save clk idx doc os = Some (doc, <[idx := doc]> os).
Proof.
  intros Hb. unfold Order_save. rewrite Hb. simpl.
  by rewrite Order_preSave_numbered.
Qed.

(** The ways the route can end. *)
Lemma updateStatus_cases clk id req parsed s r s' :
  updateStatus clk id req parsed s = (r, s') →
  (checkStatusBody req = false ∧ r = InvalidStatus ∧ s' = s)
  ∨ (orders s !! id = None ∧ r = OrderNotFound ∧ s' = s)
  ∨ ∃ order b,
      checkStatusBody req = true ∧ orders s !! id = Some order
      ∧ (if restores req order
         then restoreStock (o_items order) (products s) = (products s', b)
         else products s' = products s ∧ b = true)
      ∧ ((r = UpdateServerError ∧ orders s' = orders s)
         ∨ ∃ saved, r = Updated saved ∧ b = true
             ∧ orders s' = <[id := saved]> (orders s)
             ∧ o_status saved = requestedStatus req
             ∧ o_items saved = o_items order
             ∧ cancelledAt saved
               = if restores req order then Some (now clk) else cancelledAt order).
Proof.
  unfold updateStatus.
  destruct (checkStatusBody req) eqn:Hb; simpl; [|intros [= <- <-]; by left].
  destruct (orders s !! id) as [order|] eqn:Hl; [|intros [= <- <-]; right; by left].
  fold (requestedStatus req). set (st := requestedStatus req).
  destruct (stampShipping_fields clk st (with_status st order)) as (Hst & Hca & Hit & _).
  simpl in Hst, Hca, Hit. rewrite Hca, Hit.
  intros H. right. right. exists order.
  unfold restores. fold st.
  destruct (bool_decide (st = cancelled) && negb (JS.defined (cancelledAt order))) eqn:Hc.
  - destruct (restoreStock _ _) as [ps b] eqn:Hr. exists b.
    split; [done|]. split; [done|].
    destruct b; simpl in H; [|injection H as <- <-; split; [done|by left]].
    destruct (applyTracking _ _ _) as [o' castOk] eqn:Ha.
    apply applyTracking_fields in Ha as (Hst' & Hca' & Hit' & _). simpl in *.
    destruct castOk; simpl in H; [|injection H as <- <-; split; [done|by left]].
    destruct (Order_save _ _ _ _) as [[saved os]|] eqn:Hs;
      [|injection H as <- <-; split; [done|by left]].
    injection H as <- <-. split; [done|]. right. exists saved.
    apply Order_save_Some in Hs as (-> & ->).
    destruct (Order_preSave_fields (queriesOf (orders s) (Some id)) clk o')
      as (-> & -> & _ & _ & -> & _).
    rewrite Hst', Hca', Hit', Hst, Hit. done.
  - exists true. split; [done|]. split; [done|].
    destruct (applyTracking _ _ _) as [o' castOk] eqn:Ha.
    apply applyTracking_fields in Ha as (Hst' & Hca' & Hit' & _). simpl in *.
    destruct castOk; simpl in H; [|injection H as <- <-; split; [done|by left]].
    destruct (Order_save _ _ _ _) as [[saved os]|] eqn:Hs;
      [|injection H as <- <-; split; [done|by left]].
    injection H as <- <-. split; [done|]. right. exists saved.
    apply Order_save_Some in Hs as (-> & ->).
    destruct (Order_preSave_fields (queriesOf (orders s) (Some id)) clk o')
      as (-> & -> & _ & _ & -> & _).
    rewrite Hst', Hca', Hit', Hst, Hit, Hca. done.
Qed.

End Update.

(** ** Pricing *)

(** C6, as the route computes it. [shipping], [tax] and [discount] are 0
    when absent; when [total] is absent it is the subtotal computed from
    the items (also when the caller overrides [subtotal]) plus shipping
    plus tax minus discount; a supplied total other than 0 is recorded as
    it is. *)
Theorem finalPricing_defaults (pr : PricingReq) (computed : Z) :
  let fp := finalPricing pr computed in
  (rq_shipping pr = None → shipping fp = 0)
  ∧ (rq_tax pr = None → tax fp = 0)
  ∧ (rq_discount pr = None → discount fp = 0)
  ∧ (rq_total pr = None → total fp = computed + shipping fp + tax fp - discount fp)
  ∧ (∀ t, rq_total pr = Some t → t ≠ 0 → total fp = t).
Proof.
  simpl. repeat split.
  - by intros ->.
  - by intros ->.
  - by intros ->.
  - by intros ->.
  - intros t -> Ht. simpl. by destruct (Z.eqb_spec t 0).
Qed.

(** C6 as stated fails: a supplied total of 0 passes the body validator
    and is replaced by the computed total. *)
Lemma supplied_total_not_trusted :
  let req := Scenario.cart [Scenario.line 1%N 3] 0 false in
  (pricing req ≫= rq_total) = Some 0
  ∧ ∃ o s', createOrder Scenario.clk0 7%N req (Scenario.shop 5) = (Created o, s')
            ∧ total (o_pricing o) = 21.
Proof. split; [reflexivity|]. eexists _, _. split; reflexivity. Qed.

Lemma num_or_zeroAsAbsent x d : JS.num_or (zeroAsAbsent x) d = JS.num_or x d.
Proof. destruct x as [[| |]|]; reflexivity. Qed.

(** C10. A pricing component supplied as 0 is read as absent: the
    recorded pricing is the one computed from the request with its zeros
    dropped, so a subtotal of 0 becomes the computed subtotal and a total
    of 0 becomes computed subtotal + shipping + tax - discount (a
    shipping, tax or discount of 0 becomes the default, 0); and this is
    the pricing stored with a created order. *)
Theorem zero_component_is_absent clk user req s :
  (∀ pr computed,
     let fp := finalPricing pr computed in
     fp = finalPricing (dropZeros pr) computed
     ∧ (rq_subtotal pr = Some 0 → subtotal fp = computed)
     ∧ (rq_shipping pr = Some 0 → shipping fp = 0)
     ∧ (rq_tax pr = Some 0 → tax fp = 0)
     ∧ (rq_discount pr = Some 0 → discount fp = 0)
     ∧ (rq_total pr = Some 0 →
          total fp = computed + shipping fp + tax fp - discount fp))
  ∧ (∀ o s', createOrder clk user req s = (Created o, s') →
       ∃ pr, pricing req = Some pr
             ∧ o_pricing o = finalPricing pr (itemsTotal (o_items o))).
Proof.
  split.
  - intros pr computed. simpl. split.
    + unfold finalPricing, dropZeros. simpl. by rewrite !num_or_zeroAsAbsent.
    + repeat split; by intros ->.
  - intros o s' H.
    assert (checkCreateBody req = true) as Hb.
    { unfold createOrder in H. by destruct (checkCreateBody req). }
    apply createOrder_Created in H as (st & ois & Hv & Hc & _).
    apply validateItems_inr in Hv as (new & -> & Hsnap & ->). simpl in *.
    apply Order_create_Some in Hc as (_ & -> & _).
    unfold checkCreateBody in Hb. destruct (pricing req) as [pr|].
    2: { simpl in Hb. by rewrite andb_false_r in Hb. }
    exists pr. split; [done|].
    match goal with
    | |- context [Order_preSave ?q ?c ?d] =>
        destruct (Order_preSave_fields q c d) as (-> & _ & _ & -> & _)
    end.
    done.
Qed.

(** ** Status updates *)

(** C8. A request whose status is none of the six known values (or is
    missing) is answered with the validator's 400 and the store, hence
    every field of every order, is left as it was. *)
Theorem unknown_status_rejected clk id req parsed s :
  (∀ st, rq_newStatus req = Some st → ¬ In st validStatuses) →
  updateStatus clk id req parsed s = (InvalidStatus, s).
Proof.
  intros Hst. unfold updateStatus.
  assert (checkStatusBody req = false) as ->; [|done].
  unfold checkStatusBody. destruct (rq_newStatus req) as [st|]; [|done].
  change (includes validStatuses st = false).
  apply not_true_is_false. intros Hin%includes_In. by eapply Hst.
Qed.

Lemma updateStatus_accepts clk id req parsed s order :
  orders s !! id = Some order → checkStatusBody req = true →
  dateCasts req parsed → JS.blank (orderNumber order) = false →
  (restores req order = true →
     ∃ ps, restoreStock (o_items order) (products s) = (ps, true)) →
  ∃ saved s', updateStatus clk id req parsed s = (Updated saved, s').
Proof.
  intros Hl Hb Hd Hn Hr. unfold updateStatus. rewrite Hb, Hl. simpl.
  fold (requestedStatus req). set (st := requestedStatus req).
  destruct (stampShipping_fields clk st (with_status st order)) as (_ & Hca & Hit & Hnum).
  simpl in Hca, Hit, Hnum. rewrite Hca, Hit.
  unfold restores in Hr. fold st in Hr.
  destruct (bool_decide (st = cancelled) && negb (JS.defined (cancelledAt order))).
  - destruct Hr as [ps ->]; [done|]. simpl.
    destruct (applyTracking_casts req parsed
                (with_cancelledAt (Some (now clk))
                   (stampShipping clk st (with_status st order))) Hd) as [o' Ha].
    rewrite Ha. simpl.
    apply applyTracking_fields in Ha as (_ & _ & _ & Hn').
    rewrite Order_save_numbered; [by eexists _, _|].
    simpl in Hn'. by rewrite Hn', Hnum.
  - simpl.
    destruct (applyTracking_casts req parsed
                (stampShipping clk st (with_status st order)) Hd) as [o' Ha].
    rewrite Ha. simpl.
    apply applyTracking_fields in Ha as (_ & _ & _ & Hn').
    rewrite Order_save_numbered; [by eexists _, _|].
    by rewrite Hn', Hnum.
Qed.

(** C5, as the route behaves. The route checks no transition: for a
    stored order in any status, [delivered] and [cancelled] included, an
    accepted update stores the requested status, and an update to any of
    the six values is accepted whenever it does not have to run the
    restore loop (and its optional date casts). *)
Theorem status_is_overwritten clk id req parsed s order :
  orders s !! id = Some order →
  In (default EmptyString (rq_newStatus req)) validStatuses →
  statusOf <$> validStatuses
  = [pending; confirmed; processing; shipped; delivered; cancelled]
  ∧ (∀ saved s', updateStatus clk id req parsed s = (Updated saved, s') →
       orders s' !! id = Some saved ∧ o_status saved = requestedStatus req)
  ∧ (dateCasts req parsed → JS.blank (orderNumber order) = false →
     restores req order = false →
     ∃ saved s', updateStatus clk id req parsed s = (Updated saved, s')).
Proof.
  intros Hl Hin. apply includes_In in Hin. split; [reflexivity|]. split.
  - intros saved s' H.
    apply updateStatus_cases in H
      as [(_ & ? & _)|[(_ & ? & _)|(o & b & _ & Hl' & _ & [[? _]|Hs])]]; [done..|].
    destruct Hs as (saved' & [= <-] & _ & -> & Hst & _). split; [|done].
    apply list_lookup_insert_eq. by eapply lookup_lt_Some.
  - intros Hd Hn Hr. eapply updateStatus_accepts; [done..|]. by rewrite Hr.
Qed.

(** C5 as stated fails: an order taken to [delivered] is put back to
    [pending] by the next request. *)
Lemma delivered_back_to_pending :
  ∃ o s1 o2 s2 o3 s3,
    createOrder Scenario.clk0 7%N (Scenario.cart [Scenario.line 1%N 3] 21 false)
      (Scenario.shop 5) = (Created o, s1)
    ∧ updateStatus Scenario.clk1 0 (Scenario.setTo "delivered") InvalidDate s1
      = (Updated o2, s2)
    ∧ o_status o2 = delivered
    ∧ updateStatus Scenario.clk1 0 (Scenario.setTo "pending") InvalidDate s2
      = (Updated o3, s3)
    ∧ o_status <$> orders s3 !! 0%nat = Some pending.
Proof. eexists _, _, _, _, _, _. repeat split; reflexivity. Qed.

(** ** The stock invariant *)

Lemma step_stockNonneg s s' :
  step s s' → stockNonneg (products s) → stockNonneg (products s').
Proof.
  intros [clk user req r H|clk id req parsed r H] Hinv.
  - apply createOrder_cases in H as [[_ ->]|(st & ois & o & b & _ & _ & Hd & _)];
      [done|].
    apply stockNonneg_at. intros id.
    eapply decrementStock_nonnegAt; [exact Hd|]. by apply stockNonneg_at.
  - apply updateStatus_cases in H
      as [(_ & _ & ->)|[(_ & _ & ->)|(o & b & _ & _ & Hr & _)]]; [done..|].
    destruct (restores req o).
    + apply stockNonneg_at. intros pid.
      eapply restoreStock_nonnegAt; [exact Hr|]. by apply stockNonneg_at.
    + destruct Hr as [-> _]. done.
Qed.

(** C2. From a store in which no tracked product has a negative stock,
    every store reached by serving order creations and status updates
    (cancellations among them), accepted or not, has the same
    property. *)
Theorem stock_never_negative s0 s :
  stockNonneg (products s0) → rtc step s0 s → stockNonneg (products s).
Proof.
  intros H0 Hreach. induction Hreach as [|s1 s2 s3 Hstep _ IH]; [done|].
  apply IH. by eapply step_stockNonneg.
Qed.

(** ** Cancellation *)

Lemma sale_then_restore p q :
  afterRestore q (p_price p * q) (afterSale q p) = p.
Proof.
  unfold afterRestore, afterSale.
  destruct p as [? ? ? ? [] ? ? ?]; simpl; f_equal; lia.
Qed.

Lemma snapshots_named ps its ois (P : ProductId → Prop) :
  Forall2 (snapshotOf ps) its ois →
  Forall (λ it, ∀ id, product it = Some id → P id) its →
  Forall (λ oi, P (oi_product oi)) ois.
Proof.
  induction 1 as [|it oi its ois (id0 & p & Hp & _ & _ & ->) _ IH];
    intros Hall; [constructor|].
  apply Forall_cons in Hall as [Hhd Htl]. constructor; [|by apply IH].
  simpl. by apply Hhd.
Qed.

(** Selling the items of a request and then giving back the items of the
    order made from it leaves every product as it was. *)
Lemma decrement_then_restore ps its ois ps1 :
  Forall2 (snapshotOf ps) its ois →
  Forall (λ oi, 1 <= oi_quantity oi) ois →
  decrementStock its ps = (ps1, true) →
  restoreStock ois ps1 = (ps, true).
Proof.
  intros Hsnap Hq Hd.
  destruct (restoreStock_completes ois ps1) as [ps2 Hr].
  { pose proof (snapshots_named _ _ _ (λ id, nonnegAt id ps1) Hsnap
                  (decrementStock_touched _ _ _ Hd)) as Hn.
    apply Forall_forall. intros oi Hin.
    rewrite Forall_forall in Hq, Hn. specialize (Hq oi Hin). split; [lia|].
    by apply Hn. }
  rewrite Hr. f_equal. apply map_eq. intros id.
  rewrite (restoreStock_done _ _ _ Hr id), (decrementStock_done _ _ _ Hd id).
  rewrite (snapshots_qty _ _ _ id Hsnap).
  destruct (ps !! id) as [p|] eqn:Hl; [|done]. simpl.
  rewrite (snapshots_revenue _ _ _ id p Hsnap Hl).
  by rewrite sale_then_restore.
Qed.

Lemma cancelled_again clk id req parsed s order r s' :
  orders s !! id = Some order → cancelledAt order ≠ None →
  updateStatus clk id req parsed s = (r, s') →
  products s' = products s
  ∧ cancelledAt <$> orders s' !! id = Some (cancelledAt order).
Proof.
  intros Hl Hc H.
  apply updateStatus_cases in H
    as [(_ & _ & ->)|[(_ & _ & ->)|(o & b & _ & Hl' & Hr & Hs)]];
    [by rewrite Hl..|].
  assert (o = order) as -> by congruence.
  assert (restores req order = false) as Hno.
  { unfold restores. destruct (cancelledAt order); [|done].
    apply andb_false_r. }
  rewrite Hno in Hr, Hs. destruct Hr as [-> _]. split; [done|].
  destruct Hs as [[_ ->]|(saved & _ & _ & -> & _ & _ & Hca)]; [by rewrite Hl|].
  rewrite list_lookup_insert_eq by (by eapply lookup_lt_Some).
  simpl. by rewrite Hca.
Qed.

(** The first cancellation of an order gives back to every product the
    totals recorded on the order's items. *)
Lemma first_cancellation clk id req parsed s order saved s' :
  orders s !! id = Some order → cancelledAt order = None →
  rq_newStatus req = Some "cancelled"%string →
  updateStatus clk id req parsed s = (Updated saved, s') →
  (∀ pid, products s' !! pid
          = afterRestore (qtyOf pid (o_items order)) (revenueOf pid (o_items order))
              <$> products s !! pid)
  ∧ orders s' !! id = Some saved
  ∧ cancelledAt saved = Some (now clk).
Proof.
  intros Hl Hca Hreq H.
  assert (restores req order = true) as Hres.
  { unfold restores, requestedStatus. by rewrite Hreq, Hca. }
  apply updateStatus_cases in H
    as [(_ & ? & _)|[(_ & ? & _)|(o' & b & _ & Hl' & Hr & [[? _]|Hs])]]; [done..|].
  assert (o' = order) as -> by congruence.
  rewrite Hres in Hr, Hs.
  destruct Hs as (saved' & [= <-] & -> & -> & _ & _ & ->).
  split; [intros pid; by apply restoreStock_done|]. split; [|done].
  apply list_lookup_insert_eq. by eapply lookup_lt_Some.
Qed.

(** The items stored with a created order record what the creation took
    from every product. *)
Lemma created_records_sale clk user creq s o s1 :
  createOrder clk user creq s = (Created o, s1) →
  ∀ pid,
    products s1 !! pid = afterSale (qtyOf pid (o_items o)) <$> products s !! pid
    ∧ ∀ p, products s !! pid = Some p →
           revenueOf pid (o_items o) = p_price p * qtyOf pid (o_items o).
Proof.
  intros Hcreate pid.
  apply createOrder_Created in Hcreate as (st & ois & Hv & Hc & Hd).
  apply validateItems_inr in Hv as (new & -> & Hsnap & _). simpl in Hc, Hsnap.
  destruct (created_quantities _ _ _ _ _ _ _ _ _ Hsnap Hc) as (-> & _).
  rewrite (snapshots_qty _ _ _ pid Hsnap). split.
  - by apply decrementStock_done.
  - intros p Hl. by apply (snapshots_revenue _ _ _ pid p Hsnap).
Qed.


(** C4. The guard on [cancelledAt] does not keep a retried cancellation
    from restoring twice, because [cancelledAt] is stored only by the
    [order.save()] that follows the restore loop. An order for 3 of 5 pens
    is answered 201; its cancellation comes with a delivery date that does
    not cast, so the loop gives the 3 pens back and the save fails: the
    answer is 500 and the stored order has no [cancelledAt]. The request
    is sent again without the date: the loop runs a second time and the
    pen ends with a stock of 8, [-3] sales and a revenue of [-21]. *)
Theorem retried_cancellation_restores_twice :
  ∃ o s1 s2 saved s3,
    createOrder Scenario.clk0 7%N
      (Scenario.cart [Scenario.line 1%N 3] 21 false) (Scenario.shop 5)
    = (Created o, s1)
    ∧ (stock_quantity <$> products s1 !! 1%N = Some 2
       ∧ sales_count <$> products s1 !! 1%N = Some 3
       ∧ sales_revenue <$> products s1 !! 1%N = Some 21)
    ∧ updateStatus Scenario.clk1 0 (Catalogue.cancelOn "soon") InvalidDate s1
      = (UpdateServerError, s2)
    ∧ cancelledAt <$> orders s2 !! 0%nat = Some None
    ∧ (stock_quantity <$> products s2 !! 1%N = Some 5
       ∧ sales_count <$> products s2 !! 1%N = Some 0
       ∧ sales_revenue <$> products s2 !! 1%N = Some 0)
    ∧ updateStatus Scenario.clk1 0 (Scenario.setTo "cancelled") InvalidDate s2
      = (Updated saved, s3)
    ∧ cancelledAt saved = Some (now Scenario.clk1)
    ∧ (stock_quantity <$> products s3 !! 1%N = Some 8
       ∧ sales_count <$> products s3 !! 1%N = Some (-3)
       ∧ sales_revenue <$> products s3 !! 1%N = Some (-21)).
Proof.
  eexists _, _, _, _, _. split; [reflexivity|]. split; [by repeat split|].
  split; [reflexivity|]. split; [reflexivity|]. split; [by repeat split|].
  split; [reflexivity|]. split; [reflexivity|]. by repeat split.
Qed.

(** The same double credit, without a retry: the order left behind by
    a creation that was answered 500 after it took 3 pens records 6;
    cancelling it gives back 6. *)
Lemma cancel_gives_back_more :
  let req := Scenario.cart [Scenario.line 1%N 3; Scenario.line 1%N 3] 42 false in
  ∃ s1 o2 s2,
    createOrder Scenario.clk0 7%N req (Scenario.shop 5) = (ServerError, s1)
    ∧ stock_quantity <$> products s1 !! 1%N = Some 2
    ∧ updateStatus Scenario.clk1 0 (Scenario.setTo "cancelled") InvalidDate s1
      = (Updated o2, s2)
    ∧ stock_quantity <$> products s2 !! 1%N = Some 8
    ∧ sales_count <$> products s2 !! 1%N = Some (-3).
Proof. eexists _, _, _. repeat split; reflexivity. Qed.

(** ** Test orders *)

(** C7. The route skips the stock check for a test order (line 150) and
    announces the test order as created (lines 222-224), but the stock
    loop that follows is the same for every order: the test order for 3
    pens against a stock of 0 is stored, the save of the pen with a stock
    of [-3] is refused by [min: 0], and the answer is 500. The creation
    does not succeed and the stock is not decremented. *)
Theorem test_order_not_created :
  ∃ o s',
    createOrder Scenario.clk0 7%N (Scenario.cart [Scenario.line 1%N 3] 21 true)
      (Scenario.shop 0) = (ServerError, s')
    ∧ orders s' = [o] ∧ o_isTest o = true
    ∧ oi_quantity <$> o_items o = [3]
    ∧ stock_trackInventory <$> products (Scenario.shop 0) !! 1%N = Some true
    ∧ stock_quantity <$> products (Scenario.shop 0) !! 1%N = Some 0
    ∧ stock_quantity <$> products s' !! 1%N = Some 0
    ∧ sales_count <$> products s' !! 1%N = Some 0.
Proof. eexists _, _. split; [reflexivity|]. repeat split; reflexivity. Qed.

(** ** Order numbers *)

(** C3, as the hook generates numbers. Every generated number starts with
    [TEST-] for a test order and [ORD-] otherwise. When the queries
    answer, the candidates are [{PREFIX}-{YYYYMMDD}-{n}], [n] padded to
    five digits, for [n = count + 1, count + 2, ...]; the first of the
    hundred candidates [count + 1 .. count + 100] that no other order
    holds is the result; when all hundred are held the result is
    [{PREFIX}-{YYYYMMDD}-{Date.now()}], which carries no random suffix and
    is not looked up. The value [{PREFIX}-{Date.now()}-{random}] is the
    result only when a query rejects. *)
Theorem orderNumber_generation q clk isTest :
  hasPrefix isTest (generateOrderNumber q clk isTest)
  ∧ prefix true = "TEST"%string ∧ prefix false = "ORD"%string
  ∧ (∀ n, numbered clk isTest n
          = (prefix isTest +:+ "-" +:+ datePart clk +:+ "-"
             +:+ JS.padStart 5 "0" (JS.String_ (N.of_nat n)))%string)
  ∧ limitFallback clk isTest
    = (prefix isTest +:+ "-" +:+ datePart clk +:+ "-" +:+ JS.String_ (now clk))%string
  ∧ (countDocuments q = None
     ∨ (∃ count, countDocuments q = Some count
                 ∧ findOne q (numbered clk isTest (count + 1)) = None) →
       generateOrderNumber q clk isTest
       = (prefix isTest +:+ "-" +:+ JS.String_ (now clk) +:+ "-" +:+ random36 clk)%string)
  ∧ (∀ count taken,
       countDocuments q = Some count → (∀ n, findOne q n = Some (taken n)) →
       let candidate k := numbered clk isTest (count + 1 + k) in
       (∀ k, (k < 100)%nat →
             (∀ j, (j < k)%nat → taken (candidate j) = true) →
             taken (candidate k) = false →
             generateOrderNumber q clk isTest = candidate k)
       ∧ ((∀ j, (j < 100)%nat → taken (candidate j) = true) →
            generateOrderNumber q clk isTest = limitFallback clk isTest)).
Proof.
  split; [apply generateOrderNumber_hasPrefix|].
  do 4 (split; [reflexivity|]). split.
  - intros [Hc|(count & Hc & Hf)]; unfold generateOrderNumber, tryGenerate;
      rewrite Hc; [done|]. simpl. by rewrite Hf.
  - intros count taken Hc Hf candidate. unfold generateOrderNumber, tryGenerate.
    rewrite Hc. split.
    + intros k Hk Htaken Hfree. unfold candidate in *.
      rewrite (probe_free q clk isTest count taken Hf k 100 1); [|lia..| |].
      * f_equal. lia.
      * intros j Hj. replace (count + j)%nat with (count + 1 + (j - 1))%nat by lia.
        apply Htaken. lia.
      * by replace (count + (1 + k))%nat with (count + 1 + k)%nat by lia.
    + intros Htaken. unfold candidate in *.
      rewrite (probe_exhausted q clk isTest count taken Hf 99 100 1); [done|lia..|].
      intros j Hj. replace (count + j)%nat with (count + 1 + (j - 1))%nat by lia.
      apply Htaken. lia.
Qed.

(** C3 as stated fails where the hundred candidates are held: the result
    is the clock value alone, another order can hold it, and the insert
    of the new order is then refused by the unique index. *)
Lemma limit_fallback_collides :
  let s := {| products := products (Scenario.shop 5); orders := Scenario.crowded |} in
  let n := generateOrderNumber (queriesOf (orders s) None) Scenario.clk0 false in
  n = "ORD-20260309-1773052800000"%string
  ∧ n = generateOrderNumber (queriesOf (orders s) None)
          (mkClock 2026 3 9 1773052800000 "zzzzzz") false
  ∧ numberTaken n None 0 (orders s) = true
  ∧ createOrder Scenario.clk0 7%N (Scenario.cart [Scenario.line 1%N 3] 21 false) s
    = (ServerError, s).
Proof. vm_compute. repeat split; reflexivity. Qed.

(** ** The statements at work on the small shop *)

Lemma shop_stockNonneg n : 0 <= n → stockNonneg (products (Scenario.shop n)).
Proof.
  intros Hn id p Hl _. simpl in Hl.
  apply lookup_insert_Some in Hl as [[_ <-]|[_ Hl]]; [exact Hn|].
  by rewrite lookup_empty in Hl.
Defined.

(** The shop stays sound through an order and its cancellation. *)
Lemma stock_never_negative_witness :
  stockNonneg (products (Scenario.shop 5))
  ∧ rtc step (Scenario.shop 5) Scenario.withCancelled
  ∧ stockNonneg (products Scenario.withCancelled).
Proof.
  assert (rtc step (Scenario.shop 5) Scenario.withCancelled) as Hreach.
  { eapply rtc_l; [eapply step_create; apply surjective_pairing|].
    eapply rtc_l; [eapply step_update; apply surjective_pairing|].
    apply rtc_refl. }
  split; [apply shop_stockNonneg; lia|]. split; [exact Hreach|].
  apply (stock_never_negative (Scenario.shop 5) _
           (shop_stockNonneg 5 ltac:(lia)) Hreach).
Defined.

(** The first order of the day in an empty collection. *)
Lemma orderNumber_generation_witness :
  generateOrderNumber (queriesOf [] None) Scenario.clk0 false
  = "ORD-20260309-00001"%string
  ∧ generateOrderNumber (queriesOf Scenario.crowded None) Scenario.clk0 true
    = "TEST-20260309-00102"%string.
Proof.
  split.
  - destruct (orderNumber_generation (queriesOf [] None) Scenario.clk0 false)
      as (_ & _ & _ & _ & _ & _ & H).
    destruct (H 0%nat (λ n, numberTaken n None 0 []) eq_refl (λ n, eq_refl)) as [H1 _].
    apply (H1 0%nat); [lia| |reflexivity]. intros j Hj. lia.
  - destruct (orderNumber_generation (queriesOf Scenario.crowded None) Scenario.clk0 true)
      as (_ & _ & _ & _ & _ & _ & H).
    destruct (H 101%nat (λ n, numberTaken n None 0 Scenario.crowded) eq_refl (λ n, eq_refl))
      as [H1 _].
    apply (H1 0%nat); [lia| |reflexivity]. intros j Hj. lia.
Defined.

(** A cancelled order is put to [shipped]. *)
Lemma status_is_overwritten_witness :
  ∃ order saved s3,
    orders Scenario.withCancelled !! 0%nat = Some order
    ∧ o_status order = cancelled
    ∧ updateStatus Scenario.clk1 0 (Scenario.setTo "shipped") InvalidDate
        Scenario.withCancelled = (Updated saved, s3)
    ∧ orders s3 !! 0%nat = Some saved ∧ o_status saved = shipped.
Proof.
  eexists _, _, _. split; [reflexivity|]. split; [reflexivity|].
  split; [reflexivity|].
  refine (proj1 (proj2 (status_is_overwritten Scenario.clk1 0
                          (Scenario.setTo "shipped") InvalidDate
                          Scenario.withCancelled _ eq_refl _)) _ _ eq_refl).
  simpl. tauto.
Defined.

Lemma finalPricing_defaults_witness :
  total (finalPricing (Scenario.onlyTotal 25) 21) = 25
  ∧ shipping (finalPricing (Scenario.onlyTotal 25) 21) = 0
  ∧ total (finalPricing (mkPricingReq (Some 30) (Some 4) None (Some 2) None) 21) = 23.
Proof.
  split; [|split].
  - apply (proj2 (proj2 (proj2 (proj2
             (finalPricing_defaults (Scenario.onlyTotal 25) 21)))) 25 eq_refl).
    lia.
  - apply (proj1 (finalPricing_defaults (Scenario.onlyTotal 25) 21) eq_refl).
  - apply (proj1 (proj2 (proj2 (proj2
             (finalPricing_defaults
                (mkPricingReq (Some 30) (Some 4) None (Some 2) None) 21)))) eq_refl).
Defined.

Lemma unknown_status_rejected_witness :
  updateStatus Scenario.clk1 0 (Scenario.setTo "returned") InvalidDate
    {| products := ∅; orders := [Scenario.holding "ORD-20260309-00001"] |}
  = (InvalidStatus,
     {| products := ∅; orders := [Scenario.holding "ORD-20260309-00001"] |}).
Proof.
  apply unknown_status_rejected. intros st [= <-]. simpl.
  intros [H|[H|[H|[H|[H|[H|[]]]]]]]; discriminate H.
Defined.

Lemma created_order_is_pending_witness :
  ∃ o s',
    createOrder Scenario.clk0 7%N Scenario.cardCart (Scenario.shop 5) = (Created o, s')
    ∧ orders s' !! 0%nat = Some o
    ∧ o_status o = pending ∧ pay_status (o_payment o) = pay_pending.
Proof.
  eexists _, _. split; [reflexivity|].
  refine (created_order_is_pending Scenario.clk0 7%N Scenario.cardCart
            (Scenario.shop 5) _ _ eq_refl).
Defined.

Lemma zero_component_is_absent_witness :
  ∃ o s',
    createOrder Scenario.clk0 7%N
      (Scenario.cart [Scenario.line 1%N 3] 0 false) (Scenario.shop 5) = (Created o, s')
    ∧ (∃ pr, pricing (Scenario.cart [Scenario.line 1%N 3] 0 false) = Some pr
             ∧ o_pricing o = finalPricing pr (itemsTotal (o_items o)))
    ∧ total (finalPricing (Scenario.onlyTotal 0) 21) = 21 + 0 + 0 - 0.
Proof.
  eexists _, _. split; [reflexivity|]. split.
  - refine (proj2 (zero_component_is_absent Scenario.clk0 7%N
                     (Scenario.cart [Scenario.line 1%N 3] 0 false) (Scenario.shop 5))
              _ _ eq_refl).
  - refine (proj2 (proj2 (proj2 (proj2 (proj2
              (proj1 (zero_component_is_absent Scenario.clk0 7%N
                        (Scenario.cart [Scenario.line 1%N 3] 0 false) (Scenario.shop 5))
                 (Scenario.onlyTotal 0) 21))))) eq_refl).
Defined.

(** * Further properties of the order routes *)

(** ** The ledger moves units, and nothing else *)

Lemma moved_refl p : moved p p.
Proof. by repeat split. Qed.

Lemma movedAtPrice_refl p : movedAtPrice p p.
Proof. split; [apply moved_refl|done]. Qed.

Lemma moved_trans p1 p2 p3 : moved p1 p2 → moved p2 p3 → moved p1 p3.
Proof.
  intros (?&?&?&?&?&?) (?&?&?&?&?&?). repeat split; congruence || lia.
Qed.

Lemma movedAtPrice_trans p1 p2 p3 :
  movedAtPrice p1 p2 → movedAtPrice p2 p3 → movedAtPrice p1 p3.
Proof.
  intros [H1 R1] [H2 R2]. split; [by eapply moved_trans|lia].
Qed.

Lemma sold_movedAtPrice p q : movedAtPrice p (sold p q).
Proof. unfold movedAtPrice, moved, sold; simpl. repeat split; lia. Qed.

Lemma restored_moved p it : moved p (restored p it).
Proof. unfold moved, restored; simpl. repeat split; lia. Qed.

Lemma restored_movedAtPrice p it :
  oi_price it = p_price p → movedAtPrice p (restored p it).
Proof.
  intros Hp. split; [apply restored_moved|]. unfold restored; simpl.
  rewrite Hp. lia.
Qed.

Lemma idwise_refl (R : Product → Product → Prop) ps :
  (∀ p, R p p) → idwise R ps ps.
Proof. intros HR id. destruct (ps !! id); by constructor. Qed.

Lemma idwise_trans (R : Product → Product → Prop) ps1 ps2 ps3 :
  (∀ p1 p2 p3, R p1 p2 → R p2 p3 → R p1 p3) →
  idwise R ps1 ps2 → idwise R ps2 ps3 → idwise R ps1 ps3.
Proof.
  intros HR H12 H23 id. specialize (H12 id). specialize (H23 id).
  destruct H12 as [p1 p2 H12|]; inversion H23; subst; constructor. by eapply HR.
Qed.

Lemma idwise_insert (R : Product → Product → Prop) ps id p p' :
  (∀ p, R p p) → ps !! id = Some p → R p p' → idwise R ps (<[id := p']> ps).
Proof.
  intros HR Hl Hp id'. destruct (decide (id = id')) as [<-|Hne].
  - rewrite lookup_insert_eq, Hl. by constructor.
  - rewrite lookup_insert_ne by done. destruct (ps !! id'); by constructor.
Qed.

Lemma idwise_impl (R R' : Product → Product → Prop) ps ps' :
  (∀ p p', R p p' → R' p p') → idwise R ps ps' → idwise R' ps ps'.
Proof. intros HR H id. destruct (H id); constructor. by apply HR. Qed.

Lemma decrementStock_moved its : ∀ ps ps' b,
  decrementStock its ps = (ps', b) → idwise movedAtPrice ps ps'.
Proof.
  induction its as [|it rest IH]; intros ps ps' b H; simpl in H.
  - injection H as <- _. apply idwise_refl, movedAtPrice_refl.
  - destruct (product it) as [id0|]; [|by eapply IH].
    destruct (ps !! id0) as [p|] eqn:Hl; [|by eapply IH].
    destruct (stock_trackInventory p); [|by eapply IH].
    destruct (Product_save id0 (sold p (quantity it)) ps) as [ps1|] eqn:Hs.
    + apply Product_save_Some in Hs as [_ ->].
      eapply idwise_trans; [apply movedAtPrice_trans| |by eapply IH].
      eapply idwise_insert; [apply movedAtPrice_refl|done|apply sold_movedAtPrice].
    + injection H as <- _. apply idwise_refl, movedAtPrice_refl.
Qed.

Lemma restoreStock_moved its : ∀ ps ps' b,
  restoreStock its ps = (ps', b) → idwise moved ps ps'.
Proof.
  induction its as [|it rest IH]; intros ps ps' b H; simpl in H.
  - injection H as <- _. apply idwise_refl, moved_refl.
  - destruct (ps !! oi_product it) as [p|] eqn:Hl; [|by eapply IH].
    destruct (stock_trackInventory p); [|by eapply IH].
    destruct (Product_save _ (restored p it) ps) as [ps1|] eqn:Hs.
    + apply Product_save_Some in Hs as [_ ->].
      eapply idwise_trans; [apply moved_trans| |by eapply IH].
      eapply idwise_insert; [apply moved_refl|done|apply restored_moved].
    + injection H as <- _. apply idwise_refl, moved_refl.
Qed.

Lemma pricesAgreeOn_moved ps ps' its :
  idwise moved ps ps' → pricesAgreeOn ps its → pricesAgreeOn ps' its.
Proof.
  intros Hm Hag. eapply Forall_impl; [exact Hag|]. intros oi Hoi p' Hl'.
  specialize (Hm (oi_product oi)). rewrite Hl' in Hm. inversion Hm as [p ? Hpp' Hl|]; subst.
  destruct Hpp' as (_ & -> & _). by apply Hoi.
Qed.

Lemma restoreStock_movedAtPrice its : ∀ ps ps' b,
  restoreStock its ps = (ps', b) → pricesAgreeOn ps its →
  idwise movedAtPrice ps ps'.
Proof.
  induction its as [|it rest IH]; intros ps ps' b H Hag; simpl in H.
  - injection H as <- _. apply idwise_refl, movedAtPrice_refl.
  - apply Forall_cons in Hag as [Hit Hag].
    destruct (ps !! oi_product it) as [p|] eqn:Hl; [|by eapply IH].
    destruct (stock_trackInventory p); [|by eapply IH].
    destruct (Product_save _ (restored p it) ps) as [ps1|] eqn:Hs.
    + apply Product_save_Some in Hs as [_ ->].
      assert (idwise movedAtPrice ps (<[oi_product it := restored p it]> ps)) as Hstep.
      { eapply idwise_insert; [apply movedAtPrice_refl|done|].
        apply restored_movedAtPrice. by apply Hit. }
      eapply idwise_trans; [apply movedAtPrice_trans|exact Hstep|].
      eapply IH; [done|]. eapply pricesAgreeOn_moved; [|exact Hag].
      eapply idwise_impl; [|exact Hstep]. by intros ? ? [? _].
    + injection H as <- _. apply idwise_refl, movedAtPrice_refl.
Qed.

Lemma snapshots_pricesAgree ps its ois :
  Forall2 (snapshotOf ps) its ois → pricesAgreeOn ps ois.
Proof.
  induction 1 as [|it oi its ois (id & p & _ & Hl & _ & ->) _ IH]; constructor; [|done].
  simpl. intros p' Hl'. congruence.
Qed.

Lemma createOrder_ledger clk user req s r s' :
  createOrder clk user req s = (r, s') →
  idwise movedAtPrice (products s) (products s')
  ∧ (pricesAgree s → pricesAgree s').
Proof.
  intros H.
  apply createOrder_cases in H as [[_ ->]|(st & ois & o & b & Hv & Hc & Hd & _)].
  { split; [apply idwise_refl, movedAtPrice_refl|done]. }
  pose proof (decrementStock_moved _ _ _ _ Hd) as Hm.
  split; [done|]. intros Hag.
  assert (idwise moved (products s) (products s')) as Hm'.
  { eapply idwise_impl; [|exact Hm]. by intros ? ? [? _]. }
  apply validateItems_inr in Hv as (new & -> & Hsnap & _). simpl in Hc, Hsnap.
  destruct (created_quantities _ _ _ _ _ _ _ _ _ Hsnap Hc) as (Hitems & _).
  apply Order_create_Some in Hc as (_ & _ & Hos).
  unfold pricesAgree. rewrite Hos. apply Forall_app. split.
  - eapply Forall_impl; [exact Hag|]. intros o'. by apply pricesAgreeOn_moved.
  - constructor; [|constructor]. rewrite Hitems.
    eapply pricesAgreeOn_moved; [exact Hm'|]. by eapply snapshots_pricesAgree.
Qed.

Lemma updateStatus_ledger clk id req parsed s r s' :
  updateStatus clk id req parsed s = (r, s') →
  idwise moved (products s) (products s')
  ∧ (pricesAgree s →
       idwise movedAtPrice (products s) (products s') ∧ pricesAgree s').
Proof.
  intros H.
  apply updateStatus_cases in H
    as [(_ & _ & ->)|[(_ & _ & ->)|(o & b & _ & Hl & Hr & Hs)]].
  1,2: split; [apply idwise_refl, moved_refl|];
       intros Hag; split; [apply idwise_refl, movedAtPrice_refl|done].
  assert (idwise moved (products s) (products s')) as Hm.
  { destruct (restores req o).
    - by eapply restoreStock_moved.
    - destruct Hr as [-> _]. apply idwise_refl, moved_refl. }
  split; [done|]. intros Hag.
  assert (pricesAgreeOn (products s) (o_items o)) as Ho.
  { unfold pricesAgree in Hag. rewrite Forall_forall in Hag.
    apply Hag. by eapply list_elem_of_lookup_2. }
  split.
  - destruct (restores req o).
    + by eapply restoreStock_movedAtPrice.
    + destruct Hr as [-> _]. apply idwise_refl, movedAtPrice_refl.
  - assert (Forall (λ o', pricesAgreeOn (products s') (o_items o')) (orders s)) as Hold.
    { eapply Forall_impl; [exact Hag|]. intros o'. by apply pricesAgreeOn_moved. }
    unfold pricesAgree.
    destruct Hs as [[_ ->]|(saved & _ & _ & -> & _ & Hit & _)]; [done|].
    apply Forall_insert; [done|]. rewrite Hit. by eapply pricesAgreeOn_moved.
Qed.

(** X1. Whatever requests with quantities that are whole numbers the
    two order routes serve, accepted or not, they never add or remove a
    product and never change a product's name, price, images, [isActive]
    or [trackInventory]; and for every product
    [stock.quantity + sales.count] keeps its value: units only move
    between the two counters. *)
Theorem order_routes_only_move_units s s' :
  rtc step s s' → idwise moved (products s) (products s').
Proof.
  induction 1 as [|s1 s2 s3 Hstep _ IH]; [apply idwise_refl, moved_refl|].
  eapply idwise_trans; [apply moved_trans| |exact IH].
  destruct Hstep as [clk user req r H|clk id req parsed r H].
  - apply createOrder_ledger in H as [H _].
    eapply idwise_impl; [|exact H]. by intros ? ? [? _].
  - by apply updateStatus_ledger in H as [H _].
Qed.

Lemma step_pricesAgree s s' :
  step s s' → pricesAgree s →
  pricesAgree s' ∧ idwise movedAtPrice (products s) (products s').
Proof.
  intros [clk user req r H|clk id req parsed r H] Hag.
  - apply createOrder_ledger in H as [H1 H2]. split; [by apply H2|done].
  - apply updateStatus_ledger in H as [_ H]. by destruct (H Hag).
Qed.

(** X2. With prices and quantities that are whole numbers: from a store
    whose order items carry the current prices of their products,
    [sales.revenue] follows [sales.count] at the product's price through
    every sequence of requests to the order routes:
    [revenue - price * count] keeps its value for every product, and the
    stored items still carry the prices of their products. *)
Theorem revenue_follows_count s s' :
  pricesAgree s → rtc step s s' →
  pricesAgree s' ∧ idwise movedAtPrice (products s) (products s').
Proof.
  intros Hag Hreach. induction Hreach as [|s1 s2 s3 Hstep _ IH].
  - split; [done|apply idwise_refl, movedAtPrice_refl].
  - destruct (step_pricesAgree _ _ Hstep Hag) as [Hag2 Hm].
    destruct (IH Hag2) as [Hag3 Hm3]. split; [done|].
    eapply idwise_trans; [apply movedAtPrice_trans|exact Hm|exact Hm3].
Qed.

(** ** The order collection *)

Lemma kept_refl {A} (x : option A) : kept x x.
Proof. by intros t. Qed.

Lemma kept_trans {A} (x y z : option A) : kept x y → kept y z → kept x z.
Proof. intros Hxy Hyz t Hx. by apply Hyz, Hxy. Qed.

Lemma sameCore_refl o : sameCore o o.
Proof. by repeat split. Qed.

Lemma stampsKept_refl o : stampsKept o o.
Proof. repeat split; apply kept_refl. Qed.

Lemma stampsKept_trans o1 o2 o3 :
  stampsKept o1 o2 → stampsKept o2 o3 → stampsKept o1 o3.
Proof.
  intros (?&?&?) (?&?&?). repeat split; by eapply kept_trans.
Qed.

Lemma coreEq_trans o1 o2 o3 : coreEq o1 o2 → coreEq o2 o3 → coreEq o1 o3.
Proof.
  intros (?&?&?&?&?&?&?&?&?) (?&?&?&?&?&?&?&?&?). repeat split; congruence.
Qed.

Lemma trackingKept_trans req o1 o2 o3 :
  trackingKept req o1 o2 → trackingKept req o2 o3 → trackingKept req o1 o3.
Proof.
  intros [H1 H2] [H3 H4]. split; intros Hf.
  - by rewrite H3, H1.
  - by rewrite H4, H2.
Qed.

Lemma stampShipping_stage clk req st o :
  let o' := stampShipping clk st o in
  coreEq o o' ∧ stampsKept o o' ∧ trackingKept req o o'
  ∧ o_status o' = o_status o ∧ cancelledAt o' = cancelledAt o.
Proof.
  unfold stampShipping.
  destruct o as [num usr its sa ba pr pay st0 [tn ed [sh|] [de|]] notes ca test];
    destruct (bool_decide (st = shipped)), (bool_decide (st = delivered)); simpl;
    unfold coreEq, stampsKept, trackingKept, kept; simpl; by repeat split.
Qed.

Lemma applyTracking_stage req parsed o o' :
  applyTracking req parsed o = (o', true) →
  coreEq o o' ∧ stampsKept o o' ∧ trackingKept req o o'
  ∧ o_status o' = o_status o ∧ cancelledAt o' = cancelledAt o.
Proof.
  unfold applyTracking.
  destruct (JS.truthy (rq_trackingNumber req)) eqn:Ht,
    (JS.truthy (rq_estimatedDelivery req)) eqn:He;
    [destruct parsed| |destruct parsed|]; intros [= <-];
    unfold coreEq, stampsKept, trackingKept, kept; simpl;
    repeat split; done || (intros; congruence).
Qed.

Lemma Order_preSave_stage q clk req o :
  let o' := Order_preSave q clk o in
  sameCore o o' ∧ stampsKept o o' ∧ trackingKept req o o'.
Proof.
  unfold Order_preSave. destruct (JS.blank (orderNumber o)) eqn:Hb; simpl;
    unfold sameCore, stampsKept, trackingKept, kept; simpl;
    repeat split; done || (intros; congruence).
Qed.

Lemma coreEq_sameCore o1 o2 o3 : coreEq o1 o2 → sameCore o2 o3 → sameCore o1 o3.
Proof.
  intros (Hn&?&?&?&?&?&?&?&?) (?&?&?&?&?&?&?&?&Hnum).
  repeat split; try congruence. intros Hb. rewrite <- Hn. apply Hnum. by rewrite Hn.
Qed.

(** What an accepted status update has saved. *)
Lemma updateStatus_saved clk id req parsed s saved s' order :
  orders s !! id = Some order →
  updateStatus clk id req parsed s = (Updated saved, s') →
  orders s' = <[id := saved]> (orders s)
  ∧ sameCore order saved ∧ stampsKept order saved ∧ trackingKept req order saved
  ∧ (JS.blank (orderNumber order) = true →
       indexConflict (orderNumber saved) (Some id) 0 (orders s) = false).
Proof.
  intros Hl. unfold updateStatus. rewrite Hl.
  destruct (checkStatusBody req); simpl; [|done].
  set (st := statusOf _).
  destruct (stampShipping_stage clk req st (with_status st order))
    as (Hc1 & Hs1 & Ht1 & _ & Hca1).
  set (o1 := stampShipping clk st (with_status st order)) in *.
  change (coreEq order o1) in Hc1. change (stampsKept order o1) in Hs1.
  change (trackingKept req order o1) in Ht1.
  change (cancelledAt o1 = cancelledAt order) in Hca1.
  assert (∃ o2 ps ok,
    (if bool_decide (st = cancelled) && negb (JS.defined (cancelledAt o1))
     then (with_cancelledAt (Some (now clk)) o1, restoreStock (o_items o1) (products s))
     else (o1, (products s, true))) = (o2, (ps, ok))
    ∧ coreEq order o2 ∧ stampsKept order o2 ∧ trackingKept req order o2)
    as (o2 & ps & ok & -> & Hc2 & Hs2 & Ht2).
  { destruct (bool_decide (st = cancelled) && negb (JS.defined (cancelledAt o1))) eqn:Hc.
    - destruct (restoreStock _ _) as [ps ok]. eexists _, _, _. split; [done|].
      apply andb_true_iff in Hc as [_ Hc].
      destruct (cancelledAt o1) eqn:Hca; [done|].
      destruct Hc1 as (?&?&?&?&?&?&?&?&?), Hs1 as (?&?&Hk), Ht1 as [? ?].
      unfold coreEq, stampsKept, trackingKept, kept in *; simpl in *.
      repeat split; try done. intros t Ht. rewrite <- Hca1 in Ht. done.
    - by eexists _, _, _. }
  destruct ok; simpl; [|done].
  destruct (applyTracking req parsed o2) as [o3 castOk] eqn:Ha.
  destruct castOk; simpl; [|done].
  apply applyTracking_stage in Ha as (Hc3 & Hs3 & Ht3 & _).
  destruct (Order_save clk id o3 (orders s)) as [[saved' os]|] eqn:Hsave; [|done].
  intros [= <- <-]. simpl.
  pose proof Hsave as Hsave'. apply Order_save_Some in Hsave' as (-> & ->).
  destruct (Order_preSave_stage (queriesOf (orders s) (Some id)) clk req o3)
    as (Hc4 & Hs4 & Ht4).
  split; [done|]. split; [|split; [|split]].
  - eapply coreEq_sameCore; [|exact Hc4]. by eapply coreEq_trans.
  - eapply stampsKept_trans; [|exact Hs4]. by eapply stampsKept_trans.
  - eapply trackingKept_trans; [|exact Ht4]. by eapply trackingKept_trans.
  - intros Hb. unfold Order_save in Hsave.
    assert (orderNumber o3 = orderNumber order) as Hn.
    { destruct Hc2 as [H2 _], Hc3 as [H3 _]. congruence. }
    rewrite Hn, Hb in Hsave. simpl in Hsave.
    by destruct (indexConflict _ _ _ _).
Qed.

Lemma updateStatus_orders clk id req parsed s r s' :
  updateStatus clk id req parsed s = (r, s') →
  orders s' = orders s
  ∨ ∃ order saved, orders s !! id = Some order ∧ r = Updated saved.
Proof.
  intros H.
  apply updateStatus_cases in H
    as [(_ & _ & ->)|[(_ & _ & ->)|(o & b & _ & Hl & _ & Hs)]]; [by left..|].
  destruct Hs as [[_ ->]|(saved & -> & _)]; [by left|]. right. by exists o, saved.
Qed.

Lemma indexConflict_false n self os : ∀ i,
  indexConflict n self i os = false ↔
  ∀ j o, os !! j = Some o → orderNumber o = n → self = Some (i + j)%nat.
Proof.
  induction os as [|o os IH]; intros i; simpl.
  - split; [|done]. intros _ j o' Hl. by rewrite lookup_nil in Hl.
  - rewrite orb_false_iff, IH. split.
    + intros [Hhd Htl] j o' Hl Hn. destruct j as [|j]; simpl in Hl.
      * injection Hl as <-. rewrite Nat.add_0_r.
        rewrite bool_decide_eq_true_2 in Hhd by done. simpl in Hhd.
        apply negb_false_iff, bool_decide_eq_true in Hhd. done.
      * rewrite (Htl j o' Hl Hn). f_equal. lia.
    + intros H. split.
      * case_bool_decide as Hn; [|done]. simpl.
        apply negb_false_iff, bool_decide_eq_true.
        rewrite (H 0%nat o eq_refl Hn). f_equal. lia.
      * intros j o' Hl Hn. rewrite (H (S j) o' Hl Hn). f_equal. lia.
Qed.

Lemma NoDup_insert_fresh {A} (l : list A) i y :
  NoDup l → (∀ j x, l !! j = Some x → x = y → j = i) → NoDup (<[i := y]> l).
Proof.
  intros Hnd Hfresh. apply NoDup_alt. intros j1 j2 x H1 H2.
  apply list_lookup_insert_Some in H1, H2.
  destruct H1 as [(-> & -> & _)|[Hne1 H1]], H2 as [(-> & Hx & _)|[Hne2 H2]].
  - done.
  - symmetry. by eapply Hfresh.
  - by eapply Hfresh.
  - by eapply (proj1 (NoDup_alt l) Hnd).
Qed.

Lemma createOrder_numbersDistinct clk user req s r s' :
  createOrder clk user req s = (r, s') →
  numbersDistinct (orders s) → numbersDistinct (orders s').
Proof.
  intros H Hnd.
  apply createOrder_cases in H as [[_ ->]|(st & ois & o & b & _ & Hc & _)]; [done|].
  unfold Order_create in Hc. destruct (Order_validate _); [|done].
  destruct (indexConflict _ _ _ _) eqn:Hx; [done|]. injection Hc as <- <-.
  unfold numbersDistinct. rewrite fmap_app. apply NoDup_app. split; [done|].
  split; [|apply NoDup_singleton].
  intros n Hin Hin'. apply list_elem_of_singleton in Hin'. subst n.
  apply list_elem_of_fmap in Hin as (o' & Hn & Hin).
  apply list_elem_of_lookup in Hin as [j Hj].
  by pose proof (proj1 (indexConflict_false _ _ _ _) Hx j o' Hj (eq_sym Hn)).
Qed.

Lemma updateStatus_numbersDistinct clk id req parsed s r s' :
  updateStatus clk id req parsed s = (r, s') →
  numbersDistinct (orders s) → numbersDistinct (orders s').
Proof.
  intros H Hnd.
  destruct (updateStatus_orders _ _ _ _ _ _ _ H) as [->|(order & saved & Hl & ->)];
    [done|].
  destruct (updateStatus_saved _ _ _ _ _ _ _ _ Hl H) as (-> & Hcore & _ & _ & Hfree).
  unfold numbersDistinct. rewrite list_fmap_insert.
  destruct (JS.blank (orderNumber order)) eqn:Hb.
  - apply NoDup_insert_fresh; [done|]. intros j n Hj ->.
    apply list_lookup_fmap_Some in Hj as (o' & Hn & Hj).
    specialize (proj1 (indexConflict_false _ _ _ _) (Hfree eq_refl) j o' Hj (eq_sym Hn)).
    by intros [= ->].
  - destruct Hcore as (_&_&_&_&_&_&_&_&Hnum). rewrite (Hnum Hb).
    rewrite list_insert_id; [done|]. by rewrite list_lookup_fmap, Hl.
Qed.

(** X3. No two stored orders ever share an order number: from a
    collection with distinct numbers, every sequence of requests to the
    order routes leaves the numbers distinct. The hook can generate a
    number that is held; the unique index then refuses the write, of a
    new order as of a status update that saves an order without number. *)
Theorem order_numbers_stay_distinct s s' :
  numbersDistinct (orders s) → rtc step s s' → numbersDistinct (orders s').
Proof.
  intros Hnd Hreach. induction Hreach as [|s1 s2 s3 Hstep _ IH]; [done|].
  apply IH. destruct Hstep as [clk user req r H|clk id req parsed r H].
  - by eapply createOrder_numbersDistinct.
  - by eapply updateStatus_numbersDistinct.
Qed.

(** X4. A status update changes no other order, and of the order it
    addresses it keeps the user, the items, both addresses, the pricing,
    the payment, the notes, the test flag and (once assigned) the order
    number; [shippedAt], [deliveredAt] and [cancelledAt] keep the value
    they have once set; a tracking number or a delivery estimate the
    request does not supply stays as stored. *)
Theorem status_update_frame clk id req parsed s r s' order :
  orders s !! id = Some order →
  updateStatus clk id req parsed s = (r, s') →
  length (orders s') = length (orders s)
  ∧ (∀ j, j ≠ id → orders s' !! j = orders s !! j)
  ∧ ∃ order', orders s' !! id = Some order'
      ∧ sameCore order order' ∧ stampsKept order order'
      ∧ trackingKept req order order'.
Proof.
  intros Hl H.
  destruct (updateStatus_orders _ _ _ _ _ _ _ H) as [->|(order0 & saved & Hl0 & ->)].
  - split; [done|]. split; [done|]. exists order.
    split; [done|]. split; [apply sameCore_refl|].
    split; [apply stampsKept_refl|]. by split.
  - destruct (updateStatus_saved _ _ _ _ _ _ _ _ Hl H) as (-> & Hcore & Hst & Htr & _).
    split; [apply length_insert|]. split.
    + intros j Hne. by rewrite list_lookup_insert_ne.
    + exists saved. split; [|done].
      apply list_lookup_insert_eq. by eapply lookup_lt_Some.
Qed.

Lemma sameCore_trans o1 o2 o3 : sameCore o1 o2 → sameCore o2 o3 → sameCore o1 o3.
Proof.
  intros (?&?&?&?&?&?&?&?&Hn1) (?&?&?&?&?&?&?&?&Hn2).
  repeat split; try congruence. intros Hb.
  rewrite <- (Hn1 Hb). apply Hn2. by rewrite (Hn1 Hb).
Qed.

Lemma createOrder_orders clk user req s r s' :
  createOrder clk user req s = (r, s') →
  orders s' = orders s ∨ ∃ o, orders s' = orders s ++ [o].
Proof.
  intros H.
  apply createOrder_cases in H as [[_ ->]|(st & ois & o & b & _ & Hc & _)];
    [by left|].
  apply Order_create_Some in Hc as (_ & _ & ->). right. by exists o.
Qed.

Lemma step_keeps_order s s' id order :
  step s s' → orders s !! id = Some order →
  ∃ order', orders s' !! id = Some order'
            ∧ sameCore order order' ∧ stampsKept order order'.
Proof.
  intros [clk user req r H|clk id' req parsed r H] Hl.
  - exists order. split; [|split; [apply sameCore_refl|apply stampsKept_refl]].
    destruct (createOrder_orders _ _ _ _ _ _ H) as [->|[o ->]]; [done|].
    by apply lookup_app_l_Some.
  - destruct (updateStatus_orders _ _ _ _ _ _ _ H) as [->|(o0 & saved & Hl0 & ->)].
    { exists order. by split; [|split; [apply sameCore_refl|apply stampsKept_refl]]. }
    destruct (updateStatus_saved _ _ _ _ _ _ _ _ Hl0 H) as (-> & Hc & Hs & _).
    destruct (decide (id' = id)) as [->|Hne].
    + assert (o0 = order) as -> by congruence. exists saved.
      split; [|done]. apply list_lookup_insert_eq. by eapply lookup_lt_Some.
    + exists order. rewrite list_lookup_insert_ne by done.
      by split; [|split; [apply sameCore_refl|apply stampsKept_refl]].
Qed.

Lemma steps_keep_order s s' : rtc step s s' →
  ∀ id order, orders s !! id = Some order →
  ∃ order', orders s' !! id = Some order'
            ∧ sameCore order order' ∧ stampsKept order order'.
Proof.
  induction 1 as [s|s1 s2 s3 Hstep _ IH]; intros id order Hl.
  - exists order. by split; [|split; [apply sameCore_refl|apply stampsKept_refl]].
  - destruct (step_keeps_order _ _ _ _ Hstep Hl) as (o2 & Hl2 & Hc2 & Hs2).
    destruct (IH id o2 Hl2) as (o3 & Hl3 & Hc3 & Hs3).
    exists o3. split; [done|]. split.
    + by eapply sameCore_trans.
    + by eapply stampsKept_trans.
Qed.

(** X5. Stored orders are never deleted, moved or rewritten: through
    every sequence of requests to the order routes an order stays at its
    position with the user, items (the price, name and image snapshots),
    addresses, pricing, payment, notes and test flag it was stored with,
    with its order number once it has one, and with each of [shippedAt],
    [deliveredAt] and [cancelledAt] at the first value it was given. *)
Theorem stored_order_is_kept s s' id order :
  orders s !! id = Some order → rtc step s s' →
  ∃ order', orders s' !! id = Some order'
            ∧ sameCore order order' ∧ stampsKept order order'.
Proof.
  intros Hl Hreach.
  destruct (steps_keep_order _ _ Hreach id order Hl) as (order' & Hl' & Hc & Hs).
  exists order'. by split.
Qed.

(** ** When the create route answers 201 *)

Lemma qtyFor_cons id it rest :
  qtyFor id (it :: rest)
  = if bool_decide (product it = Some id) then quantity it + qtyFor id rest
    else qtyFor id rest.
Proof. reflexivity. Qed.

Lemma qtyFor_named id its :
  0 < qtyFor id its → ∃ it, it ∈ its ∧ product it = Some id.
Proof.
  induction its as [|it rest IH]; [simpl; lia|]. rewrite qtyFor_cons.
  case_bool_decide as Hp.
  - intros _. exists it. split; [by left|done].
  - intros H. destruct (IH H) as (it' & Hin & Hp'). exists it'. split; [by right|done].
Qed.

Lemma decrementStock_fits its ps ps' :
  decrementStock its ps = (ps', true) → totalsFit ps its.
Proof.
  intros Hd id p Hl Ht Hpos.
  destruct (qtyFor_named _ _ Hpos) as (it & Hin & Hp).
  pose proof (decrementStock_touched _ _ _ Hd) as Htouched.
  rewrite Forall_forall in Htouched. specialize (Htouched it Hin id Hp).
  pose proof (decrementStock_done _ _ _ Hd id) as Hdone. rewrite Hl in Hdone.
  simpl in Hdone. unfold afterSale in Hdone. rewrite Ht in Hdone.
  specialize (Htouched _ Hdone Ht). simpl in Htouched. lia.
Qed.

Lemma totalsFit_tail ps it rest :
  1 <= quantity it → Forall (λ it, 1 <= quantity it) rest →
  totalsFit ps (it :: rest) → totalsFit ps rest.
Proof.
  intros Hq Hrest Hfit id p Hl Ht Hpos.
  specialize (Hfit id p Hl Ht). rewrite qtyFor_cons in Hfit.
  case_bool_decide; lia.
Qed.

Lemma decrementStock_completes its : ∀ ps,
  Forall (λ it, 1 <= quantity it) its → totalsFit ps its →
  ∃ ps', decrementStock its ps = (ps', true).
Proof.
  induction its as [|it rest IH]; intros ps Hq Hfit; simpl; [by eexists|].
  apply Forall_cons in Hq as [Hq1 Hq].
  pose proof (totalsFit_tail _ _ _ Hq1 Hq Hfit) as Htail.
  destruct (product it) as [id0|] eqn:Hp; [|by apply IH].
  destruct (ps !! id0) as [p|] eqn:Hl; [|by apply IH].
  destruct (stock_trackInventory p) eqn:Ht; [|by apply IH].
  pose proof (Hfit id0 p Hl Ht) as Hfit0. rewrite qtyFor_cons in Hfit0.
  rewrite bool_decide_eq_true_2 in Hfit0 by done.
  pose proof (qtyFor_nonneg id0 rest Hq) as Hnn. specialize (Hfit0 ltac:(lia)).
  destruct (Product_save id0 (sold p (quantity it)) ps) as [ps1|] eqn:Hs.
  2: { apply Product_save_None in Hs. simpl in Hs. lia. }
  apply Product_save_Some in Hs as [_ ->]. apply IH; [done|].
  intros id p' Hl' Ht' Hpos. destruct (decide (id0 = id)) as [->|Hne].
  - rewrite lookup_insert_eq in Hl'. injection Hl' as <-. simpl. lia.
  - rewrite lookup_insert_ne in Hl' by done. by apply Htail.
Qed.

Lemma createOrder_stored clk user req s r s' :
  createOrder clk user req s = (r, s') →
  length (orders s') = S (length (orders s)) →
  ∃ o b, decrementStock (items req) (products s) = (products s', b)
         ∧ orders s' = orders s ++ [o]
         ∧ Forall (λ it, 1 <= quantity it) (items req)
         ∧ Forall2 (snapshotOf (products s)) (items req) (o_items o)
         ∧ r = if b then Created o else ServerError.
Proof.
  intros H Hlen.
  apply createOrder_cases in H as [[_ ->]|(st & ois & o & b & Hv & Hc & Hd & ->)];
    [lia|].
  apply validateItems_inr in Hv as (new & -> & Hsnap & _). simpl in Hc, Hsnap.
  destruct (created_quantities _ _ _ _ _ _ _ _ _ Hsnap Hc) as (Hitems & Hq & _).
  apply Order_create_Some in Hc as (_ & _ & Hos). exists o, b. by rewrite Hitems.
Qed.

Lemma createOrder_Created_stored clk user req s o s' :
  createOrder clk user req s = (Created o, s') →
  length (orders s') = S (length (orders s)).
Proof.
  intros H. apply createOrder_Created in H as (st & ois & _ & Hc & _).
  apply Order_create_Some in Hc as (_ & _ & ->).
  rewrite length_app. simpl. lia.
Qed.

(** X6. Once a request has passed the checks and its order is stored,
    the answer is 201 exactly when every tracked product holds the total
    quantity that all the lines naming it ask for, and 500 otherwise, with
    the order left in the store. The per-line stock check does not decide
    it: lines that repeat a product are checked one by one, and test
    orders are not checked at all. In particular no 201 is given, test
    order or not, unless the totals fit. *)
Theorem created_iff_totals_fit clk user req s r s' :
  createOrder clk user req s = (r, s') →
  (∀ o, r = Created o → totalsFit (products s) (items req))
  ∧ (length (orders s') = S (length (orders s)) →
       (totalsFit (products s) (items req) → ∃ o, r = Created o)
       ∧ (¬ totalsFit (products s) (items req) → r = ServerError)).
Proof.
  intros H. split.
  - intros o ->. pose proof (createOrder_Created_stored _ _ _ _ _ _ H) as Hlen.
    destruct (createOrder_stored _ _ _ _ _ _ H Hlen) as (o' & b & Hd & _ & _ & _ & Hr).
    destruct b; [|done]. by eapply decrementStock_fits.
  - intros Hlen.
    destruct (createOrder_stored _ _ _ _ _ _ H Hlen) as (o & b & Hd & _ & Hq & _ & ->).
    split.
    + intros Hfit. destruct (decrementStock_completes _ _ Hq Hfit) as [ps Hps].
      rewrite Hps in Hd. injection Hd as _ <-. by exists o.
    + intros Hno. destruct b; [|done]. exfalso. apply Hno.
      by eapply decrementStock_fits.
Qed.

Lemma created_for_user clk user req s o s' :
  createOrder clk user req s = (Created o, s') →
  o_user o = user ∧ o_isTest o = isTest req.
Proof.
  intros H. apply createOrder_Created in H as (st & ois & _ & Hc & _).
  apply Order_create_Some in Hc as (_ & -> & _).
  unfold Order_preSave. by destruct (JS.blank _).
Qed.

Lemma snapshot_recordsLine ps it oi : snapshotOf ps it oi → recordsLine ps it oi.
Proof.
  intros (id & p & Hp & Hl & Ha & ->). exists p. simpl.
  split; [done|]. split; [done|]. split; [done|]. split; [done|].
  split; [done|]. split; [done|]. split; [|split].
  - unfold JS.str_or, JS.truthy. destruct (head (p_images p)) as [url|]; [|done].
    simpl. by destruct (String.eqb_spec url EmptyString).
  - by intros v ->.
  - intros Hno. destruct (variant it) as [[v|t]|]; [|done..]. by destruct (Hno v).
Qed.

(** X7. The items of a created order are the request's lines in their
    order: each names the product of its line, a stored and active one,
    and carries the quantity of the line with the name, the price and
    the first image that product has at that moment (the empty string
    when it has no image); a variant is recorded when the line gives an
    object, and not when it gives a string. The order is recorded for the
    requesting user, with the request's test flag. *)
Theorem created_items_are_snapshots clk user req s o s' :
  createOrder clk user req s = (Created o, s') →
  Forall2 (recordsLine (products s)) (items req) (o_items o)
  ∧ o_user o = user ∧ o_isTest o = isTest req.
Proof.
  intros H. pose proof (createOrder_Created_stored _ _ _ _ _ _ H) as Hlen.
  destruct (createOrder_stored _ _ _ _ _ _ H Hlen) as (o' & b & _ & _ & _ & Hsnap & Hr).
  destruct b; [|done]. injection Hr as ->. split.
  - eapply Forall2_impl; [exact Hsnap|]. apply snapshot_recordsLine.
  - by eapply created_for_user.
Qed.

(** ** Payment data *)

Lemma paymentMethodOf_bank m :
  paymentMethodOf (JS.str_or m "cash") = bank_transfer →
  m = Some "bank_transfer"%string.
Proof.
  unfold JS.str_or, JS.truthy. destruct m as [m|]; [|done]. simpl.
  destruct (String.eqb m EmptyString); simpl; [done|].
  unfold paymentMethodOf.
  destruct (String.eqb m "card"); [done|].
  destruct (String.eqb_spec m "bank_transfer"); [by subst|].
  by destruct (String.eqb m "stripe").
Qed.

(** X8. A request that passes the body validators and names a payment
    method that is not empty and is none of [cash], [card],
    [bank_transfer] and [stripe] is answered 400 and changes nothing. An
    empty method is read as no method: the order is created all the same
    and records [cash], as it does when no method is given. A created
    order names one of the four methods or none, and records the one it
    names; a created bank-transfer order always carries the transaction
    id of the request, which is not empty. *)
Theorem payment_is_checked clk user req s :
  (∀ m, payment req ≫= rq_method = Some m → m ≠ EmptyString →
        ¬ In m validPaymentMethods → checkCreateBody req = true →
        createOrder clk user req s = (InvalidPaymentMethod, s))
  ∧ (∀ o s', createOrder clk user req s = (Created o, s') →
       (payment req ≫= rq_method = None
        ∨ payment req ≫= rq_method = Some EmptyString →
        pay_method (o_payment o) = cash)
       ∧ (∀ m, payment req ≫= rq_method = Some m →
               (m = EmptyString ∧ pay_method (o_payment o) = cash)
               ∨ (m = "cash"%string ∧ pay_method (o_payment o) = cash)
               ∨ (m = "card"%string ∧ pay_method (o_payment o) = card)
               ∨ (m = "bank_transfer"%string
                  ∧ pay_method (o_payment o) = bank_transfer)
               ∨ (m = "stripe"%string ∧ pay_method (o_payment o) = stripe))
       ∧ (pay_method (o_payment o) = bank_transfer →
            ∃ t, pay_transactionId (o_payment o) = Some t ∧ t ≠ EmptyString
                 ∧ payment req ≫= rq_transactionId = Some t)).
Proof.
  split.
  - intros m Hm Hne Hnot Hbody. unfold createOrder. rewrite Hbody, Hm.
    assert (JS.truthy (Some m) = true) as ->.
    { unfold JS.truthy. by apply negb_true_iff, String.eqb_neq. }
    assert (includes validPaymentMethods (default EmptyString (Some m)) = false) as ->;
      [|done].
    apply not_true_is_false. by intros Hin%includes_In.
  - intros o s' H.
    assert (JS.truthy (payment req ≫= rq_method)
            && negb (includes validPaymentMethods
                       (default EmptyString (payment req ≫= rq_method))) = false
            ∧ bool_decide (payment req ≫= rq_method = Some "bank_transfer"%string)
              && negb (JS.truthy (payment req ≫= rq_transactionId)) = false)
      as [Hvalid Hbank].
    { unfold createOrder in H.
      destruct (negb (checkCreateBody req)); [done|].
      destruct (_ && negb (includes _ _)); [done|].
      by destruct (_ && negb (JS.truthy _)). }
    apply createOrder_Created in H as (st & ois & _ & Hc & _).
    apply Order_create_Some in Hc as (_ & -> & _).
    match goal with
    | |- context [Order_preSave ?q ?c ?d] =>
        destruct (Order_preSave_fields q c d) as (_ & _ & -> & _)
    end.
    simpl. split; [|split].
    + by intros [->| ->].
    + intros m Hm. rewrite Hm in Hvalid. rewrite Hm. cbn [default] in Hvalid.
      unfold JS.str_or. unfold JS.truthy in *.
      destruct (String.eqb m EmptyString) eqn:He; cbn [negb andb] in Hvalid; simpl.
      * left. apply String.eqb_eq in He. by split.
      * apply negb_false_iff, includes_In in Hvalid. right.
        destruct Hvalid as [H|[H|[H|[H|[]]]]]; simpl in H; rewrite <- H; simpl; tauto.
    + intros Hb%paymentMethodOf_bank.
      rewrite Hb in Hbank. rewrite bool_decide_eq_true_2 in Hbank by done.
      simpl in Hbank. apply negb_false_iff in Hbank. rewrite Hbank.
      unfold JS.truthy in Hbank.
      destruct (payment req ≫= rq_transactionId) as [t|]; [|done].
      exists t. split; [done|]. split; [|done].
      intros ->. done.
Qed.

(** ** A status update that fails after the restore loop *)

(** X9. The restore loop is not undone when the save that follows it
    fails. A first cancellation whose [estimatedDelivery] does not cast is
    answered 500 and leaves the order as it was, [cancelledAt] unset, but
    every product has been given back the totals recorded on the order's
    items (when the loop completes). *)
Theorem failed_cancellation_keeps_restore clk id req s order ps :
  orders s !! id = Some order → cancelledAt order = None →
  rq_newStatus req = Some "cancelled"%string →
  JS.truthy (rq_estimatedDelivery req) = true →
  restoreStock (o_items order) (products s) = (ps, true) →
  updateStatus clk id req InvalidDate s
  = (UpdateServerError, {| products := ps; orders := orders s |})
  ∧ ∀ pid, ps !! pid
           = afterRestore (qtyOf pid (o_items order)) (revenueOf pid (o_items order))
               <$> products s !! pid.
Proof.
  intros Hl Hca Hreq Hdate Hr. split; [|intros pid; by apply restoreStock_done].
  unfold updateStatus, checkStatusBody. rewrite Hreq, Hl. simpl.
  rewrite Hca. simpl. rewrite Hr. simpl.
  unfold applyTracking. rewrite Hdate.
  by destruct (JS.truthy (rq_trackingNumber req)).
Qed.
(** * The read routes of the orders *)

Lemma visibleTo_subseteq requester isAdmin os o :
  o ∈ visibleTo requester isAdmin os → o ∈ os.
Proof.
  unfold visibleTo. destruct isAdmin; [done|].
  intros Hin. by apply list_elem_of_filter in Hin as [_ Hin].
Qed.

Lemma visibleTo_own requester os o :
  o ∈ visibleTo requester false os → o_user o = requester.
Proof. intros Hin. by apply list_elem_of_filter in Hin as [Hu _]. Qed.

Lemma num_or_pos x d : notNegative x → 0 < d → 0 < JS.num_or x d.
Proof.
  intros Hx Hd. unfold JS.num_or. destruct x as [v|]; [|done].
  specialize (Hx v eq_refl). destruct (Z.eqb_spec v 0); lia.
Qed.

Lemma listOrders_Listed query requester isAdmin page limit s r :
  listOrders query requester isAdmin page limit s = Listed r →
  query ((JS.num_or page 1 - 1) * JS.num_or limit 10) (JS.num_or limit 10)
    (visibleTo requester isAdmin (orders s)) = Some (ol_orders r)
  ∧ ol_count r = length (ol_orders r)
  ∧ ol_total r = length (visibleTo requester isAdmin (orders s))
  ∧ ol_page r = JS.num_or page 1
  ∧ ol_pages r
    = ceilDiv (Z.of_nat (length (visibleTo requester isAdmin (orders s))))
        (JS.num_or limit 10).
Proof.
  unfold listOrders. cbv zeta. destruct (query _ _ _) as [found|]; [|done].
  by intros [= <-].
Qed.

Lemma listOrders_paged newestFirst query requester isAdmin page limit s :
  pagedBy newestFirst query → 0 < JS.num_or page 1 → 0 < JS.num_or limit 10 →
  ∃ r, listOrders query requester isAdmin page limit s = Listed r
       ∧ ol_orders r
         = take (Z.to_nat (JS.num_or limit 10))
             (drop (Z.to_nat ((JS.num_or page 1 - 1) * JS.num_or limit 10))
                (newestFirst (visibleTo requester isAdmin (orders s)))).
Proof.
  intros Hq Hp Hl. unfold listOrders. cbv zeta.
  assert (0 <= (JS.num_or page 1 - 1) * JS.num_or limit 10) as Hs by nia.
  rewrite (Hq _ _ _ Hs Hl). by eexists.
Qed.

(** X10. Whatever [page] and [limit] are, [total] of an answered listing
    counts exactly the requester's orders, or every order for an admin,
    and [count] is the length of the page. When [page] and [limit] are
    not negative the listing is answered, a requester who is not an admin
    is listed only orders of their own, every listed order is a stored
    order, and the page holds at most [limit] orders (10 when [limit] is
    missing, not a number, or 0). The store is assumed to answer the
    query, for a skip that is not negative and a positive limit, with a
    window of the matching orders in some order. *)
Theorem listOrders_scope newestFirst query requester isAdmin page limit s :
  (∀ r, listOrders query requester isAdmin page limit s = Listed r →
        ol_count r = length (ol_orders r)
        ∧ (isAdmin = false →
             ol_total r = length (filter (λ o, o_user o = requester) (orders s)))
        ∧ (isAdmin = true → ol_total r = length (orders s)))
  ∧ ((∀ l, newestFirst l ≡ₚ l) → pagedBy newestFirst query →
     notNegative page → notNegative limit →
     ∃ r, listOrders query requester isAdmin page limit s = Listed r
          ∧ (isAdmin = false → Forall (λ o, o_user o = requester) (ol_orders r))
          ∧ Forall (λ o, o ∈ orders s) (ol_orders r)
          ∧ Z.of_nat (ol_count r) <= JS.num_or limit 10).
Proof.
  split.
  - intros r Hr. apply listOrders_Listed in Hr as (_ & Hc & Ht & _).
    split; [done|]. rewrite Ht. by split; intros ->.
  - intros Hperm Hq Hpage Hlimit.
    pose proof (num_or_pos page 1 Hpage ltac:(lia)) as Hp.
    pose proof (num_or_pos limit 10 Hlimit ltac:(lia)) as Hl.
    destruct (listOrders_paged newestFirst query requester isAdmin page limit s Hq Hp Hl)
      as (r & Hr & Horders).
    exists r. split; [done|].
    assert (∀ o, o ∈ ol_orders r → o ∈ visibleTo requester isAdmin (orders s)) as Hin.
    { intros o Ho. rewrite Horders in Ho.
      apply subseteq_take, subseteq_drop in Ho. by rewrite Hperm in Ho. }
    split; [|split].
    + intros ->. apply Forall_forall. intros o Ho. by eapply visibleTo_own, Hin.
    + apply Forall_forall. intros o Ho. by eapply visibleTo_subseteq, Hin.
    + apply listOrders_Listed in Hr as (_ & -> & _). rewrite Horders, length_take. lia.
Qed.

Lemma chunks_concat {A} (n : nat) : ∀ (m : nat) (l : list A),
  (length l <= m * n)%nat →
  concat ((λ k, take n (drop (k * n) l)) <$> seq 0 m) = l.
Proof.
  induction m as [|m IH]; intros l Hlen.
  - simpl in *. by destruct l; [|simpl in Hlen; lia].
  - change (seq 0 (S m)) with (0%nat :: seq 1 m). rewrite fmap_cons.
    rewrite <- fmap_S_seq, <- list_fmap_compose.
    transitivity (take n l ++ drop n l); [|apply take_drop].
    simpl concat. f_equal.
    rewrite <- (IH (drop n l)) by (rewrite length_drop; lia).
    f_equal. apply list_fmap_ext. intros _ k _. simpl.
    rewrite drop_drop. repeat f_equal; lia.
Qed.

Lemma ceilDiv_covers a b : 0 < b → a <= ceilDiv a b * b.
Proof.
  intros Hb. unfold ceilDiv.
  pose proof (Z.div_mod (- a) b ltac:(lia)) as Hdm.
  pose proof (Z.mod_pos_bound (- a) b Hb) as Hlt.
  nia.
Qed.

Lemma ceilDiv_nonneg a b : 0 <= a → 0 < b → 0 <= ceilDiv a b.
Proof.
  intros Ha Hb. unfold ceilDiv.
  assert (- a / b <= 0); [|lia].
  apply Z.div_le_upper_bound; lia.
Qed.

Lemma ceilDiv_negative a b : 0 <= a → b < 0 → ceilDiv a b <= 0.
Proof.
  intros Ha Hb. unfold ceilDiv.
  assert (0 <= - a / b); [|lia].
  replace (- a / b) with (a / - b).
  - apply Z.div_pos; lia.
  - rewrite <- (Z.div_opp_opp a (- b)) by lia. f_equal. lia.
Qed.

(** X11. When [limit] is not negative, the pages of a listing cover it
    exactly once: every page from 1 on is answered with the same number
    of [pages]; read one after the other, pages [1 .. pages] give the
    whole sorted listing, nothing missing and nothing twice; and every
    page after the last is empty. With a negative [limit], which no
    validator refuses, [pages] of an answered listing is 0 or below,
    whatever the store holds. The store is assumed to answer the query,
    for a skip that is not negative and a positive limit, with a window
    of the sorted orders. *)
Theorem listOrders_pages newestFirst query requester isAdmin limit s :
  let whole := newestFirst (visibleTo requester isAdmin (orders s)) in
  let pageOf p := listOrders query requester isAdmin (Some p) limit s in
  ((∀ l, length (newestFirst l) = length l) → pagedBy newestFirst query →
   notNegative limit →
   ∃ pages,
     (∀ p, 0 < p → ∃ r, pageOf p = Listed r ∧ ol_page r = p ∧ ol_pages r = pages)
     ∧ concat ((λ p, listed (pageOf p)) <$> pageNumbers pages) = whole
     ∧ ∀ p, pages < p → listed (pageOf p) = [])
  ∧ (∀ v p r, limit = Some v → v < 0 → pageOf p = Listed r → ol_pages r <= 0).
Proof.
  intros whole pageOf. split.
  - intros Hlen Hq Hlimit.
    set (n := JS.num_or limit 10).
    assert (0 < n) as Hn by (apply num_or_pos; [done|lia]).
    set (total := length (visibleTo requester isAdmin (orders s))).
    set (pages := ceilDiv (Z.of_nat total) n).
    assert (0 <= pages) as Hpages by (apply ceilDiv_nonneg; lia).
    pose proof (ceilDiv_covers (Z.of_nat total) n Hn) as Hcover. fold pages in Hcover.
    assert (∀ p, 0 < p →
              ∃ r, pageOf p = Listed r ∧ ol_page r = p ∧ ol_pages r = pages
                   ∧ listed (pageOf p)
                     = take (Z.to_nat n) (drop ((Z.to_nat p - 1) * Z.to_nat n) whole))
      as Hpage.
    { intros p Hp.
      assert (JS.num_or (Some p) 1 = p) as Hnum.
      { unfold JS.num_or. destruct (Z.eqb_spec p 0); [lia|done]. }
      destruct (listOrders_paged newestFirst query requester isAdmin (Some p) limit s Hq)
        as (r & Hr & Horders); [lia|done|].
      exists r. unfold pageOf. rewrite Hr. simpl.
      pose proof (listOrders_Listed _ _ _ _ _ _ _ Hr) as (_ & _ & _ & Hpg & Hpgs).
      split; [done|]. split; [congruence|]. split; [done|].
      rewrite Horders, Hnum. fold n whole. do 2 f_equal. nia. }
    exists pages. split; [|split].
    + intros p Hp. destruct (Hpage p Hp) as (r & ? & ? & ? & _). by exists r.
    + unfold pageNumbers.
      rewrite <- (chunks_concat (Z.to_nat n) (Z.to_nat pages) whole).
      2: { unfold whole. rewrite Hlen. fold total. nia. }
      rewrite <- fmap_S_seq, <- !list_fmap_compose. f_equal.
      apply list_fmap_ext. intros _ k _. unfold compose.
      destruct (Hpage (Z.of_nat (S k)) ltac:(lia)) as (_ & _ & _ & _ & ->).
      repeat f_equal; lia.
    + intros p Hp. destruct (Hpage p ltac:(lia)) as (_ & _ & _ & _ & ->).
      rewrite drop_ge; [by rewrite take_nil|].
      unfold whole. rewrite Hlen. fold total. nia.
  - intros v p r -> Hv Hr.
    apply listOrders_Listed in Hr as (_ & _ & _ & _ & ->).
    apply ceilDiv_negative; [lia|].
    unfold JS.num_or. destruct (Z.eqb_spec v 0); lia.
Qed.

(** X12. A requester who is not an admin can read an order only if it is
    their own. The order of a 201 answer can be read under the id it was
    stored with by its creator and by any admin, and by no other
    non-admin user, after any further requests to the order routes. *)
Theorem getOrder_access clk user req s o s1 s2 :
  createOrder clk user req s = (Created o, s1) → rtc step s1 s2 →
  let id := length (orders s) in
  (∀ v id' o', getOrder v false id' s2 = Found o' → o_user o' = v)
  ∧ (∃ o', getOrder user false id s2 = Found o' ∧ sameCore o o')
  ∧ (∀ v, ∃ o', getOrder v true id s2 = Found o')
  ∧ (∀ v, v ≠ user → getOrder v false id s2 = Forbidden).
Proof.
  intros Hcreate Hreach id.
  assert (orders s1 !! id = Some o ∧ o_user o = user) as [Hl Hu].
  { destruct (created_for_user _ _ _ _ _ _ Hcreate) as [Hu _].
    split; [|done].
    apply createOrder_Created in Hcreate as (st & ois & _ & Hc & _).
    apply Order_create_Some in Hc as (_ & _ & ->).
    rewrite lookup_app_r by done. unfold id. by rewrite Nat.sub_diag. }
  destruct (steps_keep_order _ _ Hreach _ _ Hl) as (o' & Hl' & Hcore & _).
  assert (o_user o' = user) as Hu' by (destruct Hcore as [-> _]; done).
  split; [|split; [|split]].
  - intros v id' o1. unfold getOrder. destruct (orders s2 !! id') as [o2|]; [|done].
    case_bool_decide as Hv; simpl; [by intros [= <-]|done].
  - exists o'. split; [|done]. unfold getOrder. rewrite Hl'.
    by rewrite bool_decide_eq_true_2.
  - intros v. exists o'. unfold getOrder. rewrite Hl'. by rewrite andb_false_r.
  - intros v Hne. unfold getOrder. rewrite Hl'.
    rewrite bool_decide_eq_false_2 by congruence. done.
Qed.
(** * The product routes *)

Lemma assign_Some {A} given (value : option (Field A)) stored v :
  assign given value stored = Some v →
  (given = false ∧ v = stored)
  ∨ (given = true ∧ ∃ x, value = Some x ∧ cast x = Some v).
Proof.
  unfold assign. destruct given.
  - destruct value as [x|]; simpl; [|done]. intros H. right. split; [done|]. by exists x.
  - intros [= <-]. by left.
Qed.

Lemma applyProductReq_Some body p p' :
  applyProductReq body p = Some p' →
  sales_count p' = sales_count p ∧ sales_revenue p' = sales_revenue p
  ∧ assign (truthyNumber (pq_price body)) (pq_price body) (p_price p)
    = Some (p_price p')
  ∧ assign (truthyNumber (sq_quantity (default (mkStockReq None None) (pq_stock body))))
      (sq_quantity (default (mkStockReq None None) (pq_stock body)))
      (stock_quantity p)
    = Some (stock_quantity p')
  ∧ assign (JS.defined (sq_trackInventory (default (mkStockReq None None) (pq_stock body))))
      (sq_trackInventory (default (mkStockReq None None) (pq_stock body)))
      (stock_trackInventory p)
    = Some (stock_trackInventory p')
  ∧ assign (JS.defined (pq_isActive body)) (pq_isActive body) (p_isActive p)
    = Some (p_isActive p').
Proof.
  unfold applyProductReq. cbv zeta.
  destruct (assign _ (pq_price body) _) as [price|]; [|done].
  destruct (assign _ (sq_quantity _) _) as [quantity|]; [|done].
  destruct (assign _ (sq_trackInventory _) _) as [track|]; [|done].
  destruct (assign _ (pq_isActive body) _) as [active|]; [|done].
  simpl. by intros [= <-].
Qed.

Lemma updateProduct_cases id body s r s' :
  updateProduct id body s = (r, s') →
  (products s !! id = None ∧ r = UpdateMissing ∧ s' = s)
  ∨ ∃ p, products s !! id = Some p
      ∧ ((r = ProductServerError ∧ s' = s
          ∧ ∀ p', applyProductReq body p = Some p' →
                  pq_restAccepted body && Product_validate p' = false)
         ∨ ∃ p', applyProductReq body p = Some p'
            ∧ r = ProductUpdated p'
            ∧ s' = {| products := <[id := p']> (products s); orders := orders s |}
            ∧ 0 <= p_price p' ∧ 0 <= stock_quantity p'
            ∧ p_name p' ≠ EmptyString).
Proof.
  unfold updateProduct. destruct (products s !! id) as [p|]; [|intros [= <- <-]; by left].
  intros H. right. exists p. split; [done|].
  destruct (applyProductReq body p) as [p'|]; [|injection H as <- <-; by left].
  destruct (pq_restAccepted body && Product_validate _) eqn:Hok; injection H as <- <-.
  - right. exists p'. apply andb_true_iff in Hok as [_ Hv].
    apply andb_true_iff in Hv as [Hv Hq]. apply andb_true_iff in Hv as [Hn Hp].
    apply Z.leb_le in Hp, Hq. apply negb_true_iff, String.eqb_neq in Hn. done.
  - left. split; [done|]. split; [done|]. by intros p1 [= <-].
Qed.

(** A number the schema refuses is not written. *)
Lemma refused_not_assigned (x : Field Z) stored v :
  refusedNumber x →
  assign (truthyNumber (Some x)) (Some x) stored = Some v → v < 0.
Proof.
  destruct x as [n|text value]; simpl.
  - intros Hn. unfold assign. simpl. destruct (Z.eqb_spec n 0); [lia|].
    simpl. by intros [= <-].
  - intros [Ht Hv]. unfold assign. simpl.
    apply String.eqb_neq in Ht. rewrite Ht. simpl.
    destruct Hv as [->|(n & -> & Hn)]; [done|]. by intros [= <-].
Qed.

(** X13. What the update route makes of a price and of a stock quantity,
    which are whole numbers in this model. A JSON number 0 is read as
    absent: the stored value stays. The text [0], which is what a
    multipart form sends, is written as 0. A negative number, as a JSON
    number or as a text, and a text that is no number are refused, and
    nothing at all is written. An accepted update leaves the two sales
    counters, every other product and every order as they were, and the
    product it writes has a name, a price and a stock that are not
    negative; an unknown id is answered 404 with the store unchanged. *)
Theorem updateProduct_edges id body s r s' :
  updateProduct id body s = (r, s') →
  (products s !! id = None → r = UpdateMissing ∧ s' = s)
  ∧ (r = ProductServerError → s' = s)
  ∧ (∀ p, products s !! id = Some p →
       (∀ x, pq_price body = Some x → refusedNumber x → r = ProductServerError)
       ∧ (∀ stock x, pq_stock body = Some stock → sq_quantity stock = Some x →
                     refusedNumber x → r = ProductServerError)
       ∧ (∀ p', r = ProductUpdated p' →
            products s' = <[id := p']> (products s) ∧ orders s' = orders s
            ∧ sales_count p' = sales_count p ∧ sales_revenue p' = sales_revenue p
            ∧ 0 <= p_price p' ∧ 0 <= stock_quantity p'
            ∧ p_name p' ≠ EmptyString
            ∧ (pq_price body = Some (Json 0) → p_price p' = p_price p)
            ∧ (∀ text, pq_price body = Some (FormText text (Some 0)) →
                       text ≠ EmptyString → p_price p' = 0)
            ∧ (∀ stock, pq_stock body = Some stock →
                        sq_quantity stock = Some (Json 0) →
                        stock_quantity p' = stock_quantity p)
            ∧ (∀ stock text, pq_stock body = Some stock →
                             sq_quantity stock = Some (FormText text (Some 0)) →
                             text ≠ EmptyString → stock_quantity p' = 0))).
Proof.
  intros H.
  apply updateProduct_cases in H
    as [(Hl & -> & ->)|(p & Hl & [(-> & -> & Hno)|(p' & Ha & -> & -> & Hp & Hq & Hn)])].
  - split; [done|]. split; [done|]. intros p Hl'. congruence.
  - split; [intros; congruence|]. split; [done|]. intros p0 _.
    split; [done|]. split; [done|]. intros p' [=].
  - split; [intros; congruence|]. split; [done|]. intros p0 Hl0.
    assert (p0 = p) as -> by congruence.
    apply applyProductReq_Some in Ha as (Hc & Hr & Hprice & Hqty & _).
    split; [|split].
    + intros x Hx Hbad. exfalso. rewrite Hx in Hprice.
      apply (refused_not_assigned x _ _ Hbad) in Hprice. lia.
    + intros stock x Hst Hx Hbad. exfalso. rewrite Hst in Hqty. simpl in Hqty.
      rewrite Hx in Hqty. apply (refused_not_assigned x _ _ Hbad) in Hqty. lia.
    + intros p1 [= <-]. split; [done|]. split; [done|]. split; [done|].
      split; [done|]. split; [done|]. split; [done|]. split; [done|].
      split; [|split; [|split]].
      * intros Hz. rewrite Hz in Hprice. by injection Hprice as <-.
      * intros text Hz Ht. rewrite Hz in Hprice. unfold assign in Hprice.
        simpl in Hprice. apply String.eqb_neq in Ht. rewrite Ht in Hprice.
        by injection Hprice as <-.
      * intros stock Hst Hz. rewrite Hst in Hqty. simpl in Hqty.
        rewrite Hz in Hqty. by injection Hqty as <-.
      * intros stock text Hst Hz Ht. rewrite Hst in Hqty. simpl in Hqty.
        rewrite Hz in Hqty. unfold assign in Hqty. simpl in Hqty.
        apply String.eqb_neq in Ht. rewrite Ht in Hqty. by injection Hqty as <-.
Qed.

Lemma anyStep_stockNonneg s s' :
  anyStep s s' → stockNonneg (products s) → stockNonneg (products s').
Proof.
  intros [Hstep|id body r H|id r H] Hinv.
  - by eapply step_stockNonneg.
  - apply updateProduct_cases in H
      as [(_ & _ & ->)|(p & Hl & [(_ & -> & _)|(p1 & _ & _ & -> & _ & Hq & _)])];
      [done..|].
    intros id' p' Hl' Ht. simpl in Hl'.
    apply lookup_insert_Some in Hl' as [[_ <-]|[_ Hl']]; [done|]. by eapply Hinv.
  - unfold deleteProduct in H. destruct (products s !! id); injection H as _ <-; [|done].
    intros id' p' Hl' Ht. simpl in Hl'.
    apply lookup_delete_Some in Hl' as [_ Hl']. by eapply Hinv.
Qed.

(** X14. No tracked product has a negative stock in any store reached
    by serving order creations, status updates, product updates and
    product deletions, accepted or not, from a store where none has. *)
Theorem stock_never_negative_any_route s s' :
  stockNonneg (products s) → rtc anyStep s s' → stockNonneg (products s').
Proof.
  intros Hinv Hreach. induction Hreach as [|s1 s2 s3 Hstep _ IH]; [done|].
  apply IH. by eapply anyStep_stockNonneg.
Qed.

Lemma createOrder_rejects clk user req s :
  failsBusinessRule req s →
  ∃ e, createOrder clk user req s = (e, s) ∧ isRejection e.
Proof.
  intros Hfail. unfold createOrder.
  destruct (negb (checkCreateBody req)); [by eexists|].
  destruct (_ && negb (includes _ _)); [by eexists|].
  destruct Hfail as [[Hm Ht]|Hex].
  - rewrite Hm, Ht. simpl. by eexists.
  - destruct (_ && negb (JS.truthy _)); [by eexists|].
    destruct (validateItems_inl _ _ _ 0 [] Hex) as (e & -> & He). by eexists.
Qed.

(** X15. A product that an admin deleted, or deactivated through the
    update route, cannot be ordered: it is not stored any more, or is
    stored as not active, and every order request with a line that names
    it is rejected with a 400 that changes nothing. *)
Theorem unavailable_products_are_not_sold id s :
  (∀ s', deleteProduct id s = (ProductDeleted, s') → products s' !! id = None)
  ∧ (∀ body p' s' x, updateProduct id body s = (ProductUpdated p', s') →
       pq_isActive body = Some x → cast x = Some false →
       products s' !! id = Some p' ∧ p_isActive p' = false)
  ∧ (unavailable id s →
       ∀ clk user req it, it ∈ items req → product it = Some id →
         ∃ e, createOrder clk user req s = (e, s) ∧ isRejection e).
Proof.
  split; [|split].
  - intros s'. unfold deleteProduct.
    destruct (products s !! id); intros [= <-]. simpl. by rewrite lookup_delete_eq.
  - intros body p' s' x H Hoff Hx.
    apply updateProduct_cases in H
      as [(_ & ? & _)|(p & Hl & [(? & _)|(p1 & Ha & [= <-] & -> & _)])]; [done..|].
    cbn [products]. rewrite lookup_insert_eq. split; [done|].
    apply applyProductReq_Some in Ha as (_ & _ & _ & _ & _ & Hact).
    rewrite Hoff in Hact. simpl in Hact. unfold assign in Hact. simpl in Hact. congruence.
  - unfold unavailable. intros Hun clk user req it Hin Hp.
    apply createOrder_rejects. right.
    apply Exists_exists. exists it. split; [done|]. unfold itemFails.
    rewrite Hp. destruct (products s !! id) as [p|]; [|done]. by left.
Qed.

Lemma counters_restored p q :
  counters (afterRestore q (p_price p * q) (afterSale q p)) = counters p.
Proof. by rewrite sale_then_restore. Qed.

Lemma counters_repriced body p p' q :
  pq_stock body = None →
  applyProductReq body (afterSale q p) = Some p' →
  counters (afterRestore q (p_price p * q) p') = counters p.
Proof.
  intros Hs Ha.
  apply applyProductReq_Some in Ha as (Hc & Hr & _ & Hqty & Htrack & _).
  rewrite Hs in Hqty, Htrack. simpl in Hqty, Htrack. unfold assign in Hqty, Htrack.
  simpl in Hqty, Htrack. injection Hqty as Hqty. injection Htrack as Htrack.
  unfold counters, afterRestore. rewrite <- Htrack.
  unfold afterSale in *. destruct (stock_trackInventory p) eqn:Ht; simpl in *.
  - rewrite Ht. simpl. rewrite <- Hqty, Hc, Hr. repeat f_equal; lia.
  - rewrite Ht. by rewrite <- Hqty, Hc, Hr.
Qed.

(** X16. A cancellation takes back what the order added at the price the
    order recorded, not at the product's price of the day. With prices
    and quantities that are whole numbers: when an admin changes name,
    price, images or [isActive] of a product (not its stock) between a
    201 creation and the first accepted cancellation of that order, the
    cancellation still puts [stock.quantity], [sales.count] and
    [sales.revenue] of every product back to their values before the
    creation. *)
Theorem repriced_cancellation clk user req s o s1 pid body p' s2 clk' creq parsed saved s3 :
  createOrder clk user req s = (Created o, s1) →
  updateProduct pid body s1 = (ProductUpdated p', s2) →
  pq_stock body = None →
  rq_newStatus creq = Some "cancelled"%string →
  updateStatus clk' (length (orders s)) creq parsed s2 = (Updated saved, s3) →
  ∀ id, counters <$> products s3 !! id = counters <$> products s !! id.
Proof.
  intros Hcreate Hupd Hstock Hreq Hcancel id.
  pose proof (created_records_sale _ _ _ _ _ _ Hcreate id) as [Hsale Hrev].
  assert (orders s1 !! length (orders s) = Some o ∧ cancelledAt o = None) as [Hl Hca].
  { apply createOrder_Created in Hcreate as (st & ois & _ & Hc & _).
    apply Order_create_Some in Hc as (_ & -> & ->). split.
    - rewrite lookup_app_r by done. by rewrite Nat.sub_diag.
    - unfold Order_preSave. by destruct (JS.blank _). }
  apply updateProduct_cases in Hupd
    as [(_ & ? & _)|(p1 & Hl1 & [(? & _)|(p2 & Ha & [= <-] & -> & _)])]; [done..|].
  destruct (first_cancellation clk' _ creq parsed
              {| products := <[pid := p']> (products s1);
                 orders := orders s1 |} o saved s3 Hl Hca Hreq Hcancel) as (Hback & _).
  rewrite (Hback id). cbn [products].
  destruct (decide (pid = id)) as [->|Hne].
  - rewrite lookup_insert_eq. rewrite Hl1 in Hsale.
    destruct (products s !! id) as [p0|] eqn:Hl0; [|done].
    simpl in Hsale. injection Hsale as ->. simpl. f_equal.
    rewrite (Hrev p0 eq_refl). by eapply counters_repriced.
  - rewrite lookup_insert_ne by done. rewrite Hsale.
    destruct (products s !! id) as [p0|] eqn:Hl0; [|done]. simpl. f_equal.
    rewrite (Hrev p0 eq_refl). apply counters_restored.
Qed.

(** * Slugs and tags *)

Section Strings.

Implicit Types (s t : list N) (c : N).

Lemma dropWhite_head s c : head (dropWhite s) = Some c → isWhite c = false.
Proof.
  induction s as [|d r IH]; simpl; [done|].
  destruct (isWhite d) eqn:Hd; [done|]. by intros [= <-].
Qed.

Lemma dropWhite_suffix s : ∃ w, s = w ++ dropWhite s ∧ forallb isWhite w = true.
Proof.
  induction s as [|d r (w & Hw & Hall)]; simpl; [by exists []|].
  destruct (isWhite d) eqn:Hd.
  - exists (d :: w). simpl. rewrite Hd, Hall. split; [by rewrite <- Hw|done].
  - by exists [].
Qed.

Lemma dropWhite_nil s : dropWhite s = [] ↔ forallb isWhite s = true.
Proof.
  induction s as [|d r IH]; simpl; [done|]. by destruct (isWhite d).
Qed.

Lemma trim_last s c : last (trim s) = Some c → isWhite c = false.
Proof.
  unfold trim. rewrite last_reverse. apply dropWhite_head.
Qed.

Lemma trim_head s c : head (trim s) = Some c → isWhite c = false.
Proof.
  unfold trim. set (u := dropWhite s).
  destruct (dropWhite_suffix (reverse u)) as (w & Hw & _).
  set (v := dropWhite (reverse u)) in *.
  assert (u = reverse v ++ reverse w) as Hu.
  { rewrite <- reverse_app, <- Hw. by rewrite reverse_involutive. }
  intros Hh. apply (dropWhite_head s). fold u. rewrite Hu.
  destruct (reverse v); [done|]. done.
Qed.

Lemma forallb_reverse (f : N → bool) s : forallb f (reverse s) = forallb f s.
Proof.
  apply eq_true_iff_eq. rewrite !forallb_forall. split; intros H x Hx; apply H;
    apply list_elem_of_In; apply list_elem_of_In in Hx; by apply elem_of_reverse.
Qed.

Lemma trim_nil s : trim s = [] ↔ forallb isWhite s = true.
Proof.
  unfold trim. split.
  - intros H. apply (f_equal reverse) in H. rewrite reverse_involutive in H.
    simpl in H. apply dropWhite_nil in H. rewrite forallb_reverse in H.
    destruct (dropWhite_suffix s) as (w & Hw & Hall). rewrite Hw.
    by rewrite forallb_app, Hall, H.
  - intros H. apply dropWhite_nil in H. by rewrite H.
Qed.

Lemma hyphenRuns_Forall (P : N → Prop) b s :
  Forall P s → Forall P (hyphenRuns b s).
Proof.
  intros H. revert b. induction H as [|c r Hc _ IH]; intros b; simpl; [done|].
  destruct (N.eqb_spec c hyphen) as [->|_].
  - destruct b; [apply IH|]. constructor; [done|apply IH].
  - constructor; [done|apply IH].
Qed.

Lemma hyphenRuns_shape s : ∀ b,
  noDoubleHyphen (hyphenRuns b s)
  ∧ (b = true → head (hyphenRuns b s) ≠ Some hyphen).
Proof.
  induction s as [|c r IH]; intros b; simpl; [done|].
  destruct (N.eqb_spec c hyphen) as [->|Hne].
  - destruct b.
    + apply IH.
    + split; [|done]. destruct (IH true) as [Hnd Hh]. simpl.
      destruct (hyphenRuns true r) as [|d r'] eqn:Hr; [done|].
      split; [|done]. intros [_ ->]. by apply Hh.
  - split; [|by intros _ [= ->]]. destruct (IH false) as [Hnd _]. simpl.
    destruct (hyphenRuns false r) as [|d r'] eqn:Hr; [done|].
    split; [|done]. by intros [-> _].
Qed.

Lemma stripLead_Forall (P : N → Prop) s : Forall P s → Forall P (stripLead s).
Proof.
  intros H. destruct H as [|c r Hc Hr]; simpl; [done|].
  destruct (c =? hyphen)%N; [done|by constructor].
Qed.

Lemma noDoubleHyphen_tail c r : noDoubleHyphen (c :: r) → noDoubleHyphen r.
Proof. simpl. destruct r; [done|]. by intros [_ ?]. Qed.

Lemma stripLead_shape s :
  noDoubleHyphen s →
  noDoubleHyphen (stripLead s) ∧ head (stripLead s) ≠ Some hyphen.
Proof.
  destruct s as [|c r]; simpl; [done|]. intros Hnd.
  destruct (N.eqb_spec c hyphen) as [->|Hne].
  - split; [by eapply noDoubleHyphen_tail|].
    destruct r as [|d r']; [done|]. simpl. intros [= ->]. by destruct Hnd as [[] _].
  - split; [done|]. by intros [= ->].
Qed.

Lemma stripTrail_Forall (P : N → Prop) s : Forall P s → Forall P (stripTrail s).
Proof.
  induction 1 as [|c r Hc Hr IH]; simpl; [done|]. destruct r as [|d r'].
  - destruct (c =? hyphen)%N; [done|by constructor].
  - by constructor.
Qed.

Lemma stripTrail_nil s : stripTrail s = [] → s = [] ∨ s = [hyphen].
Proof.
  destruct s as [|c [|d r]]; simpl; [by left| |done].
  destruct (N.eqb_spec c hyphen) as [->|_]; [by right|done].
Qed.

Lemma stripTrail_head d r e t : stripTrail (d :: r) = e :: t → e = d.
Proof.
  destruct r as [|f r]; simpl.
  - destruct (d =? hyphen)%N; [done|]. by intros [= <- _].
  - by intros [= <- _].
Qed.

Lemma stripTrail_shape s :
  noDoubleHyphen s →
  noDoubleHyphen (stripTrail s)
  ∧ (head s ≠ Some hyphen → head (stripTrail s) ≠ Some hyphen)
  ∧ last (stripTrail s) ≠ Some hyphen.
Proof.
  induction s as [|c r IH]; [done|]. intros Hnd.
  destruct r as [|d r'].
  - simpl. destruct (N.eqb_spec c hyphen) as [->|Hne]; [done|].
    split; [done|]. split; [done|]. simpl. by intros [= ->].
  - destruct (IH (noDoubleHyphen_tail _ _ Hnd)) as (Hnd' & Hh' & Hl').
    change (stripTrail (c :: d :: r')) with (c :: stripTrail (d :: r')).
    destruct Hnd as [Hcd Hnd].
    destruct (stripTrail (d :: r')) as [|e t] eqn:Ht.
    + apply stripTrail_nil in Ht as [Ht|[= -> ->]]; [done|].
      split; [done|]. split; [done|]. simpl. intros [= ->]. by apply Hcd.
    + split; [|split; [done|]].
      * simpl. split; [|done]. intros [Hc He]. apply Hcd. split; [done|].
        apply stripTrail_head in Ht. congruence.
      * by rewrite last_cons_cons.
Qed.

Lemma slugOf_wellFormed lower name : wellFormedSlug (slugOf lower name).
Proof.
  unfold slugOf, stripEdges.
  set (kept := filter (λ c, slugUnit c = true) _).
  assert (Forall (λ c, slugUnit c = true) kept) as Hall.
  { apply Forall_forall. intros c Hc. by apply list_elem_of_filter in Hc as [? _]. }
  destruct (hyphenRuns_shape kept false) as [Hnd _].
  destruct (stripLead_shape _ Hnd) as [Hnd1 Hh1].
  destruct (stripTrail_shape _ Hnd1) as (Hnd2 & Hh2 & Hl2).
  split; [|split; [done|split; [by apply Hh2|done]]].
  by apply stripTrail_Forall, stripLead_Forall, hyphenRuns_Forall.
Qed.

Lemma fallbackSlug_not_blank clk : blankUnits (Some (fallbackSlug clk)) = false.
Proof. reflexivity. Qed.

End Strings.

(** X17. The slug made from a product name, by the model's hook and by
    the repair script alike, is never blank; unless it is the
    [product-<time>-<random>] fallback it consists of Arabic letters,
    [a-z], digits and hyphens only, has no two hyphens in a row and
    neither starts nor ends with a hyphen. A name that is missing or
    blank gets the fallback. *)
Theorem generateSlug_shape lower clk name :
  let slug := generateSlug lower clk name in
  blankUnits (Some slug) = false
  ∧ (slug = fallbackSlug clk ∨ wellFormedSlug slug)
  ∧ (blankUnits name = true → slug = fallbackSlug clk).
Proof.
  unfold generateSlug. destruct (blankUnits name) eqn:Hn; cbv zeta.
  - split; [apply (fallbackSlug_not_blank clk)|]. split; [by left|done].
  - destruct (blankUnits (Some (slugOf lower (default [] name)))) eqn:Hb.
    + split; [apply (fallbackSlug_not_blank clk)|]. split; [by left|done].
    + split; [done|]. split; [right; apply slugOf_wellFormed|done].
Qed.

(** ** The slug loop *)

Lemma units_inj s1 s2 : units s1 = units s2 → s1 = s2.
Proof.
  unfold units. intros H.
  assert (list_ascii_of_string s1 = list_ascii_of_string s2) as Hl.
  { revert H. generalize (list_ascii_of_string s1) (list_ascii_of_string s2).
    induction l as [|a l IH]; intros [|b l']; simpl; try done.
    intros [= Hab Hl]. f_equal; [|by apply IH].
    by rewrite <- (ascii_N_embedding a), <- (ascii_N_embedding b), Hab. }
  by rewrite <- (string_of_list_ascii_of_string s1),
             <- (string_of_list_ascii_of_string s2), Hl.
Qed.

Lemma String__inj n m : JS.String_ n = JS.String_ m → n = m.
Proof.
  unfold JS.String_. intros H.
  assert (Some (N.to_uint n) = Some (N.to_uint m)) as [= Hu].
  { by rewrite <- !NilEmpty.usu, H. }
  by rewrite <- (Unsigned.of_to n), <- (Unsigned.of_to m), Hu.
Qed.

Lemma slugCandidate_inj slug j k :
  slugCandidate slug j = slugCandidate slug k → j = k.
Proof.
  assert (∀ i, slug ≠ numberedSlug slug (S i)) as Hbase.
  { intros i H. apply (f_equal length) in H. unfold numberedSlug in H.
    rewrite !length_app in H. simpl in H. lia. }
  destruct j as [|j], k as [|k]; simpl; intros H.
  - done.
  - by apply Hbase in H.
  - symmetry in H. by apply Hbase in H.
  - unfold numberedSlug in H. apply app_inv_head in H.
    injection H as H. apply units_inj, String__inj in H. lia.
Qed.

(** At most as many candidates as there are slugs can all be taken. *)
Lemma candidates_taken (others : list (list N)) slug j :
  (∀ i, (i < j)%nat → slugCandidate slug i ∈ others) → (j <= length others)%nat.
Proof.
  intros Htaken.
  assert (NoDup (slugCandidate slug <$> seq 0 j)) as Hnd.
  { apply NoDup_fmap_2; [|apply NoDup_seq]. intros ? ?. apply slugCandidate_inj. }
  assert (slugCandidate slug <$> seq 0 j ⊆ others) as Hsub.
  { intros x Hx. apply list_elem_of_fmap in Hx as (i & -> & Hi).
    apply elem_of_seq in Hi. apply Htaken. lia. }
  pose proof (submseteq_length _ _ (NoDup_submseteq _ _ Hnd Hsub)) as Hlen.
  by rewrite length_fmap, length_seq in Hlen.
Qed.

Lemma slugLoop_free (others : list (list N)) slug : ∀ fuel j,
  (length others < fuel + j)%nat →
  (∀ i, (i < j)%nat → slugCandidate slug i ∈ others) →
  ∃ k, slugLoop (λ x, bool_decide (x ∈ others)) slug fuel (S j)
         (slugCandidate slug j) = Some (slugCandidate slug k)
       ∧ (j <= k)%nat
       ∧ (slugCandidate slug k ∉ others)
       ∧ ∀ i, (i < k)%nat → slugCandidate slug i ∈ others.
Proof.
  induction fuel as [|fuel IH]; intros j Hfuel Htaken.
  - apply candidates_taken in Htaken. simpl in Hfuel. lia.
  - simpl. case_bool_decide as Hin.
    + destruct (IH (S j)) as (k & Hk & Hjk & Hfree & Hbelow); [lia| |].
      { intros i Hi. destruct (decide (i = j)) as [->|]; [done|].
        apply Htaken. lia. }
      exists k. split; [exact Hk|]. split; [lia|done].
    + exists j. by split.
Qed.

Lemma uniqueSlug_spec others slug :
  ∃ k, uniqueSlug others slug = Some (slugCandidate slug k)
       ∧ (k <= length others)%nat
       ∧ (slugCandidate slug k ∉ others)
       ∧ (∀ i, (i < k)%nat → slugCandidate slug i ∈ others).
Proof.
  destruct (slugLoop_free others slug (S (length others)) 0) as (k & Hk & _ & Hfree & Hbelow);
    [lia|intros i Hi; lia|].
  exists k. split; [exact Hk|]. split; [by apply (candidates_taken others slug)|].
  by split.
Qed.

(** X18. The slug loop of the hook and of the repair script always ends:
    after at most as many rounds as other products hold a slug, it is
    left with a slug that none of them holds. The slug is kept as it is
    when it is free; otherwise it is the slug with [-k] added, for the
    first [k = 1, 2, ...] that is free. *)
Theorem uniqueSlug_free others slug :
  ∃ k, uniqueSlug others slug = Some (slugCandidate slug k)
       ∧ (k <= length others)%nat
       ∧ (slugCandidate slug k ∉ others)
       ∧ (∀ i, (i < k)%nat → slugCandidate slug i ∈ others)
       ∧ (slug ∉ others → slugCandidate slug k = slug).
Proof.
  destruct (uniqueSlug_spec others slug) as (k & Hk & Hlen & Hfree & Hbelow).
  exists k. split; [exact Hk|]. split; [done|]. split; [done|]. split; [done|].
  intros Hslug. destruct k as [|k]; [done|].
  exfalso. apply Hslug. apply (Hbelow 0%nat). lia.
Qed.

Lemma slugCandidate_not_blank slug k :
  blankUnits (Some slug) = false → blankUnits (Some (slugCandidate slug k)) = false.
Proof.
  destruct k as [|k]; [done|]. simpl. unfold numberedSlug. rewrite forallb_app.
  by intros ->.
Qed.

(** X19. The slug hook of the product model leaves a document with a
    slug that is not blank. A slug that is already there is kept. A document without slug but
    with a name gets a slug that no other product holds. *)
Theorem Product_slugHook_result lower clk others slug name :
  ∃ r, Product_slugHook lower clk others slug name = Some r
       ∧ blankUnits (Some r) = false
       ∧ (blankUnits slug = false → slug = Some r)
       ∧ (blankUnits slug = true → blankUnits name = false →
            (r ∉ others)
            ∧ ∃ k, r = slugCandidate (generateSlug lower clk name) k)
       ∧ (blankUnits slug = true → blankUnits name = true → r = fallbackSlug clk).
Proof.
  unfold Product_slugHook. destruct (blankUnits slug) eqn:Hs.
  - destruct (blankUnits name) eqn:Hn; cbn [negb].
    + exists (fallbackSlug clk). rewrite (fallbackSlug_not_blank clk).
      by repeat split.
    + cbv zeta.
      set (base := if blankUnits (Some (slugOf lower (default [] name)))
                   then fallbackSlug clk else slugOf lower (default [] name)).
      assert (blankUnits (Some base) = false) as Hbase.
      { unfold base. destruct (blankUnits (Some (slugOf _ _))) eqn:Hb;
          [apply (fallbackSlug_not_blank clk)|done]. }
      assert (generateSlug lower clk name = base) as Hgen.
      { unfold generateSlug. by rewrite Hn. }
      destruct (uniqueSlug_spec others base) as (k & -> & _ & Hfree & _).
      pose proof (slugCandidate_not_blank base k Hbase) as Hnb.
      exists (slugCandidate base k). rewrite Hnb.
      split; [done|]. split; [done|]. split; [done|]. split; [|done].
      intros _ _. split; [done|]. exists k. by rewrite Hgen.
  - destruct slug as [s|]; [|done]. exists s. rewrite Hs. by repeat split.
Qed.

(** ** The category slug *)

Lemma latin_not_categoryUnit c : latinLetter c = true → categoryUnit c = false.
Proof.
  unfold latinLetter, categoryUnit, hyphen. intros H.
  apply orb_true_iff in H as [H|H]; apply andb_true_iff in H as [H1 H2];
    apply N.leb_le in H1, H2;
    repeat (apply orb_false_iff; split); try apply andb_false_iff;
    try (apply N.eqb_neq; lia);
    try (left; apply N.leb_gt; lia); try (right; apply N.leb_gt; lia).
Qed.

Lemma whiteRuns_latin s : ∀ b,
  Forall (λ c, latinLetter c = true ∨ isWhite c = true) s →
  Forall (λ c, latinLetter c = true ∨ c = hyphen) (whiteRuns b s).
Proof.
  induction s as [|c r IH]; intros b Hall; simpl; [done|].
  apply Forall_cons in Hall as [Hc Hr].
  destruct (isWhite c) eqn:Hw.
  - destruct b; [by apply IH|]. constructor; [by right|by apply IH].
  - constructor; [|by apply IH]. destruct Hc as [Hc|Hc]; [by left|congruence].
Qed.

Lemma whiteRuns_no_white s : ∀ b,
  Forall (λ c, isWhite c = false) s → whiteRuns b s = s.
Proof.
  induction s as [|c r IH]; intros b Hall; simpl; [done|].
  apply Forall_cons in Hall as [-> Hr]. by rewrite IH.
Qed.

Lemma latin_not_white c : latinLetter c = true → isWhite c = false.
Proof.
  unfold latinLetter, isWhite. intros H.
  apply orb_true_iff in H as [H|H]; apply andb_true_iff in H as [H1 H2];
    apply N.leb_le in H1, H2;
    repeat (apply orb_false_iff; split); try apply andb_false_iff;
    try (apply N.eqb_neq; lia);
    try (left; apply N.leb_gt; lia); try (right; apply N.leb_gt; lia).
Qed.

Lemma filter_latin s :
  Forall (λ c, latinLetter c = true) s → filter (λ c, categoryUnit c = true) s = [].
Proof.
  induction 1 as [|c r Hc _ IH]; [done|].
  rewrite filter_cons_False; [done|].
  rewrite (latin_not_categoryUnit c Hc). done.
Qed.

(** X20. The slug the category hook makes from a name keeps Arabic
    letters, digits and hyphens only: unlike the product slug it drops
    [a-z]. A name whose lower-case form consists of Latin letters and
    white space therefore gets a slug of hyphens only, and the empty slug
    when it has no white space. The hook acts only on a changed name
    without slug, and keeps a slug that is there. *)
Theorem Category_slug_drops_latin lower nameModified slug name :
  Forall (λ c, categoryUnit c = true) (categorySlugOf lower name)
  ∧ (Forall (λ c, latinLetter c = true ∨ isWhite c = true) (lower name) →
       Forall (λ c, c = hyphen) (categorySlugOf lower name))
  ∧ (Forall (λ c, latinLetter c = true) (lower name) →
       categorySlugOf lower name = [])
  ∧ (Category_slugHook lower nameModified slug name = slug
     ∨ nameModified = true ∧ default [] slug = []
       ∧ Category_slugHook lower nameModified slug name
         = Some (categorySlugOf lower name)).
Proof.
  assert (Forall (λ c, categoryUnit c = true) (categorySlugOf lower name)) as Hshape.
  { apply Forall_forall. intros c Hc. by apply list_elem_of_filter in Hc as [? _]. }
  split; [done|]. split; [|split].
  3: { unfold Category_slugHook. destruct nameModified; [|by left].
       case_bool_decide; [by right|by left]. }
  - intros Hall. apply Forall_forall. intros c Hc.
    apply list_elem_of_filter in Hc as [Hcat Hc].
    pose proof (whiteRuns_latin _ false Hall) as Hruns.
    rewrite Forall_forall in Hruns. destruct (Hruns c Hc) as [Hl | ->]; [|done].
    apply latin_not_categoryUnit in Hl. congruence.
  - intros Hall. unfold categorySlugOf. rewrite whiteRuns_no_white.
    + by apply filter_latin.
    + eapply Forall_impl; [exact Hall|]. apply latin_not_white.
Qed.

(** ** The tags of a new product *)

Lemma splitComma_no_comma s : Forall (λ piece, comma ∉ piece) (splitComma s).
Proof.
  induction s as [|c r IH]; simpl.
  - constructor; [|done]. by intros ?%elem_of_nil.
  - destruct (N.eqb_spec c comma) as [->|Hne].
    + constructor; [|done]. by intros ?%elem_of_nil.
    + destruct (splitComma r) as [|piece pieces].
      * constructor; [|done]. intros Hin. apply list_elem_of_singleton in Hin. done.
      * apply Forall_cons in IH as [Hp Hps]. constructor; [|done].
        intros Hin. apply elem_of_cons in Hin as [Hin|Hin]; [done|by apply Hp].
Qed.

Lemma dropWhite_subseteq s c : c ∈ dropWhite s → c ∈ s.
Proof.
  destruct (dropWhite_suffix s) as (w & Hw & _). intros Hin.
  rewrite Hw. apply elem_of_app. by right.
Qed.

Lemma trim_subseteq s c : c ∈ trim s → c ∈ s.
Proof.
  unfold trim. intros Hin. rewrite elem_of_reverse in Hin.
  apply dropWhite_subseteq in Hin. rewrite elem_of_reverse in Hin.
  by apply dropWhite_subseteq.
Qed.

Lemma splitComma_nonempty s : splitComma s ≠ [].
Proof.
  destruct s as [|c r]; [done|]. simpl.
  destruct (c =? comma)%N; [done|]. by destruct (splitComma r).
Qed.

Lemma splitComma_join s : joinComma (splitComma s) = s.
Proof.
  induction s as [|c r IH]; [done|]. simpl splitComma.
  pose proof (splitComma_nonempty r) as Hne.
  destruct (splitComma r) as [|piece pieces] eqn:Hr; [done|].
  destruct (N.eqb_spec c comma) as [->|Hc].
  - change (joinComma ([] :: piece :: pieces))
      with (comma :: joinComma (piece :: pieces)). by rewrite IH.
  - destruct pieces; simpl in *; by rewrite <- IH.
Qed.

(** X21. The tags taken from a comma-separated text are clean: none is
    empty, none contains a comma, none starts or ends with white space.
    An array is taken as it is; a missing, empty or blank text gives no
    tag. Nothing of the text is lost by the split: its pieces, joined by
    commas, are the text. *)
Theorem productTags_clean tags :
  (∀ text, tags = Some (TagText text) → Forall cleanTag (productTags tags))
  ∧ (∀ array, tags = Some (TagArray array) → productTags tags = array)
  ∧ (∀ text, tags = Some (TagText text) → forallb isWhite text = true →
       productTags tags = [])
  ∧ (tags = None → productTags tags = [])
  ∧ (∀ text, joinComma (splitComma text) = text).
Proof.
  split; [|split; [|split; [|split]]].
  - intros text ->. simpl.
    destruct (bool_decide (text ≠ []) && negb (bool_decide (trim text = [])));
      [|done].
    apply Forall_forall. intros t Ht.
    apply list_elem_of_filter in Ht as [Hne Ht].
    apply list_elem_of_fmap in Ht as (piece & -> & Hpiece).
    split; [done|]. split; [|split].
    + intros Hin. apply trim_subseteq in Hin.
      pose proof (splitComma_no_comma text) as Hall.
      rewrite Forall_forall in Hall. by apply (Hall piece).
    + apply trim_head.
    + apply trim_last.
  - by intros array ->.
  - intros text -> Hblank. simpl. apply trim_nil in Hblank. rewrite Hblank.
    rewrite (bool_decide_eq_true_2 ([] = [])) by done. simpl.
    by rewrite andb_false_r.
  - by intros ->.
  - apply splitComma_join.
Qed.
(** * The outcomes of an order creation, and the guard of the restore loop *)

Lemma afterSale_debited id its p :
  debited (unitsTaken id its p) p (afterSale (qtyFor id its) p).
Proof.
  unfold debited, unitsTaken, afterSale, sold.
  destruct (stock_trackInventory p) eqn:Ht; simpl; rewrite ?Ht; repeat split; lia.
Qed.

(** X22. What an order creation does, for quantities and prices that are
    whole numbers. A 400 answer leaves the whole store as it was, and a
    request that one of the route's checks refuses (a line without
    product, with an unknown or inactive product, or asking for more than
    the stock of a tracked product unless the order is a test order; a
    bank transfer without transaction id) gets one. A 201 answer has
    stored exactly one more order, and for every tracked product it has
    taken the total quantity of the lines that name it, at least one
    unit per line, from [stock.quantity], added it to [sales.count] and
    added its value at the product's price to [sales.revenue]; nothing
    else of any product has changed, and no product was added or
    removed. *)
Theorem createOrder_effects clk user req s r s' :
  createOrder clk user req s = (r, s') →
  (isRejection r → s' = s)
  ∧ (failsBusinessRule req s → isRejection r)
  ∧ (∀ o, r = Created o →
       orders s' = orders s ++ [o]
       ∧ (∀ id, option_Forall2 (λ p p', debited (unitsTaken id (items req) p) p p')
                  (products s !! id) (products s' !! id))
       ∧ (∀ it id, it ∈ items req → product it = Some id →
                   0 < qtyFor id (items req))).
Proof.
  intros H. split; [|split].
  - intros Hr.
    apply createOrder_cases in H as [[_ ->]|(st & ois & o & b & _ & _ & _ & ->)];
      [done|]. by destruct b.
  - intros Hfail. destruct (createOrder_rejects clk user req s Hfail) as (e & He & Hrej).
    rewrite He in H. by injection H as <- _.
  - intros o ->. apply createOrder_Created in H as (st & ois & Hv & Hc & Hd).
    apply validateItems_inr in Hv as (new & -> & Hsnap & _). simpl in *.
    destruct (created_quantities _ _ _ _ _ _ _ _ _ Hsnap Hc) as (_ & Hq & _).
    apply Order_create_Some in Hc as (_ & _ & ->).
    split; [done|]. split.
    + intros id. rewrite (decrementStock_done _ _ _ Hd id).
      destruct (products s !! id) as [p|]; simpl; constructor.
      apply afterSale_debited.
    + intros it id. by apply qtyFor_pos.
Qed.

(** X23. The guard on [cancelledAt] holds for every stored order: a
    status request on an order whose [cancelledAt] is set, whatever the
    status it asks for and whatever its answer, runs no restore loop. No
    product changes, and [cancelledAt] keeps its value. *)
Theorem cancelled_order_is_not_restored_again clk id req parsed s order r s' :
  orders s !! id = Some order → cancelledAt order ≠ None →
  updateStatus clk id req parsed s = (r, s') →
  products s' = products s
  ∧ cancelledAt <$> orders s' !! id = Some (cancelledAt order).
Proof. intros Hl Hca H. by eapply cancelled_again. Qed.
(** * The properties at work on the sample shop *)

Lemma shop_to_ordered : rtc step (Scenario.shop 5) Scenario.ordered.
Proof.
  eapply rtc_l; [eapply step_create; apply surjective_pairing|]. apply rtc_refl.
Qed.

Lemma ordered_to_cancelled : rtc step Scenario.ordered Scenario.withCancelled.
Proof.
  eapply rtc_l; [eapply step_update; apply surjective_pairing|]. apply rtc_refl.
Qed.

Lemma shop_to_cancelled : rtc step (Scenario.shop 5) Scenario.withCancelled.
Proof. etrans; [exact shop_to_ordered|exact ordered_to_cancelled]. Qed.

Lemma order_routes_only_move_units_witness :
  rtc step (Scenario.shop 5) Scenario.ordered
  ∧ idwise moved (products (Scenario.shop 5)) (products Scenario.ordered).
Proof.
  split; [exact shop_to_ordered|].
  exact (order_routes_only_move_units (Scenario.shop 5) Scenario.ordered shop_to_ordered).
Defined.

Lemma ordered_pricesAgree : pricesAgree Scenario.ordered.
Proof.
  repeat constructor. intros p Hl. vm_compute in Hl. by injection Hl as <-.
Qed.

Lemma revenue_follows_count_witness :
  pricesAgree Scenario.ordered
  ∧ orders Scenario.ordered ≠ []
  ∧ pricesAgree Scenario.withCancelled
  ∧ idwise movedAtPrice (products Scenario.ordered) (products Scenario.withCancelled).
Proof.
  split; [exact ordered_pricesAgree|]. split; [discriminate|].
  exact (revenue_follows_count Scenario.ordered Scenario.withCancelled
           ordered_pricesAgree ordered_to_cancelled).
Defined.

Lemma busy_distinct : numbersDistinct (orders Catalogue.busy).
Proof.
  unfold numbersDistinct.
  apply (bool_decide_eq_true_1 (NoDup (orderNumber <$> orders Catalogue.busy))).
  vm_compute. reflexivity.
Qed.

Lemma busy_to_busyAfter : rtc step Catalogue.busy Catalogue.busyAfter.
Proof.
  eapply rtc_l.
  { eapply (step_create _ _ Scenario.clk0 7%N
              (Scenario.cart [Scenario.line 1%N 3] 21 false)).
    apply surjective_pairing. }
  replace (snd (createOrder Scenario.clk0 7%N
                  (Scenario.cart [Scenario.line 1%N 3] 21 false) Catalogue.busy))
    with Catalogue.busy by (vm_compute; reflexivity).
  eapply rtc_l; [eapply step_create; apply surjective_pairing|]. apply rtc_refl.
Qed.

(** Among 101 orders the creation whose number is held is refused, the
    test order that follows is stored, and the 102 numbers are distinct. *)
Lemma order_numbers_stay_distinct_witness :
  length (orders Catalogue.busy) = 101%nat
  ∧ createOrder Scenario.clk0 7%N
      (Scenario.cart [Scenario.line 1%N 3] 21 false) Catalogue.busy
    = (ServerError, Catalogue.busy)
  ∧ length (orders Catalogue.busyAfter) = 102%nat
  ∧ numbersDistinct (orders Catalogue.busyAfter).
Proof.
  split; [reflexivity|]. split; [vm_compute; reflexivity|].
  split; [vm_compute; reflexivity|].
  exact (order_numbers_stay_distinct Catalogue.busy Catalogue.busyAfter
           busy_distinct busy_to_busyAfter).
Defined.

Lemma status_update_frame_witness :
  ∃ order r s',
    orders Scenario.ordered !! 0%nat = Some order
    ∧ updateStatus Scenario.clk1 0 (Scenario.setTo "shipped") InvalidDate
        Scenario.ordered = (r, s')
    ∧ length (orders s') = 1%nat
    ∧ ∃ order', orders s' !! 0%nat = Some order'
        ∧ sameCore order order' ∧ stampsKept order order'
        ∧ trackingKept (Scenario.setTo "shipped") order order'.
Proof.
  eexists _, _, _. split; [reflexivity|]. split; [reflexivity|].
  refine (let H := status_update_frame Scenario.clk1 0 (Scenario.setTo "shipped")
                     InvalidDate Scenario.ordered _ _ _ eq_refl eq_refl in
          conj (proj1 H) (proj2 (proj2 H))).
Defined.

Lemma stored_order_is_kept_witness :
  ∃ order order',
    orders Scenario.ordered !! 0%nat = Some order
    ∧ orders Scenario.withCancelled !! 0%nat = Some order'
    ∧ sameCore order order' ∧ stampsKept order order'.
Proof.
  destruct (stored_order_is_kept Scenario.ordered Scenario.withCancelled 0 _
              eq_refl ordered_to_cancelled) as (order' & H1 & H2 & H3).
  eexists _, order'. split; [reflexivity|]. split; [exact H1|]. split; assumption.
Defined.

Lemma created_iff_totals_fit_witness :
  (∃ o, createOrder Scenario.clk0 7%N
          (Scenario.cart [Scenario.line 1%N 3] 21 false) (Scenario.shop 5)
        = (Created o, Scenario.ordered)
        ∧ totalsFit (products (Scenario.shop 5)) [Scenario.line 1%N 3])
  ∧ ¬ totalsFit (products (Scenario.shop 0)) [Scenario.line 1%N 3]
  ∧ length (orders Catalogue.oversold) = 1%nat
  ∧ fst (createOrder Scenario.clk0 7%N
           (Scenario.cart [Scenario.line 1%N 3] 21 true) (Scenario.shop 0))
    = ServerError.
Proof.
  split; [|split; [|split]].
  - eexists. split; [reflexivity|].
    exact (proj1 (created_iff_totals_fit Scenario.clk0 7%N
                    (Scenario.cart [Scenario.line 1%N 3] 21 false) (Scenario.shop 5)
                    _ _ eq_refl) _ eq_refl).
  - intros H. specialize (H 1%N (Scenario.pen 0) eq_refl eq_refl).
    vm_compute in H. specialize (H eq_refl). by apply H.
  - reflexivity.
  - refine (proj2 (proj2 (created_iff_totals_fit Scenario.clk0 7%N
                    (Scenario.cart [Scenario.line 1%N 3] 21 true) (Scenario.shop 0)
                    _ _ (surjective_pairing _)) eq_refl) _).
    intros H. specialize (H 1%N (Scenario.pen 0) eq_refl eq_refl).
    vm_compute in H. specialize (H eq_refl). by apply H.
Defined.

Lemma created_items_are_snapshots_witness :
  ∃ o, createOrder Scenario.clk0 7%N
         (Scenario.cart [Scenario.line 1%N 3] 21 false) (Scenario.shop 5)
       = (Created o, Scenario.ordered)
       ∧ Forall2 (recordsLine (products (Scenario.shop 5)))
           [Scenario.line 1%N 3] (o_items o)
       ∧ o_user o = 7%N ∧ o_isTest o = false.
Proof.
  eexists. split; [reflexivity|].
  exact (created_items_are_snapshots Scenario.clk0 7%N
           (Scenario.cart [Scenario.line 1%N 3] 21 false) (Scenario.shop 5)
           _ _ eq_refl).
Defined.

Lemma payment_is_checked_witness :
  createOrder Scenario.clk0 7%N Catalogue.paypalCart (Scenario.shop 5)
  = (InvalidPaymentMethod, Scenario.shop 5)
  ∧ (∃ o s', createOrder Scenario.clk0 7%N Catalogue.blankMethodCart (Scenario.shop 5)
             = (Created o, s')
             ∧ pay_method (o_payment o) = cash)
  ∧ ∃ o s', createOrder Scenario.clk0 7%N Catalogue.transferCart (Scenario.shop 5)
            = (Created o, s')
            ∧ pay_method (o_payment o) = bank_transfer
            ∧ ∃ t, pay_transactionId (o_payment o) = Some t ∧ t ≠ EmptyString
                   ∧ payment Catalogue.transferCart ≫= rq_transactionId = Some t.
Proof.
  split; [|split].
  - apply (proj1 (payment_is_checked Scenario.clk0 7%N Catalogue.paypalCart
                    (Scenario.shop 5)) "paypal"%string eq_refl);
      [discriminate| |reflexivity].
    simpl. intros [H|[H|[H|[H|[]]]]]; discriminate H.
  - eexists _, _. split; [reflexivity|].
    exact (proj1 (proj2 (payment_is_checked Scenario.clk0 7%N Catalogue.blankMethodCart
                           (Scenario.shop 5)) _ _ eq_refl) (or_intror eq_refl)).
  - eexists _, _. split; [reflexivity|].
    pose proof (proj2 (payment_is_checked Scenario.clk0 7%N Catalogue.transferCart
                         (Scenario.shop 5)) _ _ eq_refl) as (_ & Hm & Ht).
    destruct (Hm "bank_transfer"%string eq_refl)
      as [[H _]|[[H _]|[[H _]|[[_ Hb]|[H _]]]]]; try discriminate H.
    split; [exact Hb|]. exact (Ht Hb).
Defined.

Lemma failed_cancellation_keeps_restore_witness :
  ∃ order,
    orders Scenario.ordered !! 0%nat = Some order
    ∧ updateStatus Scenario.clk1 0 (Catalogue.cancelOn "soon") InvalidDate
        Scenario.ordered
      = (UpdateServerError,
         {| products := products (Scenario.shop 5); orders := orders Scenario.ordered |})
    ∧ cancelledAt <$> orders Scenario.ordered !! 0%nat = Some None.
Proof.
  eexists. split; [reflexivity|]. split; [|reflexivity].
  exact (proj1 (failed_cancellation_keeps_restore Scenario.clk1 0
                  (Catalogue.cancelOn "soon") Scenario.ordered _
                  (products (Scenario.shop 5)) eq_refl eq_refl eq_refl eq_refl eq_refl)).
Defined.

Lemma window_paged : pagedBy Catalogue.newestFirst Catalogue.window.
Proof.
  intros skip limit l Hs Hl. unfold Catalogue.window.
  destruct (Z.ltb_spec skip 0); [lia|]. by rewrite Z.abs_eq by lia.
Qed.

(** User 8 is listed their one order of the two that are stored. *)
Lemma listOrders_scope_witness :
  length (orders Catalogue.twoUsers) = 2%nat
  ∧ ∃ r, listOrders Catalogue.window 8%N false (Some 1) (Some 25) Catalogue.twoUsers
         = Listed r
         ∧ ol_total r = 1%nat
         ∧ Forall (λ o, o_user o = 8%N) (ol_orders r)
         ∧ Z.of_nat (ol_count r) <= 25.
Proof.
  split; [reflexivity|].
  destruct (listOrders_scope Catalogue.newestFirst Catalogue.window 8%N false
              (Some 1) (Some 25) Catalogue.twoUsers) as [Hany Hpaged].
  destruct Hpaged as (r & Hr & Hown & _ & Hmax).
  - apply reverse_Permutation.
  - exact window_paged.
  - intros v [= <-]. lia.
  - intros v [= <-]. lia.
  - exists r. split; [exact Hr|].
    destruct (Hany r Hr) as (_ & Htotal & _).
    split; [by rewrite (Htotal eq_refl)|]. split; [exact (Hown eq_refl)|exact Hmax].
Defined.

(** 101 orders in pages of 25 are 5 pages; with a limit of [-5] the
    number of pages is not positive. *)
Lemma listOrders_pages_witness :
  let pageOf limit p :=
    listOrders Catalogue.window 7%N true (Some p) (Some limit) Catalogue.archive in
  (∃ pages,
     (∃ r, pageOf 25 1 = Listed r ∧ ol_pages r = pages)
     ∧ concat ((λ p, listed (pageOf 25 p)) <$> pageNumbers pages)
       = reverse Scenario.crowded
     ∧ listed (pageOf 25 (pages + 1)) = [])
  ∧ ∀ r, pageOf (-5) 1 = Listed r → ol_pages r <= 0.
Proof.
  intros pageOf. split.
  - destruct (proj1 (listOrders_pages Catalogue.newestFirst Catalogue.window 7%N true
                       (Some 25) Catalogue.archive) length_reverse window_paged)
      as (pages & Hall & Hcat & Hlast).
    { intros v [= <-]. lia. }
    exists pages. split; [|split].
    + destruct (Hall 1 ltac:(lia)) as (r & Hr & _ & Hp). by exists r.
    + exact Hcat.
    + apply Hlast. lia.
  - intros r Hr.
    exact (proj2 (listOrders_pages Catalogue.newestFirst Catalogue.window 7%N true
                    (Some (-5)) Catalogue.archive) (-5) 1 r eq_refl ltac:(lia) Hr).
Defined.

Lemma getOrder_access_witness :
  (∃ o', getOrder 7%N false 0 Scenario.withCancelled = Found o')
  ∧ getOrder 8%N false 0 Scenario.withCancelled = Forbidden
  ∧ ∃ o', getOrder 8%N true 0 Scenario.withCancelled = Found o'.
Proof.
  pose proof (getOrder_access Scenario.clk0 7%N
                (Scenario.cart [Scenario.line 1%N 3] 21 false) (Scenario.shop 5)
                _ Scenario.ordered Scenario.withCancelled eq_refl ordered_to_cancelled)
    as (_ & (o' & H2 & _) & H3 & H4).
  split; [by exists o'|]. split; [apply H4; discriminate|apply H3].
Defined.

(** A price of [-2] is refused; a price of 0 leaves the 7 as a JSON
    number and is written as the text of a form field. *)
Lemma updateProduct_edges_witness :
  updateProduct 1%N (Catalogue.reprice (-2)) (Scenario.shop 5)
  = (ProductServerError, Scenario.shop 5)
  ∧ (∃ p' s', updateProduct 1%N (Catalogue.reprice 0) (Scenario.shop 5)
              = (ProductUpdated p', s')
              ∧ p_price p' = 7 ∧ orders s' = [])
  ∧ ∃ p' s', updateProduct 1%N (Catalogue.repriceForm "0" (Some 0)) (Scenario.shop 5)
             = (ProductUpdated p', s')
             ∧ p_price p' = 0.
Proof.
  split; [|split].
  - pose proof (updateProduct_edges 1%N (Catalogue.reprice (-2)) (Scenario.shop 5)
                  _ _ (surjective_pairing _)) as (_ & Hs & Hp).
    destruct (Hp (Scenario.pen 5) eq_refl) as (Hneg & _).
    pose proof (Hneg (Json (-2)) eq_refl ltac:(simpl; lia)) as Hr.
    rewrite (surjective_pairing (updateProduct _ _ _)). by rewrite Hr, (Hs Hr).
  - eexists _, _. split; [reflexivity|].
    pose proof (updateProduct_edges 1%N (Catalogue.reprice 0) (Scenario.shop 5)
                  _ _ eq_refl) as (_ & _ & Hp).
    destruct (Hp (Scenario.pen 5) eq_refl) as (_ & _ & Hok).
    destruct (Hok _ eq_refl) as (_ & Ho & _ & _ & _ & _ & _ & Hz & _).
    split; [exact (Hz eq_refl)|exact Ho].
  - eexists _, _. split; [reflexivity|].
    pose proof (updateProduct_edges 1%N (Catalogue.repriceForm "0" (Some 0))
                  (Scenario.shop 5) _ _ eq_refl) as (_ & _ & Hp).
    destruct (Hp (Scenario.pen 5) eq_refl) as (_ & _ & Hok).
    destruct (Hok _ eq_refl) as (_ & _ & _ & _ & _ & _ & _ & _ & Hz & _).
    apply (Hz "0"%string eq_refl). discriminate.
Defined.

Lemma shop_to_repricedCancelled :
  rtc anyStep (Scenario.shop 5) Catalogue.repricedCancelled.
Proof.
  eapply rtc_l; [apply any_order; eapply step_create; apply surjective_pairing|].
  eapply rtc_l; [eapply any_update; apply surjective_pairing|].
  eapply rtc_l; [apply any_order; eapply step_update; apply surjective_pairing|].
  apply rtc_refl.
Qed.

Lemma stock_never_negative_any_route_witness :
  stockNonneg (products (Scenario.shop 5))
  ∧ stockNonneg (products Catalogue.repricedCancelled).
Proof.
  split; [apply shop_stockNonneg; lia|].
  exact (stock_never_negative_any_route (Scenario.shop 5) Catalogue.repricedCancelled
           (shop_stockNonneg 5 ltac:(lia)) shop_to_repricedCancelled).
Defined.

Lemma unavailable_products_are_not_sold_witness :
  products Catalogue.withoutPen !! 1%N = None
  ∧ (∃ p', products Catalogue.penOff !! 1%N = Some p' ∧ p_isActive p' = false)
  ∧ ∃ e, createOrder Scenario.clk0 7%N
           (Scenario.cart [Scenario.line 1%N 3] 21 false) Catalogue.penOff
         = (e, Catalogue.penOff) ∧ isRejection e.
Proof.
  assert (∃ p', products Catalogue.penOff !! 1%N = Some p' ∧ p_isActive p' = false)
    as Hoff.
  { eexists.
    exact (proj1 (proj2 (unavailable_products_are_not_sold 1%N (Scenario.shop 5)))
             Catalogue.deactivate _ _ (Json false) eq_refl eq_refl eq_refl). }
  split; [|split; [exact Hoff|]].
  - exact (proj1 (unavailable_products_are_not_sold 1%N (Scenario.shop 5)) _ eq_refl).
  - apply (proj2 (proj2 (unavailable_products_are_not_sold 1%N Catalogue.penOff))
             eq_refl Scenario.clk0 7%N (Scenario.cart [Scenario.line 1%N 3] 21 false)
             (Scenario.line 1%N 3)); [|reflexivity].
    apply list_elem_of_singleton. reflexivity.
Defined.

Lemma repriced_cancellation_witness :
  p_price <$> products Catalogue.repriced !! 1%N = Some 9
  ∧ ∀ id, counters <$> products Catalogue.repricedCancelled !! id
          = counters <$> products (Scenario.shop 5) !! id.
Proof.
  split; [reflexivity|].
  exact (repriced_cancellation Scenario.clk0 7%N
           (Scenario.cart [Scenario.line 1%N 3] 21 false) (Scenario.shop 5)
           _ Scenario.ordered 1%N (Catalogue.reprice 9) _ Catalogue.repriced
           Scenario.clk1 (Scenario.setTo "cancelled") InvalidDate _
           Catalogue.repricedCancelled eq_refl eq_refl eq_refl eq_refl eq_refl).
Defined.

Lemma generateSlug_shape_witness :
  blankUnits (Some (generateSlug Catalogue.lowerAscii Scenario.clk0
                      (Some (units " Red  Pen! ")))) = false
  ∧ generateSlug Catalogue.lowerAscii Scenario.clk0 (Some (units "   "))
    = fallbackSlug Scenario.clk0.
Proof.
  split.
  - exact (proj1 (generateSlug_shape Catalogue.lowerAscii Scenario.clk0
                    (Some (units " Red  Pen! ")))).
  - exact (proj2 (proj2 (generateSlug_shape Catalogue.lowerAscii Scenario.clk0
                           (Some (units "   ")))) eq_refl).
Defined.

Lemma uniqueSlug_free_witness :
  ∃ k, uniqueSlug [units "pen"; units "pen-1"] (units "pen")
       = Some (slugCandidate (units "pen") k)
       ∧ (slugCandidate (units "pen") k ∉ [units "pen"; units "pen-1"]).
Proof.
  destruct (uniqueSlug_free [units "pen"; units "pen-1"] (units "pen"))
    as (k & H1 & _ & H3 & _).
  exists k. split; assumption.
Defined.

Lemma Product_slugHook_result_witness :
  ∃ r, Product_slugHook Catalogue.lowerAscii Scenario.clk0 [units "red-pen"] None
         (Some (units "Red Pen")) = Some r
       ∧ (r ∉ [units "red-pen"]).
Proof.
  destruct (Product_slugHook_result Catalogue.lowerAscii Scenario.clk0
              [units "red-pen"] None (Some (units "Red Pen")))
    as (r & H1 & _ & _ & H4 & _).
  exists r. split; [exact H1|]. exact (proj1 (H4 eq_refl eq_refl)).
Defined.

Lemma Category_slug_drops_latin_witness :
  categorySlugOf Catalogue.lowerAscii (units "Pens") = []
  ∧ Forall (λ c, c = hyphen) (categorySlugOf Catalogue.lowerAscii (units "Red Pens")).
Proof.
  split.
  - apply (proj1 (proj2 (proj2 (Category_slug_drops_latin Catalogue.lowerAscii
                                  true None (units "Pens"))))).
    repeat (constructor; [reflexivity|]). constructor.
  - apply (proj1 (proj2 (Category_slug_drops_latin Catalogue.lowerAscii
                           true None (units "Red Pens")))).
    repeat (constructor; [(by left) || (by right)|]). constructor.
Defined.

Lemma productTags_clean_witness :
  Forall cleanTag (productTags (Some (TagText (units " red, ,blue "))))
  ∧ productTags (Some (TagText (units "  "))) = [].
Proof.
  split.
  - exact (proj1 (productTags_clean (Some (TagText (units " red, ,blue "))))
             _ eq_refl).
  - exact (proj1 (proj2 (proj2 (productTags_clean (Some (TagText (units "  "))))))
             _ eq_refl eq_refl).
Defined.

(** The order for 3 of the 5 pens leaves 2 in stock, 3 sold and a revenue
    of 21; the bank transfer without transaction id changes nothing. *)
Lemma createOrder_effects_witness :
  (failsBusinessRule Scenario.bankCart (Scenario.shop 5)
   ∧ snd (createOrder Scenario.clk0 7%N Scenario.bankCart (Scenario.shop 5))
     = Scenario.shop 5)
  ∧ ∃ o, createOrder Scenario.clk0 7%N
           (Scenario.cart [Scenario.line 1%N 3] 21 false) (Scenario.shop 5)
         = (Created o, Scenario.ordered)
         ∧ orders Scenario.ordered = [o]
         ∧ option_Forall2 (debited 3)
             (products (Scenario.shop 5) !! 1%N) (products Scenario.ordered !! 1%N)
         ∧ stock_quantity <$> products Scenario.ordered !! 1%N = Some 2
         ∧ sales_count <$> products Scenario.ordered !! 1%N = Some 3
         ∧ sales_revenue <$> products Scenario.ordered !! 1%N = Some 21.
Proof.
  assert (failsBusinessRule Scenario.bankCart (Scenario.shop 5)) as Hfail.
  { left. split; reflexivity. }
  split.
  - split; [exact Hfail|].
    destruct (createOrder_effects Scenario.clk0 7%N Scenario.bankCart (Scenario.shop 5)
                _ _ (surjective_pairing _)) as (Hsame & Hrej & _).
    exact (Hsame (Hrej Hfail)).
  - eexists. split; [reflexivity|].
    destruct (createOrder_effects Scenario.clk0 7%N
                (Scenario.cart [Scenario.line 1%N 3] 21 false) (Scenario.shop 5)
                _ Scenario.ordered eq_refl) as (_ & _ & Hok).
    destruct (Hok _ eq_refl) as (Ho & Hp & _).
    split; [exact Ho|]. split; [|by repeat split].
    pose proof (Hp 1%N) as Hp1.
    assert (products (Scenario.shop 5) !! 1%N = Some (Scenario.pen 5)) as Hl
      by reflexivity.
    rewrite Hl in Hp1 |- *. inversion Hp1 as [p p1 Hd|]. constructor. exact Hd.
Defined.

(** The cancelled order is cancelled again: the pens stay at 5. *)
Lemma cancelled_order_is_not_restored_again_witness :
  ∃ order r s',
    orders Scenario.withCancelled !! 0%nat = Some order
    ∧ cancelledAt order = Some (now Scenario.clk1)
    ∧ updateStatus Scenario.clk0 0 (Scenario.setTo "cancelled") InvalidDate
        Scenario.withCancelled = (r, s')
    ∧ products s' = products Scenario.withCancelled
    ∧ stock_quantity <$> products s' !! 1%N = Some 5.
Proof.
  eexists _, _, _. split; [reflexivity|]. split; [reflexivity|].
  split; [reflexivity|].
  split; [|reflexivity].
  exact (proj1 (cancelled_order_is_not_restored_again Scenario.clk0 0
                  (Scenario.setTo "cancelled") InvalidDate Scenario.withCancelled
                  _ _ _ eq_refl ltac:(discriminate) eq_refl)).
Defined.
